(** * gostratum/httpc: retry policy, circuit breaker, request builder,
    API-key auth and response wrapper

    A shallow embedding of the execution pipeline of the [httpc] client
    (packages [retry], [breaker], [auth] and [httpc]) together with the
    properties its specification states about it.

    Conventions of the embedding:
    - Go [int], [int64] and [time.Duration] are [Z] (nanoseconds for
      durations).  The backoff computation has the conversions and the
      sum of [int64]; elsewhere the 64-bit range is not modelled.
    - Go [float64] is idealised as exact rational arithmetic [Q]; the
      conversion [time.Duration(f)] truncates toward zero, with the
      result amd64 gives for a value that is no [int64].
    - Go strings are byte strings ([string]); case mapping is the ASCII one.
    - Go [error] values are an inductive type with an [Unwrap] chain.
    - Objects mutated in place are passed and returned explicitly; time
      enters as explicit time stamps and as the outcome of each wait.
    - Functions of the Go library are written out where the pipeline
      depends on their result; the rest of [url.Parse] is a parameter. *)

From Stdlib Require Import ZArith QArith Qround Qpower String Ascii List Lia.
From stdpp Require Import gmap strings list.

Open Scope Z_scope.

(** ** Package [strings] of the Go library (ASCII fragment) *)

Module Strings.

Definition isLower (c : ascii) : bool :=
  ((97 <=? nat_of_ascii c) && (nat_of_ascii c <=? 122))%nat.

Definition isUpper (c : ascii) : bool :=
  ((65 <=? nat_of_ascii c) && (nat_of_ascii c <=? 90))%nat.

Definition toUpperByte (c : ascii) : ascii :=
  if isLower c then ascii_of_nat (nat_of_ascii c - 32) else c.

Definition toLowerByte (c : ascii) : ascii :=
  if isUpper c then ascii_of_nat (nat_of_ascii c + 32) else c.

Fixpoint mapBytes (f : ascii -> ascii) (s : string) : string :=
  match s with
  | EmptyString => EmptyString
  | String c s' => String (f c) (mapBytes f s')
  end.

(** [ToUpper] and [ToLower] on ASCII letters; every other byte is left
    as it is (the library also maps the letters beyond ASCII). *)
Definition ToUpper : string -> string := mapBytes toUpperByte.
Definition ToLower : string -> string := mapBytes toLowerByte.

Fixpoint containsByte (cutset : string) (c : ascii) : bool :=
  match cutset with
  | EmptyString => false
  | String d cutset' => if Ascii.eqb c d then true else containsByte cutset' c
  end.

Fixpoint TrimLeft (s cutset : string) : string :=
  match s with
  | EmptyString => EmptyString
  | String c s' => if containsByte cutset c then TrimLeft s' cutset else s
  end.

Fixpoint TrimRight (s cutset : string) : string :=
  match s with
  | EmptyString => EmptyString
  | String c s' =>
      match TrimRight s' cutset with
      | EmptyString => if containsByte cutset c then EmptyString else String c EmptyString
      | t => String c t
      end
  end.

Definition HasPrefix (s prefix_ : string) : bool := String.prefix prefix_ s.

(** ASCII white space: tab, line feed, vertical tab, form feed,
    carriage return, space. *)
Definition asciiSpace : string :=
  String (ascii_of_nat 9) (String (ascii_of_nat 10) (String (ascii_of_nat 11)
    (String (ascii_of_nat 12) (String (ascii_of_nat 13) (String (ascii_of_nat 32) EmptyString))))).

(** [TrimSpace] for ASCII white space (the library also trims the white
    space beyond ASCII). *)
Definition TrimSpace (s : string) : string :=
  TrimRight (TrimLeft s asciiSpace) asciiSpace.

End Strings.

(** ** Errors *)

(** Go [error] values as far as the pipeline distinguishes them: the two
    context sentinels, values implementing [net.Error] (with their
    [Timeout()] and [Temporary()] answers), plain errors, and wrappers
    whose [Unwrap] yields the inner error ([fmt.Errorf] with the verb for
    wrapping, or a [net.Error] such as [*url.Error] around a cause). *)
Inductive error : Type :=
| context_Canceled
| context_DeadlineExceeded
| net_Error (timeout temporary : bool) (msg : string)
| errors_New (msg : string)
| fmt_Errorf (msg : string) (inner : error)
| net_Wrapped (timeout temporary : bool) (inner : error).

#[global] Instance error_eq_dec : EqDecision error.
Proof. solve_decision. Defined.

Definition Unwrap (e : error) : option error :=
  match e with
  | fmt_Errorf _ inner | net_Wrapped _ _ inner => Some inner
  | _ => None
  end.

(** [errors.Is]: the target occurs on the [Unwrap] chain. *)
Fixpoint errors_Is (e target : error) : bool :=
  bool_decide (e = target) ||
  match e with
  | fmt_Errorf _ inner | net_Wrapped _ _ inner => errors_Is inner target
  | _ => false
  end.

(** [errors.As(err, &netErr)] for [netErr net.Error]: the first value on
    the chain that implements [net.Error], as its two answers.
    [context.DeadlineExceeded] implements [net.Error] with both true. *)
Fixpoint errors_As_netError (e : error) : option (bool * bool) :=
  match e with
  | context_Canceled => None
  | context_DeadlineExceeded => Some (true, true)
  | net_Error t tmp _ => Some (t, tmp)
  | errors_New _ => None
  | fmt_Errorf _ inner => errors_As_netError inner
  | net_Wrapped t tmp _ => Some (t, tmp)
  end.

(** ** Durations *)

Abbreviation Duration := Z (only parsing).
Definition Millisecond : Duration := 1000000.
Definition Second : Duration := 1000000000.

(** The range of [int64], the type under [time.Duration]; sums of
    [int64] values wrap around. *)
Definition MinInt64 : Z := - 2 ^ 63.
Definition MaxInt64 : Z := 2 ^ 63 - 1.

Definition wrap64 (z : Z) : Z := (z - MinInt64) mod 2 ^ 64 + MinInt64.

(** ** [net/http] and [net/url] values *)

Abbreviation bytes := (list Byte.byte) (only parsing).

(** An [io.ReadCloser] over a network body: the bytes still to come, the
    error a read would hit (if any), and counters of the [ReadAll] and
    [Close] calls made on it. *)
Record ReadCloser := mkReadCloser {
  pending : bytes;
  readErr : option error;
  reads : nat;
  closes : nat
}.

Definition newBody (b : bytes) : ReadCloser := mkReadCloser b None 0 0.

(** [io.ReadAll]: drains the stream. *)
Definition io_ReadAll (rc : ReadCloser) : (error + bytes) * ReadCloser :=
  let rc' := mkReadCloser [] (readErr rc) (S (reads rc)) (closes rc) in
  match readErr rc with
  | Some e => (inl e, rc')
  | None => (inr (pending rc), rc')
  end.

Definition Close (rc : ReadCloser) : ReadCloser :=
  mkReadCloser (pending rc) (readErr rc) (reads rc) (S (closes rc)).

Record url_URL := mkURL {
  Scheme : string;
  Host : string;
  Path : string;
  (** [RawQuery], held in parsed form: [u.Query()] reads it and
      [u.RawQuery = q.Encode()] writes it. *)
  Query : gmap string (list string)
}.

Record http_Request := mkRequest {
  Method : string;
  URL : option url_URL;
  ReqHeader : gmap string (list string);
  Body : option ReadCloser;
  (** [GetBody], as the result each call of it gives. *)
  GetBody : option (error + ReadCloser);
  ContentLength : Z
}.

Record http_Response := mkResponse {
  StatusCode : Z;
  RespHeader : gmap string (list string);
  RespBody : option ReadCloser
}.

(** [textproto.CanonicalMIMEHeaderKey]: a key made of token bytes only
    gets its first letter and every letter after a hyphen in upper case
    and the others in lower case; any other key is left as it is. *)
Definition isDigit (c : ascii) : bool :=
  ((48 <=? nat_of_ascii c) && (nat_of_ascii c <=? 57))%nat.

Definition validHeaderFieldByte (c : ascii) : bool :=
  Strings.isLower c || Strings.isUpper c || isDigit c ||
  Strings.containsByte "!#$%&'*+-.^_`|~" c.

Fixpoint allBytes (f : ascii -> bool) (s : string) : bool :=
  match s with
  | EmptyString => true
  | String c s' => f c && allBytes f s'
  end.

Fixpoint canonicalize (upper : bool) (s : string) : string :=
  match s with
  | EmptyString => EmptyString
  | String c s' =>
      String (if upper then Strings.toUpperByte c else Strings.toLowerByte c)
             (canonicalize (Ascii.eqb c "-") s')
  end.

Definition CanonicalMIMEHeaderKey (s : string) : string :=
  if allBytes validHeaderFieldByte s then canonicalize true s else s.

Definition Header_Get (h : gmap string (list string)) (key : string) : string :=
  match h !! CanonicalMIMEHeaderKey key with
  | Some (v :: _) => v
  | _ => EmptyString
  end.

Definition Header_Set (h : gmap string (list string)) (key value : string)
    : gmap string (list string) :=
  <[CanonicalMIMEHeaderKey key := [value]]> h.

Definition Header_Add (h : gmap string (list string)) (key value : string)
    : gmap string (list string) :=
  let k := CanonicalMIMEHeaderKey key in
  <[k := default [] (h !! k) ++ [value]]> h.

Definition Values_Get (v : gmap string (list string)) (key : string) : string :=
  match v !! key with
  | Some (x :: _) => x
  | _ => EmptyString
  end.

Definition Values_Set (v : gmap string (list string)) (key value : string)
    : gmap string (list string) :=
  <[key := [value]]> v.

Definition Values_Add (v : gmap string (list string)) (key value : string)
    : gmap string (list string) :=
  <[key := default [] (v !! key) ++ [value]]> v.

(** An [http.RoundTripper] with internal state [T]: [RoundTrip] returns
    [(resp, err)], either of which may be nil. *)
Definition RoundTripper (T : Type) : Type :=
  T -> http_Request -> (option http_Response * option error) * T.

(** The values the pipeline stores in a request's [context.Context]. *)
Record Context (P : Type) := mkContext {
  policyValue : option P;
  forceValue : bool;
  overrideValue : option bool
}.
Arguments mkContext {P} _ _ _.
Arguments policyValue {P} _.
Arguments forceValue {P} _.
Arguments overrideValue {P} _.

(** ** Package [retry] *)

Module Retry.

(** [math/rand]'s generator: [Float64] returns a value in [[0,1)] and
    advances the generator. *)
Class RandSource (R : Type) := {
  Float64 : R -> Q * R;
  Float64_range : forall s, (0 <= fst (Float64 s))%Q /\ (fst (Float64 s) < 1)%Q
}.

(** interface [Policy] *)
Class Policy (P : Type) :=
  ShouldRetry : P -> http_Request -> option http_Response -> option error ->
                Z -> bool -> (Duration * bool) * P.

Record PolicyConfig := mkPolicyConfig {
  MaxAttempts : Z;
  BaseBackoff : Duration;
  MaxBackoff : Duration;
  StatusCodes : list Z;
  Env : string;
  IdempotentOnly : bool
}.

Record policy (R : Type) := mkPolicy {
  maxAttempts : Z;
  baseBackoff : Duration;
  maxBackoff : Duration;
  statusCodes : gset Z;
  idempotentOnly : bool;
  rand : R
}.
Arguments mkPolicy {R} _ _ _ _ _ _.
Arguments maxAttempts {R} _.
Arguments baseBackoff {R} _.
Arguments maxBackoff {R} _.
Arguments statusCodes {R} _.
Arguments idempotentOnly {R} _.
Arguments rand {R} _.

(** [rnd] is the generator [rand.New(rand.NewSource(now))] yields. *)
Definition NewPolicy {R} (cfg : PolicyConfig) (rnd : R) : policy R :=
  let maxA := if MaxAttempts cfg <=? 0 then 3 else MaxAttempts cfg in
  let base := if BaseBackoff cfg <=? 0 then 200 * Millisecond else BaseBackoff cfg in
  let maxB := if MaxBackoff cfg <=? 0 then 2 * Second else MaxBackoff cfg in
  let codeSet := foldl (fun (s : gset Z) code => {[code]} ∪ s) ∅ (StatusCodes cfg) in
  mkPolicy maxA base maxB codeSet (IdempotentOnly cfg) rnd.

(** [time.Duration(f)] for a float [f]: truncation toward zero when the
    truncated value is an [int64].  When it is not, the language leaves
    the result to the implementation; the value here is the one the
    conversion gives on amd64, the minimum [int64]. *)
Definition Duration_of_float (f : Q) : Duration :=
  let z := if Qle_bool 0 f then Qfloor f else Qceiling f in
  if (MinInt64 <=? z) && (z <=? MaxInt64) then z else MinInt64.

(** [backoff]: [math.Pow(2, n)] is [Qpower 2 n]; the products of floats
    are taken exactly (the rounding of [float64] is not modelled), the
    conversions to [time.Duration] and the sum are those of [int64].
    The policy comes back with its generator advanced (the mutex only
    serialises the draws). *)
Definition backoff {R} `{RandSource R} (p : policy R) (attempt : Z) : Duration * policy R :=
  let factor := Qpower 2 (attempt - 1) in
  let delay := Duration_of_float (inject_Z (baseBackoff p) * factor) in
  let delay := if delay >? maxBackoff p then maxBackoff p else delay in
  let '(r, rnd') := Float64 (rand p) in
  let jitter := (r * inject_Z delay * (2 # 10))%Q in
  (wrap64 (delay + Duration_of_float jitter),
   mkPolicy (maxAttempts p) (baseBackoff p) (maxBackoff p) (statusCodes p)
            (idempotentOnly p) rnd').

Definition isIdempotent (method : string) : bool :=
  let m := Strings.ToUpper method in
  if decide (m = "GET"%string) then true
  else if decide (m = "HEAD"%string) then true
  else if decide (m = "OPTIONS"%string) then true
  else if decide (m = "PUT"%string) then true
  else if decide (m = "DELETE"%string) then true
  else false.

Definition isNetErrorRetryable (err : error) : bool :=
  match errors_As_netError err with
  | Some (timeout, temporary) => timeout || temporary
  | None => false
  end.

Definition policy_ShouldRetry {R} `{RandSource R} (p : policy R) (req : http_Request)
    (resp : option http_Response) (err : option error) (attempt : Z) (force : bool)
    : (Duration * bool) * policy R :=
  if attempt >=? maxAttempts p then ((0, false), p)
  else if negb force && idempotentOnly p && negb (isIdempotent (Method req))
  then ((0, false), p)
  else match err with
  | Some e =>
      if errors_Is e context_Canceled || errors_Is e context_DeadlineExceeded
      then ((0, false), p)
      else if isNetErrorRetryable e
      then let '(d, p') := backoff p attempt in ((d, true), p')
      else ((0, false), p)
  | None =>
      match resp with
      | None => ((0, false), p)
      | Some r =>
          if bool_decide (StatusCode r ∈ statusCodes p)
          then let '(d, p') := backoff p attempt in ((d, true), p')
          else ((0, false), p)
      end
  end.

#[global] Instance policy_Policy {R} `{RandSource R} : Policy (policy R) :=
  policy_ShouldRetry.

(** [WithPolicy], [WithForce], [PolicyFromContext], [IsForce] *)
Definition WithPolicy {P} (ctx : Context P) (p : P) : Context P :=
  mkContext (Some p) (forceValue ctx) (overrideValue ctx).

Definition PolicyFromContext {P} (ctx : Context P) : option P := policyValue ctx.

Definition WithForce {P} (ctx : Context P) : Context P :=
  mkContext (policyValue ctx) true (overrideValue ctx).

Definition IsForce {P} (ctx : Context P) : bool := forceValue ctx.

(** [waitWithContext].  [done] is what the [select] observes: [None]
    when the timer fires first, [Some e] when [ctx.Done()] is ready
    first, [e] being [ctx.Err()].  A non-positive delay returns at once
    without looking at the context. *)
Definition waitWithContext (done : option error) (d : Duration) : option error :=
  if d <=? 0 then None
  else match done with
       | Some e => Some e
       | None => None
       end.

(** [req.Clone(ctx)] copies the request; the copy shares [Body] and
    [GetBody] with the original. *)
Definition Clone (req : http_Request) : http_Request := req.

Definition prepareAttemptRequest (req : http_Request) (attempt : Z)
    : error + http_Request :=
  if attempt =? 1 then inr req
  else
    let clone := Clone req in
    match GetBody req with
    | None => inr clone
    | Some (inl err) => inl (fmt_Errorf "reset body" err)
    | Some (inr body) =>
        inr (mkRequest (Method clone) (URL clone) (ReqHeader clone) (Some body)
                       (GetBody req) (ContentLength clone))
    end.

(** The [for] loop of the middleware, started at [attempt] with policy
    state [pol] and transport state [t].  [done n] is what the wait that
    follows attempt [n] observes of the request's context.  The loop
    runs as long as the policy asks for it; [fuel] bounds the number of
    iterations.  The result carries the policy and transport states the
    call leaves behind; [None] means that the call yields no result:
    the fuel ran out, or the call panicked.  It panics after a wait that
    ran to its end when the request has no URL, for the log line that
    follows the wait evaluates [req.URL.String()].  (The release of the
    discarded response body has no effect on the result.) *)
Fixpoint retryLoop {P} `{Policy P} {T} (next : RoundTripper T) (done : Z -> option error)
    (force : bool) (orig : http_Request) (fuel : nat) (pol : P) (attempt : Z) (t : T)
    : option ((option http_Response * option error) * P * T) :=
  match fuel with
  | O => None
  | S fuel' =>
      match prepareAttemptRequest orig attempt with
      | inl err => Some ((None, Some err), pol, t)
      | inr currentReq =>
          let '((resp, err), t1) := next t currentReq in
          let '((delay, retryable), pol1) := ShouldRetry pol currentReq resp err attempt force in
          if negb retryable then Some ((resp, err), pol1, t1)
          else
            match waitWithContext (done attempt) delay with
            | Some e => Some ((None, Some (fmt_Errorf "retry interrupted" e)), pol1, t1)
            | None =>
                match URL orig with
                | None => None
                | Some _ => retryLoop next done force orig fuel' pol1 (attempt + 1) t1
                end
            end
      end
  end.

(** The loop as a step relation: [reaches next done force orig a pol t a'
    pol' t'] when the loop, at the head of the iteration for attempt [a]
    with policy state [pol] and transport state [t], goes on (each
    attempt in between is retried and each wait runs to its end) to the
    head of the iteration for attempt [a'] with states [pol'] and [t'];
    the log line after each of these waits needs the request's URL. *)
Inductive reaches {P} `{Policy P} {T} (next : RoundTripper T) (done : Z -> option error)
    (force : bool) (orig : http_Request) : Z -> P -> T -> Z -> P -> T -> Prop :=
| reaches_here a pol t : reaches next done force orig a pol t a pol t
| reaches_retry a pol t cur resp err t1 delay pol1 a' pol' t' :
    prepareAttemptRequest orig a = inr cur ->
    next t cur = ((resp, err), t1) ->
    ShouldRetry pol cur resp err a force = ((delay, true), pol1) ->
    waitWithContext (done a) delay = None ->
    URL orig <> None ->
    reaches next done force orig (a + 1) pol1 t1 a' pol' t' ->
    reaches next done force orig a pol t a' pol' t'.

(** [NewMiddleware defaultPolicy logger next], applied to a request with
    context [ctx].  The policy used is handed back with its new state. *)
Definition NewMiddleware {P} `{Policy P} {T} (defaultPolicy : option P)
    (next : RoundTripper T) (done : Z -> option error) (fuel : nat)
    (ctx : Context P) (req : http_Request) (t : T)
    : option ((option http_Response * option error) * option P * T) :=
  let policy := match PolicyFromContext ctx with
                | Some p => Some p
                | None => defaultPolicy
                end in
  match policy with
  | None => let '(res, t1) := next t req in Some (res, None, t1)
  | Some pol =>
      match retryLoop next done (IsForce ctx) req fuel pol 1 t with
      | Some (res, pol', t') => Some (res, Some pol', t')
      | None => None
      end
  end.

End Retry.

(** ** Package [breaker] *)

Module Breaker.

(** *** The circuit breaker of [github.com/sony/gobreaker] *)

(** Modelled from the spec: the three breaker states of section 4.4, for
    the library's type [gobreaker.State]. *)
Inductive State := StateClosed | StateHalfOpen | StateOpen.

(** Modelled from the spec: the consecutive-failure counter of section
    3, the one field of [gobreaker.Counts] the trip condition of
    [manager.get] reads. *)
Record Counts := mkCounts {
  ConsecutiveFailures : Z
}.

(** The fields of [gobreaker.Settings] that [manager.get] fills in. *)
Record Settings := mkSettings {
  sName : string;
  sMaxRequests : Z;
  sInterval : Duration;
  sTimeout : Duration;
  sReadyToTrip : Counts -> bool
}.

(** Modelled from the spec: the per-host state of section 3
    ([BreakerState]: closed / open / half-open, the consecutive-failure
    counter, the time stamp of the last state transition), for the
    third-party type [gobreaker.CircuitBreaker], whose code is not part
    of this repository. *)
Record CircuitBreaker := mkCircuitBreaker {
  settings : Settings;
  state : State;
  counts : Counts;
  since : Z
}.

(** Modelled from the spec: section 4.4, a breaker is created closed,
    with no failure counted ([gobreaker.NewCircuitBreaker], called at
    time [now]). *)
Definition NewCircuitBreaker (st : Settings) (now : Z) : CircuitBreaker :=
  mkCircuitBreaker st StateClosed (mkCounts 0) now.

(** Modelled from the spec: the breaker-open error of section 4.4
    ([gobreaker.ErrOpenState]). *)
Definition ErrOpenState : error := errors_New "circuit breaker is open".

(** Modelled from the spec: a state transition resets the counter and
    records its time (section 3). *)
Definition setState (cb : CircuitBreaker) (s : State) (now : Z) : CircuitBreaker :=
  mkCircuitBreaker (settings cb) s (mkCounts 0) now.

(** Modelled from the spec: section 4.4, the part of the state machine
    that time drives.  An open breaker whose cool-down interval
    ([Timeout]) has elapsed becomes half-open for the request that
    arrives; a closed breaker with a positive [Interval] clears its
    counter once per interval (the library's documented meaning of
    that setting, which [manager.get] passes on; with the zero value the
    counter is never cleared by time). *)
Definition currentState (cb : CircuitBreaker) (now : Z) : CircuitBreaker :=
  match state cb with
  | StateClosed =>
      if (0 <? sInterval (settings cb)) && (sInterval (settings cb) <=? now - since cb)
      then setState cb StateClosed now else cb
  | StateOpen =>
      if sTimeout (settings cb) <=? now - since cb
      then setState cb StateHalfOpen now else cb
  | StateHalfOpen => cb
  end.

(** Modelled from the spec: section 4.4, what the outcome of an admitted
    call does.  Closed: a failure increments the counter and opens the
    breaker when the trip condition holds, a success resets the counter.
    Half-open: the trial's success closes the breaker and resets the
    counter, its failure reopens it and restarts the cool-down. *)
Definition afterRequest (cb : CircuitBreaker) (now : Z) (success : bool) : CircuitBreaker :=
  match state cb, success with
  | StateClosed, true =>
      mkCircuitBreaker (settings cb) StateClosed (mkCounts 0) (since cb)
  | StateClosed, false =>
      let c := mkCounts (ConsecutiveFailures (counts cb) + 1) in
      if sReadyToTrip (settings cb) c
      then setState cb StateOpen now
      else mkCircuitBreaker (settings cb) StateClosed c (since cb)
  | StateHalfOpen, true => setState cb StateClosed now
  | StateHalfOpen, false => setState cb StateOpen now
  | StateOpen, _ => cb
  end.

(** Modelled from the spec: section 4.4, [CircuitBreaker.Execute] at time
    [now].  An open breaker rejects the request with the breaker-open
    error and does not run [req]; otherwise [req] runs, its result is
    returned as it is, and it counts as a failure exactly when its error
    is not nil.  ([T] is the state [req] works on.) *)
Definition Execute {A T} (cb : CircuitBreaker) (now : Z)
    (req : T -> (A * option error) * T) (t : T)
    : (option A * option error) * CircuitBreaker * T :=
  let cb1 := currentState cb now in
  match state cb1 with
  | StateOpen => ((None, Some ErrOpenState), cb1, t)
  | _ =>
      let '((result, err), t1) := req t in
      let success := match err with None => true | Some _ => false end in
      ((Some result, err), afterRequest cb1 now success, t1)
  end.

(** *** The manager of this package *)

Record Config := mkConfig {
  Name : string;
  Interval : Duration;
  Timeout : Duration;
  ReadyToTrip : option (Counts -> bool)
}.

Record manager := mkManager {
  config : Config;
  breakers : gmap string CircuitBreaker
}.

Definition NewManager (cfg : Config) : manager := mkManager cfg ∅.

Definition defaultDuration (value fallback : Duration) : Duration :=
  if 0 <? value then value else fallback.

(** The settings [manager.get] gives the breaker of [host].  (The
    [OnStateChange] callback of the configuration only observes.) *)
Definition settingsFor (cfg : Config) (host : string) : Settings :=
  mkSettings host 1 (Interval cfg)
    (defaultDuration (Timeout cfg) (30 * Second))
    (match ReadyToTrip cfg with
     | Some f => f
     | None => fun c => ConsecutiveFailures c >=? 5
     end).

(** [manager.get]: the breaker of [host], created on first use. *)
Definition get (m : manager) (host : string) (now : Z) : CircuitBreaker * manager :=
  match breakers m !! host with
  | Some cb => (cb, m)
  | None =>
      let cb := NewCircuitBreaker (settingsFor (config m) host) now in
      (cb, mkManager (config m) (<[host := cb]> (breakers m)))
  end.

(** [manager.Do] at time [now]; the breaker is an object shared through
    the map, so its new state is written back under [host]. *)
Definition Do {T} (m : manager) (now : Z) (host : string)
    (fn : T -> (option http_Response * option error) * T) (t : T)
    : (option http_Response * option error) * manager * T :=
  if decide (host = ""%string) then
    let '(res, t1) := fn t in (res, m, t1)
  else
    let '(cb, m1) := get m host now in
    let '((result, err), cb', t1) := Execute cb now fn t in
    let m2 := mkManager (config m1) (<[host := cb']> (breakers m1)) in
    match err with
    | Some e => ((None, Some e), m2, t1)
    | None => ((mjoin result, None), m2, t1)
    end.

(** [WithOverride], [Enabled] *)
Definition WithOverride {P} (ctx : Context P) (enabled : bool) : Context P :=
  mkContext (policyValue ctx) (forceValue ctx) (Some enabled).

Definition Enabled {P} (ctx : Context P) (defaultEnabled : bool) : bool :=
  match overrideValue ctx with
  | Some v => v
  | None => defaultEnabled
  end.

(** [NewMiddleware m next], applied at time [now] to a request with
    context [ctx]. *)
Definition NewMiddleware {P T} (next : RoundTripper T) (m : manager) (now : Z)
    (ctx : Context P) (req : http_Request) (t : T)
    : (option http_Response * option error) * manager * T :=
  if negb (Enabled ctx true) then
    let '(res, t1) := next t req in (res, m, t1)
  else
    let host := match URL req with
                | Some u => Host u
                | None => ""%string
                end in
    Do m now host (fun t' => next t' req) t.

End Breaker.

(** ** Package [auth] *)

Module Auth.

(** interface [AuthProvider]: [Apply] changes the request in place or
    fails; here it returns the changed request or the error. *)
Record AuthProvider := mkAuthProvider {
  Apply : http_Request -> error + http_Request;
  Name : string
}.

Record APIKeyOptions := mkAPIKeyOptions {
  Key : string;
  In : string;
  OptName : string
}.

Record apiKeyProvider := mkApiKeyProvider {
  key : string;
  location : string;
  name : string
}.

Definition newAPIKey (opts : APIKeyOptions) : apiKeyProvider :=
  let location := Strings.ToLower (Strings.TrimSpace (In opts)) in
  let location := if decide (location = ""%string) then "header"%string else location in
  let name := OptName opts in
  let name := if decide (name = ""%string) then "X-API-Key"%string else name in
  mkApiKeyProvider (Key opts) location name.

Definition apiKey_Apply (p : apiKeyProvider) (req : http_Request) : error + http_Request :=
  if decide (key p = ""%string) then inl (errors_New "api key is empty")
  else if decide (location p = "query"%string) then
    match URL req with
    | None => inl (errors_New "request URL is nil")
    | Some u =>
        let query := Query u in
        let query := Values_Set query (name p) (key p) in
        let u' := mkURL (Scheme u) (Host u) (Path u) query in
        inr (mkRequest (Method req) (Some u') (ReqHeader req) (Body req)
                       (GetBody req) (ContentLength req))
    end
  else if decide (location p = "header"%string \/ location p = ""%string) then
    inr (mkRequest (Method req) (URL req) (Header_Set (ReqHeader req) (name p) (key p))
                   (Body req) (GetBody req) (ContentLength req))
  else inl (errors_New ("unsupported api key location: " ++ location p)).

Definition apiKey_Name (p : apiKeyProvider) : string :=
  if decide (location p = "query"%string)
  then ("api-key-query:" ++ name p)%string
  else ("api-key-header:" ++ name p)%string.

(** [NewAPIKey]: the provider as an [AuthProvider]. *)
Definition NewAPIKey (opts : APIKeyOptions) : AuthProvider :=
  let p := newAPIKey opts in
  mkAuthProvider (apiKey_Apply p) (apiKey_Name p).


(** *** Basic credentials *)

(** [base64.StdEncoding.EncodeToString] of [encoding/base64]: three bytes
    give four characters of the standard alphabet, a last group of one
    or two bytes is padded with [=]. *)
Definition encodeStd : string :=
  "ABCDEFGHIJKLMNOPQRSTUVWXYZabcdefghijklmnopqrstuvwxyz0123456789+/".

Definition base64_char (n : N) : ascii :=
  default "="%char (String.get (N.to_nat n) encodeStd).

Fixpoint base64_EncodeToString (src : string) : string :=
  match src with
  | EmptyString => EmptyString
  | String a EmptyString =>
      let n := (N_of_ascii a * 65536)%N in
      String (base64_char (n / 262144))
        (String (base64_char ((n / 4096) mod 64)) "==")
  | String a (String b EmptyString) =>
      let n := (N_of_ascii a * 65536 + N_of_ascii b * 256)%N in
      String (base64_char (n / 262144))
        (String (base64_char ((n / 4096) mod 64))
           (String (base64_char ((n / 64) mod 64)) "="))
  | String a (String b (String c rest)) =>
      let n := (N_of_ascii a * 65536 + N_of_ascii b * 256 + N_of_ascii c)%N in
      String (base64_char (n / 262144))
        (String (base64_char ((n / 4096) mod 64))
           (String (base64_char ((n / 64) mod 64))
              (String (base64_char (n mod 64)) (base64_EncodeToString rest))))
  end.

Record BasicOptions := mkBasicOptions {
  Username : string;
  Password : string
}.

Record basicProvider := mkBasicProvider {
  username : string;
  password : string
}.

Definition newBasic (opts : BasicOptions) : basicProvider :=
  mkBasicProvider (Username opts) (Password opts).

Definition basic_Apply (p : basicProvider) (req : http_Request) : error + http_Request :=
  if decide (username p = ""%string)
  then inl (errors_New "username is required for basic auth")
  else
    let token := base64_EncodeToString (username p ++ ":" ++ password p) in
    inr (mkRequest (Method req) (URL req)
           (Header_Set (ReqHeader req) "Authorization" ("Basic " ++ token))
           (Body req) (GetBody req) (ContentLength req)).

Definition basic_Name (p : basicProvider) : string := "basic".

(** [NewBasic]: the provider as an [AuthProvider]. *)
Definition NewBasic (opts : BasicOptions) : AuthProvider :=
  let p := newBasic opts in
  mkAuthProvider (basic_Apply p) (basic_Name p).

(** *** JWT bearer tokens *)

(** A claim value, of the two kinds this package stores in
    [jwt.MapClaims]: Unix seconds and strings. *)
Inductive ClaimValue := claimInt (n : Z) | claimString (s : string).

Definition MapClaims : Type := gmap string ClaimValue.

Inductive SigningMethod := SigningMethodHS256 | SigningMethodRS256.

(** [K] is the type of RSA private keys ([*rsa.PrivateKey], nil being
    [None]); a nil and an empty [HMACSecret] are both of length 0. *)
Record JWTOptions (K : Type) := mkJWTOptions {
  Alg : string;
  Issuer : string;
  Audience : string;
  Kid : string;
  TTL : Duration;
  HMACSecret : list Byte.byte;
  PrivateKey : option K
}.
Arguments mkJWTOptions {K} _ _ _ _ _ _ _.
Arguments Alg {K} _.
Arguments Issuer {K} _.
Arguments Audience {K} _.
Arguments Kid {K} _.
Arguments TTL {K} _.
Arguments HMACSecret {K} _.
Arguments PrivateKey {K} _.

(** Instants are nanoseconds since the Unix epoch.  A clock is read as a
    function of the wall time at the call; [time.Now] is the identity. *)
Record jwtProvider (K : Type) := mkJwtProvider {
  options : JWTOptions K;
  alg : string;
  ttl : Duration;
  signingMethod : option SigningMethod;
  claimsMutators : list (MapClaims -> MapClaims);
  clock : Z -> Z;
  keyID : string
}.
Arguments mkJwtProvider {K} _ _ _ _ _ _ _.
Arguments options {K} _.
Arguments alg {K} _.
Arguments ttl {K} _.
Arguments signingMethod {K} _.
Arguments claimsMutators {K} _.
Arguments clock {K} _.
Arguments keyID {K} _.

Definition JWTOption (K : Type) : Type := jwtProvider K -> jwtProvider K.

(** [WithClaims]; the callback changes the claims map in place, here it
    returns the changed map. *)
Definition WithClaims {K} (fn : MapClaims -> MapClaims) : JWTOption K := fun p =>
  mkJwtProvider (options p) (alg p) (ttl p) (signingMethod p)
    (claimsMutators p ++ [fn]) (clock p) (keyID p).

Definition WithClock {K} (clock_ : option (Z -> Z)) : JWTOption K := fun p =>
  match clock_ with
  | Some c =>
      mkJwtProvider (options p) (alg p) (ttl p) (signingMethod p)
        (claimsMutators p) c (keyID p)
  | None => p
  end.

(** The verb [%q] of [fmt] on a string of printable ASCII bytes other
    than the quote and the backslash: the string between quotes.  (The
    escapes the library writes for other bytes are not modelled.) *)
Definition quoted (s : string) : string :=
  String (ascii_of_nat 34) (s ++ String (ascii_of_nat 34) EmptyString).

Definition NewJWT {K} (opts : JWTOptions K) (more : list (JWTOption K))
    : error + jwtProvider K :=
  let alg := Strings.ToUpper (Strings.TrimSpace (Alg opts)) in
  let alg := if decide (alg = ""%string) then "RS256"%string else alg in
  let opts := if TTL opts <=? 0
              then mkJWTOptions (Alg opts) (Issuer opts) (Audience opts) (Kid opts)
                     (60 * Second) (HMACSecret opts) (PrivateKey opts)
              else opts in
  let p := mkJwtProvider opts alg (TTL opts) None [] (fun wall => wall) (Kid opts) in
  let p := foldl (fun p (opt : JWTOption K) => opt p) p more in
  if decide (alg = "HS256"%string) then
    if (length (HMACSecret opts) =? 0)%nat
    then inl (errors_New "hs256 requires hmac secret")
    else inr (mkJwtProvider (options p) (Auth.alg p) (ttl p) (Some SigningMethodHS256)
                (claimsMutators p) (clock p) (keyID p))
  else if decide (alg = "RS256"%string) then
    match PrivateKey opts with
    | None => inl (errors_New "rs256 requires private key")
    | Some _ =>
        inr (mkJwtProvider (options p) (Auth.alg p) (ttl p) (Some SigningMethodRS256)
               (claimsMutators p) (clock p) (keyID p))
    end
  else inl (errors_New ("unsupported jwt alg " ++ quoted alg)).

(** [time.Time.Unix]: whole seconds since the epoch. *)
Definition Unix (t : Z) : Z := Z.div t Second.

(** First part of [jwtProvider.Apply]: the claims of the token issued at
    wall time [wall].  [randomJTI] is what the call of that function
    returns, the empty string when the random source fails. *)
Definition jwt_claims {K} (p : jwtProvider K) (wall : Z) (randomJTI : string) : MapClaims :=
  let now := clock p wall in
  let exp := now + ttl p in
  let claims : MapClaims :=
    <["nbf"%string := claimInt (Unix now)]>
      (<["exp"%string := claimInt (Unix exp)]>
         (<["iat"%string := claimInt (Unix now)]> ∅)) in
  let claims := if decide (Issuer (options p) = ""%string) then claims
                else <["iss"%string := claimString (Issuer (options p))]> claims in
  let claims := if decide (Audience (options p) = ""%string) then claims
                else <["aud"%string := claimString (Audience (options p))]> claims in
  let claims := foldl (fun c (mutate : MapClaims -> MapClaims) => mutate c) claims
                  (claimsMutators p) in
  match claims !! "jti"%string with
  | Some _ => claims
  | None =>
      if decide (randomJTI = ""%string) then claims
      else <["jti"%string := claimString randomJTI]> claims
  end.

(** The key [Apply] hands to [SignedString]. *)
Inductive SigningKey (K : Type) :=
| hmacKey (secret : list Byte.byte)
| rsaKey (key : option K).
Arguments hmacKey {K} _.
Arguments rsaKey {K} _.

Section JWTApply.

Context {K : Type}.

(** [jwt.NewWithClaims(method, claims)] with the [kid] header field, if
    any, followed by [SignedString(key)], of the library
    [github.com/golang-jwt/jwt]. *)
Variable sign : option SigningMethod -> option string -> MapClaims -> SigningKey K
                -> error + string.

Definition jwt_Apply (p : jwtProvider K) (wall : Z) (randomJTI : string)
    (req : http_Request) : error + http_Request :=
  let claims := jwt_claims p wall randomJTI in
  let kid := if decide (keyID p = ""%string) then None else Some (keyID p) in
  let signed :=
    if decide (alg p = "HS256"%string)
    then inr (sign (signingMethod p) kid claims (hmacKey (HMACSecret (options p))))
    else if decide (alg p = "RS256"%string)
    then inr (sign (signingMethod p) kid claims (rsaKey (PrivateKey (options p))))
    else inl (errors_New ("unsupported jwt alg " ++ quoted (alg p))) in
  match signed with
  | inl e => inl e
  | inr (inl e) => inl (fmt_Errorf "sign jwt" e)
  | inr (inr signed) =>
      inr (mkRequest (Method req) (URL req)
             (Header_Set (ReqHeader req) "Authorization" ("Bearer " ++ signed))
             (Body req) (GetBody req) (ContentLength req))
  end.

End JWTApply.

Definition jwt_Name {K} (p : jwtProvider K) : string := ("jwt:" ++ alg p)%string.

End Auth.

(** ** Package [httpc] *)

(** Fallible steps return [error + A]; [x ← m; k] propagates the error. *)
#[global] Instance error_ret : MRet (sum error) := fun _ x => inr x.
#[global] Instance error_bind : MBind (sum error) := fun _ _ f m =>
  match m with
  | inl e => inl e
  | inr x => f x
  end.

Module Httpc.

(** *** [net/url] and [net/http] constructors used by the builder *)

(** [getScheme] of [net/url]: the scheme is the longest prefix of letters
    (and, after the first byte, digits, plus, minus, dot) that a colon
    ends; a colon in first place is an error. *)
Fixpoint getSchemeFrom (first : bool) (seen rest : string) (rawURL : string)
    : error + (string * string) :=
  match rest with
  | EmptyString => inr (EmptyString, rawURL)
  | String c rest' =>
      if Strings.isLower c || Strings.isUpper c
      then getSchemeFrom false (seen ++ String c EmptyString) rest' rawURL
      else if isDigit c || Strings.containsByte "+-." c
      then if first then inr (EmptyString, rawURL)
           else getSchemeFrom false (seen ++ String c EmptyString) rest' rawURL
      else if Ascii.eqb c ":"
      then if first then inl (errors_New "missing protocol scheme")
           else inr (seen, rest')
      else inr (EmptyString, rawURL)
  end.

Definition getScheme (rawURL : string) : error + (string * string) :=
  getSchemeFrom true EmptyString rawURL rawURL.

Definition validMethod (method : string) : bool :=
  negb (bool_decide (method = EmptyString)) && allBytes validHeaderFieldByte method.

(** *** Requests *)

(** A [retry.Policy] interface value: the package's own policy, or an
    implementation of the caller (a decision function). *)
Inductive PolicyValue (R : Type) :=
| builtinPolicy (p : Retry.policy R)
| customPolicy (f : http_Request -> option http_Response -> option error ->
                    Z -> bool -> Duration * bool).
Arguments builtinPolicy {R} _.
Arguments customPolicy {R} _.

#[global] Instance PolicyValue_Policy {R} `{Retry.RandSource R} : Retry.Policy (PolicyValue R) :=
  fun pv req resp err attempt force =>
    match pv with
    | builtinPolicy p =>
        let '(res, p') := Retry.policy_ShouldRetry p req resp err attempt force in
        (res, builtinPolicy p')
    | customPolicy f => (f req resp err attempt force, pv)
    end.

(** [bodyProvider], as the result each call of the factory gives: the
    stream, its length and its content type, or an error. *)
Record Request (R : Type) := mkReq {
  method : string;
  url : string;
  headers : gmap string (list string);
  queries : gmap string (list string);
  timeout : Duration;
  authProvider : option Auth.AuthProvider;
  retryPolicy : option (PolicyValue R);
  forceRetry : bool;
  breakerToggle : option bool;
  bodyFactory : option (error + (ReadCloser * Z * string));
  contentType : string;
  accept : string
}.
Arguments mkReq {R} _ _ _ _ _ _ _ _ _ _ _ _.
Arguments method {R} _.
Arguments url {R} _.
Arguments headers {R} _.
Arguments queries {R} _.
Arguments timeout {R} _.
Arguments authProvider {R} _.
Arguments retryPolicy {R} _.
Arguments forceRetry {R} _.
Arguments breakerToggle {R} _.
Arguments bodyFactory {R} _.
Arguments contentType {R} _.
Arguments accept {R} _.

Definition ReqOption (R : Type) : Type := Request R -> Request R.

Definition newRequest {R} (method target : string) (opts : list (ReqOption R)) : Request R :=
  let req := mkReq (Strings.ToUpper method) target ∅ ∅ 0 None None false None None
                   EmptyString EmptyString in
  foldl (fun r (opt : ReqOption R) => opt r) req opts.

(** [clone]: headers and queries are copied, the rest is shared; with
    values instead of references the copy is the request itself. *)
Definition clone {R} (r : Request R) : Request R := r.

Section Builder.

(** What [url.Parse] does after the scheme is split off (authority,
    path, query and fragment, with the errors they can raise), from the
    scheme and the rest to host, path and query; and [URL.String]. *)
Variable parseRest : string -> string -> error + (string * string * gmap string (list string)).
Variable url_String : url_URL -> string.

Definition url_Parse (rawURL : string) : error + url_URL :=
  '(scheme, rest) ← getScheme rawURL;
  '(host, path, query) ← parseRest scheme rest;
  inr (mkURL (Strings.ToLower scheme) host path query).

(** [http.NewRequestWithContext]: an empty method means GET; the method
    must be a token and the URL must parse.  The new request has no
    headers; for the bodies the builder passes (an [io.NopCloser]) the
    library sets neither [ContentLength] nor [GetBody]. *)
Definition http_NewRequestWithContext (method target : string) (body : option ReadCloser)
    : error + http_Request :=
  let method := if decide (method = EmptyString) then "GET"%string else method in
  if negb (validMethod method)
  then inl (errors_New ("net/http: invalid method " ++ Auth.quoted method))
  else
    u ← url_Parse target;
    inr (mkRequest method (Some u) ∅ body None 0).

Definition isAbsoluteURL (raw : string) : bool :=
  match url_Parse raw with
  | inr u => negb (bool_decide (Scheme u = EmptyString))
  | inl _ => false
  end.

(** First step of [buildHTTPRequest]: the target, joined to the base URL
    when there is one and the target is not absolute. *)
Definition resolveTarget {R} (r : Request R) (baseURL : string) : string :=
  let target := url r in
  if negb (bool_decide (baseURL = EmptyString)) && negb (isAbsoluteURL target) then
    let target := Strings.TrimRight baseURL "/" in
    let target := if negb (Strings.HasPrefix (url r) "/")
                  then (target ++ "/")%string else target in
    (target ++ Strings.TrimLeft (url r) "/")%string
  else target.

(** The two nested loops [q.Add(k, v)] over the request's queries. *)
Definition addQueries (q queries : gmap string (list string)) : gmap string (list string) :=
  map_fold (fun k vv q => foldl (fun q v => Values_Add q k v) q vv) q queries.

(** Second step: the request's query parameters are added to the ones
    the target carries. *)
Definition mergeQuery {R} (r : Request R) (target : string) : error + string :=
  if (0 <? size (queries r))%nat then
    u ← url_Parse target;
    let q := addQueries (Query u) (queries r) in
    inr (url_String (mkURL (Scheme u) (Host u) (Path u) q))
  else inr target.

(** The loop [httpReq.Header.Add(k, v)] over the request's headers. *)
Definition copyHeaders (h headers : gmap string (list string)) : gmap string (list string) :=
  map_fold (fun k vv h => foldl (fun h v => Header_Add h k v) h vv) h headers.

Definition buildHTTPRequest {R} (r : Request R) (baseURL userAgent : string)
    : error + http_Request :=
  let target := resolveTarget r baseURL in
  target ← mergeQuery r target;
  '(body, contentLength, contentType) ←
    match bodyFactory r with
    | Some res =>
        '(rc, cl, ctype) ← res;
        inr (Some rc, cl,
             if negb (bool_decide (ctype = EmptyString)) then ctype else contentType r)
    | None => inr (None, 0, contentType r)
    end;
  httpReq ← http_NewRequestWithContext (method r) target body;
  let getBody :=
    match bodyFactory r with
    | Some res => Some ('(rc, _, _) ← res; inr rc)
    | None => GetBody httpReq
    end in
  let h := copyHeaders (ReqHeader httpReq) (headers r) in
  let h := if negb (bool_decide (userAgent = EmptyString)) &&
              bool_decide (Header_Get h "User-Agent" = EmptyString)
           then Header_Set h "User-Agent" userAgent else h in
  let h := if negb (bool_decide (contentType = EmptyString)) &&
              bool_decide (Header_Get h "Content-Type" = EmptyString)
           then Header_Set h "Content-Type" contentType else h in
  let h := if negb (bool_decide (accept r = EmptyString)) &&
              bool_decide (Header_Get h "Accept" = EmptyString)
           then Header_Set h "Accept" (accept r) else h in
  let cl := if 0 <=? contentLength then contentLength else ContentLength httpReq in
  inr (mkRequest (Method httpReq) (URL httpReq) h (Body httpReq) getBody cl).

End Builder.

(** *** Request options *)

Definition WithHeader {R} (key value : string) : ReqOption R := fun r =>
  mkReq (method r) (url r) (Header_Set (headers r) key value) (queries r) (timeout r)
        (authProvider r) (retryPolicy r) (forceRetry r) (breakerToggle r)
        (bodyFactory r) (contentType r) (accept r).

Definition WithAccept {R} (value : string) : ReqOption R := fun r =>
  mkReq (method r) (url r) (headers r) (queries r) (timeout r)
        (authProvider r) (retryPolicy r) (forceRetry r) (breakerToggle r)
        (bodyFactory r) (contentType r) value.

Definition WithContentType {R} (value : string) : ReqOption R := fun r =>
  mkReq (method r) (url r) (headers r) (queries r) (timeout r)
        (authProvider r) (retryPolicy r) (forceRetry r) (breakerToggle r)
        (bodyFactory r) value (accept r).

Definition WithQuery {R} (key value : string) : ReqOption R := fun r =>
  mkReq (method r) (url r) (headers r) (Values_Add (queries r) key value) (timeout r)
        (authProvider r) (retryPolicy r) (forceRetry r) (breakerToggle r)
        (bodyFactory r) (contentType r) (accept r).

Definition WithRequestRetry {R} (policy : PolicyValue R) : ReqOption R := fun r =>
  mkReq (method r) (url r) (headers r) (queries r) (timeout r)
        (authProvider r) (Some policy) (forceRetry r) (breakerToggle r)
        (bodyFactory r) (contentType r) (accept r).

Definition WithRequestRetryForce {R} : ReqOption R := fun r =>
  mkReq (method r) (url r) (headers r) (queries r) (timeout r)
        (authProvider r) (retryPolicy r) true (breakerToggle r)
        (bodyFactory r) (contentType r) (accept r).

Definition WithRequestBreaker {R} (enabled : bool) : ReqOption R := fun r =>
  mkReq (method r) (url r) (headers r) (queries r) (timeout r)
        (authProvider r) (retryPolicy r) (forceRetry r) (Some enabled)
        (bodyFactory r) (contentType r) (accept r).

Definition WithRaw {R} (body : list Byte.byte) (contentType_ : string) : ReqOption R := fun r =>
  mkReq (method r) (url r) (headers r) (queries r) (timeout r)
        (authProvider r) (retryPolicy r) (forceRetry r) (breakerToggle r)
        (Some (inr (newBody body, Z.of_nat (length body), contentType_)))
        (contentType r) (accept r).

Definition choose (current fallback : string) : string :=
  if negb (bool_decide (current = EmptyString)) then current else fallback.

(** [WithJSON v]; [marshalled] is what [json.Marshal(v)] returns. *)
Definition WithJSON {R} (marshalled : error + list Byte.byte) : ReqOption R := fun r =>
  mkReq (method r) (url r) (headers r) (queries r) (timeout r)
        (authProvider r) (retryPolicy r) (forceRetry r) (breakerToggle r)
        (Some (b ← marshalled;
               inr (newBody b, Z.of_nat (length b), "application/json"%string)))
        (contentType r) (choose (accept r) "application/json").

(** [WithHeaders]; [entries] lists the map in the order in which the
    [range] statement visits it. *)
Definition WithHeaders {R} (entries : list (string * string)) : ReqOption R := fun r =>
  mkReq (method r) (url r)
        (foldl (fun h '(k, v) => Header_Set h k v) (headers r) entries)
        (queries r) (timeout r)
        (authProvider r) (retryPolicy r) (forceRetry r) (breakerToggle r)
        (bodyFactory r) (contentType r) (accept r).

Definition WithIdempotencyKey {R} (key : string) : ReqOption R := fun r =>
  if negb (bool_decide (key = EmptyString))
  then mkReq (method r) (url r) (Header_Set (headers r) "Idempotency-Key" key)
         (queries r) (timeout r)
         (authProvider r) (retryPolicy r) (forceRetry r) (breakerToggle r)
         (bodyFactory r) (contentType r) (accept r)
  else r.

(** [WithQueryMap]: one [Add] for each entry of the map. *)
Definition WithQueryMap {R} (values : gmap string string) : ReqOption R := fun r =>
  mkReq (method r) (url r) (headers r)
        (map_fold (fun k v q => Values_Add q k v) (queries r) values)
        (timeout r)
        (authProvider r) (retryPolicy r) (forceRetry r) (breakerToggle r)
        (bodyFactory r) (contentType r) (accept r).

Definition WithRequestTimeout {R} (d : Duration) : ReqOption R := fun r =>
  mkReq (method r) (url r) (headers r) (queries r) d
        (authProvider r) (retryPolicy r) (forceRetry r) (breakerToggle r)
        (bodyFactory r) (contentType r) (accept r).

(** [WithRequestAuth]; a nil provider is [None]. *)
Definition WithRequestAuth {R} (provider : option Auth.AuthProvider) : ReqOption R := fun r =>
  mkReq (method r) (url r) (headers r) (queries r) (timeout r)
        provider (retryPolicy r) (forceRetry r) (breakerToggle r)
        (bodyFactory r) (contentType r) (accept r).

(** [WithForm values]; [encoded] is what [values.Encode()] returns. *)
Definition WithForm {R} (encoded : string) : ReqOption R := fun r =>
  mkReq (method r) (url r) (headers r) (queries r) (timeout r)
        (authProvider r) (retryPolicy r) (forceRetry r) (breakerToggle r)
        (Some (inr (newBody (list_byte_of_string encoded),
                    Z.of_nat (String.length encoded),
                    "application/x-www-form-urlencoded"%string)))
        (contentType r) (accept r).

(** *** The body argument of [Post], [Put] and [Patch] *)

(** An [io.ReadSeeker]: whether [Seek] to the start fails, and what
    [io.ReadAll] gives from the start. *)
Record ReadSeeker := mkReadSeeker {
  seekErr : option error;
  content : error + list Byte.byte
}.

(** The [body any] argument, by the case of the type switch of
    [normalizeBody] that its dynamic type selects; [bodyValue] is any
    other value, given by what [json.Marshal] returns for it. *)
Inductive BodyArg (R : Type) :=
| bodyNil
| bodyReqOption (v : ReqOption R)
| bodyBytes (v : list Byte.byte)
| bodyString (v : string)
| bodyReadSeeker (v : ReadSeeker)
| bodyReader (v : ReadCloser)
| bodyValue (marshalled : error + list Byte.byte).
Arguments bodyNil {R}.
Arguments bodyReqOption {R} _.
Arguments bodyBytes {R} _.
Arguments bodyString {R} _.
Arguments bodyReadSeeker {R} _.
Arguments bodyReader {R} _.
Arguments bodyValue {R} _.

Definition withBodyFactory {R} (factory : error + (ReadCloser * Z * string))
    : ReqOption R := fun r =>
  mkReq (method r) (url r) (headers r) (queries r) (timeout r)
        (authProvider r) (retryPolicy r) (forceRetry r) (breakerToggle r)
        (Some factory) (contentType r) (accept r).

Definition withReadSeeker {R} (rs : ReadSeeker) : ReqOption R :=
  withBodyFactory
    match seekErr rs with
    | Some err => inl err
    | None =>
        match content rs with
        | inl err => inl err
        | inr data =>
            inr (newBody data, Z.of_nat (length data), "application/octet-stream"%string)
        end
    end.

(** [normalizeBody].  (A reader is drained by the call; the reader it
    leaves behind is not part of the result.) *)
Definition normalizeBody {R} (body : BodyArg R) : list (ReqOption R) :=
  match body with
  | bodyNil => []
  | bodyReqOption v => [v]
  | bodyBytes v => [WithRaw v "application/octet-stream"]
  | bodyString v => [WithRaw (list_byte_of_string v) "text/plain; charset=utf-8"]
  | bodyReadSeeker v => [withReadSeeker v]
  | bodyReader v =>
      match fst (io_ReadAll v) with
      | inl err => [withBodyFactory (inl err)]
      | inr data => [WithRaw data "application/octet-stream"]
      end
  | bodyValue marshalled => [WithJSON marshalled]
  end.

(** *** Client configuration (the fields the pipeline below reads) *)

Record Config (R : Type) := mkConfig {
  Env : string;
  BaseURL : string;
  Timeout : Duration;
  RetryEnabled : bool;
  RetryMaxAttempts : Z;
  RetryBaseBackoff : Duration;
  RetryMaxBackoff : Duration;
  RetryOnStatuses : list Z;
  BreakerEnabled : bool;
  DefaultAuth : option Auth.AuthProvider;
  RetryPolicy : option (PolicyValue R);
  Breaker : option Breaker.manager;
  UserAgent : string
}.
Arguments mkConfig {R} _ _ _ _ _ _ _ _ _ _ _ _ _.
Arguments Env {R} _.
Arguments BaseURL {R} _.
Arguments Timeout {R} _.
Arguments RetryEnabled {R} _.
Arguments RetryMaxAttempts {R} _.
Arguments RetryBaseBackoff {R} _.
Arguments RetryMaxBackoff {R} _.
Arguments RetryOnStatuses {R} _.
Arguments BreakerEnabled {R} _.
Arguments DefaultAuth {R} _.
Arguments RetryPolicy {R} _.
Arguments Breaker {R} _.
Arguments UserAgent {R} _.

(** [Config{}] *)
Definition zeroConfig {R} : Config R :=
  mkConfig EmptyString EmptyString 0 false 0 0 0 [] false None None None EmptyString.

Definition applyDefaults {R} (c : Config R) : Config R :=
  mkConfig (Env c) (BaseURL c)
    (if Timeout c =? 0 then 10 * Second else Timeout c)
    (RetryEnabled c)
    (if RetryMaxAttempts c =? 0 then 3 else RetryMaxAttempts c)
    (if RetryBaseBackoff c =? 0 then 200 * Millisecond else RetryBaseBackoff c)
    (if RetryMaxBackoff c =? 0 then 2 * Second else RetryMaxBackoff c)
    (if (length (RetryOnStatuses c) =? 0)%nat then [502; 503; 504] else RetryOnStatuses c)
    (BreakerEnabled c) (DefaultAuth c) (RetryPolicy c) (Breaker c) (UserAgent c).

Definition Option (R : Type) : Type := Config R -> Config R.

Definition WithBaseURL {R} (u : string) : Option R := fun c =>
  mkConfig (Env c) u (Timeout c) (RetryEnabled c) (RetryMaxAttempts c)
    (RetryBaseBackoff c) (RetryMaxBackoff c) (RetryOnStatuses c) (BreakerEnabled c)
    (DefaultAuth c) (RetryPolicy c) (Breaker c) (UserAgent c).

Definition WithRetry {R} (enabled : bool) (maxAttempts : Z) : Option R := fun c =>
  mkConfig (Env c) (BaseURL c) (Timeout c) enabled
    (if 0 <? maxAttempts then maxAttempts else RetryMaxAttempts c)
    (RetryBaseBackoff c) (RetryMaxBackoff c) (RetryOnStatuses c) (BreakerEnabled c)
    (DefaultAuth c) (RetryPolicy c) (Breaker c) (UserAgent c).

Definition WithBreaker {R} (enabled : bool) : Option R := fun c =>
  mkConfig (Env c) (BaseURL c) (Timeout c) (RetryEnabled c) (RetryMaxAttempts c)
    (RetryBaseBackoff c) (RetryMaxBackoff c) (RetryOnStatuses c) enabled
    (DefaultAuth c) (RetryPolicy c) (Breaker c) (UserAgent c).

Definition WithRetryPolicy {R} (p : PolicyValue R) : Option R := fun c =>
  mkConfig (Env c) (BaseURL c) (Timeout c) (RetryEnabled c) (RetryMaxAttempts c)
    (RetryBaseBackoff c) (RetryMaxBackoff c) (RetryOnStatuses c) (BreakerEnabled c)
    (DefaultAuth c) (Some p) (Breaker c) (UserAgent c).

Definition WithAuth {R} (p : Auth.AuthProvider) : Option R := fun c =>
  mkConfig (Env c) (BaseURL c) (Timeout c) (RetryEnabled c) (RetryMaxAttempts c)
    (RetryBaseBackoff c) (RetryMaxBackoff c) (RetryOnStatuses c) (BreakerEnabled c)
    (Some p) (RetryPolicy c) (Breaker c) (UserAgent c).

Definition WithConfig {R} (cfg : Config R) : Option R := fun _ => cfg.

Definition WithTimeout {R} (d : Duration) : Option R := fun c =>
  mkConfig (Env c) (BaseURL c) d (RetryEnabled c) (RetryMaxAttempts c)
    (RetryBaseBackoff c) (RetryMaxBackoff c) (RetryOnStatuses c) (BreakerEnabled c)
    (DefaultAuth c) (RetryPolicy c) (Breaker c) (UserAgent c).

Definition WithBreakerManager {R} (m : option Breaker.manager) : Option R := fun c =>
  mkConfig (Env c) (BaseURL c) (Timeout c) (RetryEnabled c) (RetryMaxAttempts c)
    (RetryBaseBackoff c) (RetryMaxBackoff c) (RetryOnStatuses c) (BreakerEnabled c)
    (DefaultAuth c) (RetryPolicy c) m (UserAgent c).

Definition WithUserAgent {R} (ua : string) : Option R := fun c =>
  mkConfig (Env c) (BaseURL c) (Timeout c) (RetryEnabled c) (RetryMaxAttempts c)
    (RetryBaseBackoff c) (RetryMaxBackoff c) (RetryOnStatuses c) (BreakerEnabled c)
    (DefaultAuth c) (RetryPolicy c) (Breaker c) ua.

(** *** Middleware chain *)

(** [Middleware] over transports of type [RT]. *)
Definition Middleware (RT : Type) : Type := RT -> RT.

(** [wrapTransport]; [http_DefaultTransport] stands in for a nil base.
    The loop runs from the last middleware to the first and skips nil
    entries. *)
Definition wrapTransport {RT} (http_DefaultTransport : RT) (base : option RT)
    (middlewares : list (option (Middleware RT))) : RT :=
  let base := default http_DefaultTransport base in
  foldl (fun rt (mw : option (Middleware RT)) =>
           match mw with
           | Some f => f rt
           | None => rt
           end) base (reverse middlewares).

Definition defaultUserAgent : string := "httpc/0".

(** *** The client *)

Record client (R : Type) := mkClient {
  cfg : Config R;
  clientRetryPolicy : option (PolicyValue R);
  breakerMgr : option Breaker.manager
}.
Arguments mkClient {R} _ _ _.
Arguments cfg {R} _.
Arguments clientRetryPolicy {R} _.
Arguments breakerMgr {R} _.

(** [New]; [rnd] seeds the generator of a policy built here.  Not
    modelled: the choice of a default auth provider from configured
    credentials, the logger, the connection pool and caller-supplied
    middlewares.  The two errors of [New] (a feature enabled without its
    collaborator) cannot arise, the collaborator being created just
    before. *)
Definition New {R} (opts : list (Option R)) (rnd : R) : client R :=
  let cfg := applyDefaults zeroConfig in
  let cfg := foldl (fun c (opt : Option R) => opt c) cfg opts in
  let cfg := applyDefaults cfg in
  let cfg := if decide (UserAgent cfg = EmptyString)
             then mkConfig (Env cfg) (BaseURL cfg) (Timeout cfg) (RetryEnabled cfg)
                    (RetryMaxAttempts cfg) (RetryBaseBackoff cfg) (RetryMaxBackoff cfg)
                    (RetryOnStatuses cfg) (BreakerEnabled cfg) (DefaultAuth cfg)
                    (RetryPolicy cfg) (Breaker cfg) defaultUserAgent
             else cfg in
  let retryPolicy :=
    match RetryPolicy cfg with
    | Some p => Some p
    | None =>
        if RetryEnabled cfg
        then Some (builtinPolicy (Retry.NewPolicy
               (Retry.mkPolicyConfig (RetryMaxAttempts cfg) (RetryBaseBackoff cfg)
                  (RetryMaxBackoff cfg) (RetryOnStatuses cfg) (Env cfg) true) rnd))
        else None
    end in
  let breakerMgr :=
    match Breaker cfg with
    | Some m => Some m
    | None =>
        if BreakerEnabled cfg
        then Some (Breaker.NewManager (Breaker.mkConfig EmptyString 0 0 None))
        else None
    end in
  mkClient cfg retryPolicy breakerMgr.

(** The transport [New] hands to the HTTP client, seen from the retry
    layer: the retry middleware, when retries are enabled, around
    [below], the chain underneath it (breaker, decompression, base
    transport). *)
Definition transport {R} `{Retry.RandSource R} {T} (c : client R) (below : RoundTripper T)
    (done : Z -> option error) (fuel : nat) (ctx : Context (PolicyValue R))
    (req : http_Request) (t : T)
    : option ((option http_Response * option error) * option (PolicyValue R) * T) :=
  if RetryEnabled (cfg c)
  then Retry.NewMiddleware (clientRetryPolicy c) below done fuel ctx req t
  else let '(res, t1) := below t req in Some (res, None, t1).

(** *** Responses *)

Record Response := mkResp {
  raw : option http_Response;
  body : list Byte.byte;
  loaded : bool;
  err : option error
}.

Definition newResponse (resp : option http_Response) : Response :=
  mkResp resp [] false None.

(** [ensureBody]: returns the error (nil or not) and the response as the
    call leaves it.  The deferred [Close] runs on both ways out of the
    read. *)
Definition ensureBody (r : Response) : option error * Response :=
  if loaded r || bool_decide (err r <> None) then (err r, r)
  else
    match raw r with
    | Some rw =>
        match RespBody rw with
        | Some b =>
            let '(res, b1) := io_ReadAll b in
            let raw' := Some (mkResponse (StatusCode rw) (RespHeader rw) (Some (Close b1))) in
            match res with
            | inl e => (Some e, mkResp raw' (body r) (loaded r) (Some e))
            | inr data => (None, mkResp raw' data true (err r))
            end
        | None => (None, mkResp (raw r) (body r) true (err r))
        end
    | None => (None, mkResp (raw r) (body r) true (err r))
    end.

Definition StatusCode_ (r : Response) : Z :=
  match raw r with
  | None => 0
  | Some rw => StatusCode rw
  end.

Definition Bytes (r : Response) : (error + list Byte.byte) * Response :=
  let '(e, r') := ensureBody r in
  match e with
  | Some e => (inl e, r')
  | None => (inr (body r'), r')
  end.

Definition String_ (r : Response) : (error + string) * Response :=
  let '(b, r') := Bytes r in
  match b with
  | inl e => (inl e, r')
  | inr b => (inr (string_of_list_byte b), r')
  end.

Definition io_EOF : error := errors_New "EOF".

(** [DecodeJSON]; [unmarshal] stands for [json.Unmarshal] into the
    destination, returning the decoded value. *)
Definition DecodeJSON {V} (unmarshal : list Byte.byte -> error + V) (r : Response)
    : (error + V) * Response :=
  let '(e, r') := ensureBody r in
  match e with
  | Some e => (inl e, r')
  | None =>
      if (length (body r') =? 0)%nat then (inl io_EOF, r')
      else (unmarshal (body r'), r')
  end.

(** [Header]: the first value of a response header, the empty string
    when there is no underlying response. *)
Definition Header_ (r : Response) (key : string) : string :=
  match raw r with
  | None => EmptyString
  | Some rw => Header_Get (RespHeader rw) key
  end.

(** [IntoWriter]; [write] is the writer's [Write] on its state [W]. *)
Definition IntoWriter {W} (write : W -> list Byte.byte -> option error * W) (w : W)
    (r : Response) : option error * Response * W :=
  let '(e, r') := ensureBody r in
  match e with
  | Some e => (Some e, r', w)
  | None =>
      if (length (body r') =? 0)%nat then (None, r', w)
      else let '(err, w') := write w (body r') in (err, r', w')
  end.

(** [n] calls of [Bytes] one after the other: their results, and the
    response as the last one leaves it. *)
Fixpoint BytesTimes (n : nat) (r : Response) : list (error + list Byte.byte) * Response :=
  match n with
  | O => ([], r)
  | S n' =>
      let '(res, r1) := Bytes r in
      let '(rest, r2) := BytesTimes n' r1 in
      (res :: rest, r2)
  end.

(** *** Executing a request *)

(** [url.Error], in which [http.Client.Do] wraps a transport error; its
    [Timeout] and [Temporary] ask the wrapped error. *)
Definition url_Error (e : error) : error :=
  match e with
  | context_DeadlineExceeded => net_Wrapped true true e
  | net_Error t tmp _ | net_Wrapped t tmp _ => net_Wrapped t tmp e
  | _ => net_Wrapped false false e
  end.

Section Execution.

Variable parseRest : string -> string -> error + (string * string * gmap string (list string)).
Variable url_String : url_URL -> string.

(** [client.Do].  The caller's context carries none of the pipeline's
    values; what becomes of it in time (the per-request timeout
    included) is [done], as in the retry middleware.  Of the library's
    [http.Client.Do] the call of the transport, the error for a
    transport that returns neither a response nor an error (without the
    name of the transport's type, which the library prints in it) and
    the wrapping of errors are modelled.  Its following of redirects is
    not: the result is that of the code for a response that the library
    does not redirect, which is every response whose status is not 301,
    302, 303, 307 or 308.  The result comes with the state in which the
    policy used and the transport are left. *)
Definition Do {R} `{Retry.RandSource R} {T} (c : client R) (below : RoundTripper T)
    (done : Z -> option error) (fuel : nat) (req : Request R) (t : T)
    : option ((error + Response) * option (PolicyValue R) * T) :=
  let r := clone req in
  match buildHTTPRequest parseRest url_String r (BaseURL (cfg c)) (UserAgent (cfg c)) with
  | inl e => Some (inl e, None, t)
  | inr httpReq =>
      let authProvider := match authProvider r with
                          | Some a => Some a
                          | None => DefaultAuth (cfg c)
                          end in
      match match authProvider with
            | Some a => Auth.Apply a httpReq
            | None => inr httpReq
            end with
      | inl e => Some (inl (fmt_Errorf "apply auth" e), None, t)
      | inr httpReq =>
          let policy := match retryPolicy r with
                        | Some p => Some p
                        | None => clientRetryPolicy c
                        end in
          let ctx := mkContext None false None in
          let ctx := match policy with
                     | Some p =>
                         let ctx := Retry.WithPolicy ctx p in
                         if forceRetry r then Retry.WithForce ctx else ctx
                     | None => ctx
                     end in
          let ctx := match breakerToggle r with
                     | Some b => Breaker.WithOverride ctx b
                     | None => ctx
                     end in
          match transport c below done fuel ctx httpReq t with
          | None => None
          | Some ((resp, err), pol, t') =>
              match err, resp with
              | Some e, _ => Some (inl (url_Error e), pol, t')
              | None, None =>
                  Some (inl (url_Error (errors_New
                    "http: RoundTripper implementation returned a nil *Response with a nil error")),
                        pol, t')
              | None, Some resp => Some (inr (newResponse (Some resp)), pol, t')
              end
          end
      end
  end.

(** [client.execute] with the body already turned into its option by
    [normalizeBody]; [Post] and [Get] call it. *)
Definition execute {R} `{Retry.RandSource R} {T} (c : client R) (below : RoundTripper T)
    (done : Z -> option error) (fuel : nat) (method target : string)
    (bodyOpts opts : list (ReqOption R)) (t : T)
    : option ((error + Response) * option (PolicyValue R) * T) :=
  Do c below done fuel (newRequest method target (bodyOpts ++ opts)) t.

End Execution.

End Httpc.

(** ** The retry rule of the specification *)

Module RetrySpec.

(** The fixed set of idempotent methods. *)
Definition idempotentMethods : list string :=
  ["GET"; "HEAD"; "OPTIONS"; "PUT"; "DELETE"]%string.

(** A transport error that must never be retried. *)
Definition cancellation (e : error) : Prop :=
  errors_Is e context_Canceled = true \/ errors_Is e context_DeadlineExceeded = true.

(** Section 4.3, rules 1 to 4, with the method compared in upper case:
    the attempt is retried exactly when the budget is not used up, the
    method passes the idempotency gate, and the outcome is a transport
    error that is no cancellation and is classified as timeout-like or
    transient, or else a response whose status is in the retryable set. *)
Definition retries {R} (p : Retry.policy R) (method : string)
    (resp : option http_Response) (err : option error) (attempt : Z) (force : bool) : Prop :=
  attempt < Retry.maxAttempts p /\
  (Retry.idempotentOnly p = true -> force = false ->
   Strings.ToUpper method ∈ idempotentMethods) /\
  match err, resp with
  | Some e, _ => ~ cancellation e /\ Retry.isNetErrorRetryable e = true
  | None, Some r => StatusCode r ∈ Retry.statusCodes p
  | None, None => False
  end.

(** The same gate with the method compared as it is, the way rule 2 is
    worded. *)
Definition gateAsWorded {R} (p : Retry.policy R) (method : string) (force : bool) : Prop :=
  Retry.idempotentOnly p = true -> force = false -> method ∈ idempotentMethods.

(** Two policy states that differ at most in the generator and the
    backoff bounds. *)
Definition sameSettings {R} (p q : Retry.policy R) : Prop :=
  Retry.maxAttempts p = Retry.maxAttempts q /\
  Retry.statusCodes p = Retry.statusCodes q /\
  Retry.idempotentOnly p = Retry.idempotentOnly q.

(** A transport that also counts the requests it is handed. *)
Definition counted {T} (next : RoundTripper T) : RoundTripper (T * nat) :=
  fun '(t, n) req => let '(res, t') := next t req in (res, (t', S n)).

End RetrySpec.

(** ** Breaker states of a manager *)

Module BreakerSpec.

(** Every breaker of the manager carries the settings [get] gave it. *)
Definition wellFormed (m : Breaker.manager) : Prop :=
  forall host cb, Breaker.breakers m !! host = Some cb ->
                  Breaker.settings cb = Breaker.settingsFor (Breaker.config m) host.


(** The breaker of [host] is open since time [t0]. *)
Definition openSince (m : Breaker.manager) (host : string) (t0 : Z) : Prop :=
  exists cb, Breaker.breakers m !! host = Some cb /\
             Breaker.state cb = Breaker.StateOpen /\ Breaker.since cb = t0.


(** Calls to [host] made one after the other, each at its time. *)
Definition DoAll {T} (m : Breaker.manager) (host : string)
    (calls : list (Z * (T -> (option http_Response * option error) * T))) (t : T)
    : Breaker.manager * T :=
  foldl (fun '(m, t) '(now, fn) =>
           let '(_, m', t') := Breaker.Do m now host fn t in (m', t'))
        (m, t) calls.

End BreakerSpec.

(** ** Redirects *)

Module ClientSpec.

(** The status codes for which [http.Client] follows a redirect. *)
Definition redirectStatuses : list Z := [301; 302; 303; 307; 308].

(** A transport none of whose responses has such a status. *)
Definition neverRedirects {T} (below : RoundTripper T) : Prop :=
  forall t req resp, fst (fst (below t req)) = Some resp ->
                     StatusCode resp ∉ redirectStatuses.

End ClientSpec.

(** ** Request headers *)

Module RequestSpec.

(** Every key of the header map is in canonical form, as the keys that
    [Header.Set] and [Header.Add] store are. *)
Definition canonicalKeys (h : gmap string (list string)) : Prop :=
  forall k vv, h !! k = Some vv -> CanonicalMIMEHeaderKey k = k.

(** The header [name] gets the value [v] unless [v] is empty or the
    header already has a non-empty first value. *)
Definition fillHeader (h : gmap string (list string)) (name v : string)
    : gmap string (list string) :=
  if negb (bool_decide (v = EmptyString)) && bool_decide (Header_Get h name = EmptyString)
  then Header_Set h name v else h.

(** The content type the builder works with: the one the body factory
    reports, when it is not empty, else the one of the request. *)
Definition effectiveContentType {R} (r : Httpc.Request R) : string :=
  match Httpc.bodyFactory r with
  | Some (inr (_, _, ctype)) =>
      if negb (bool_decide (ctype = EmptyString)) then ctype else Httpc.contentType r
  | _ => Httpc.contentType r
  end.

End RequestSpec.

(** ** Options of the JWT provider *)

Module AuthSpec.

(** An option built by [WithClaims] or [WithClock], the two constructors
    of [JWTOption] the package offers. *)
Definition packageOption {K} (opt : Auth.JWTOption K) : Prop :=
  (exists fn, opt = Auth.WithClaims fn) \/ (exists c, opt = Auth.WithClock c).

(** The algorithm [NewJWT] settles on: upper case, without surrounding
    white space, RS256 when none is given. *)
Definition algorithm {K} (opts : Auth.JWTOptions K) : string :=
  let alg := Strings.ToUpper (Strings.TrimSpace (Auth.Alg opts)) in
  if decide (alg = EmptyString) then "RS256"%string else alg.

End AuthSpec.

(** ** Writers *)

Module ResponseSpec.

(** A writer that appends to a buffer and never fails, as
    [strings.Builder] and [bytes.Buffer] are. *)
Definition bufferWrite (w data : list Byte.byte) : option error * list Byte.byte :=
  (None, w ++ data).

End ResponseSpec.

(** ** Collaborators for examples *)

Module Examples.

(** A generator that cycles through 0.0, 0.1, ..., 0.9. *)
#[global, refine] Instance cycleRand : Retry.RandSource nat :=
  {| Retry.Float64 n := (Z.of_nat (n mod 10) # 10, S n) |}.
Proof.
  intros n. cbn [fst].
  assert (Hm : (n mod 10 < 10)%nat) by (apply Nat.mod_upper_bound; lia).
  unfold Qle, Qlt. cbn. lia.
Defined.

(** A server that answers every request with [resp] and counts them. *)
Definition always (resp : http_Response) : RoundTripper nat :=
  fun n _ => ((Some resp, None), S n).

(** A transport on which every request fails with [e]. *)
Definition failing (e : error) : RoundTripper nat :=
  fun n _ => ((None, Some e), S n).

(** A context that is never done. *)
Definition background : Z -> option error := fun _ => None.

(** A context that is cancelled from the start. *)
Definition cancelled : Z -> option error := fun _ => Some context_Canceled.

(** A policy of the caller: retry at once, up to three attempts. *)
Definition retryAtOnce : http_Request -> option http_Response -> option error ->
                         Z -> bool -> Z * bool :=
  fun _ _ _ attempt _ => (0, attempt <? 3).

(** A context whose deadline passes during the wait after attempt 2. *)
Definition deadlineInSecondWait : Z -> option error :=
  fun attempt => if attempt =? 2 then Some context_DeadlineExceeded else None.

(** The policy of the default configuration, its generator in state [n]. *)
Definition defaultPolicy (n : nat) : Retry.policy nat :=
  Retry.NewPolicy (Retry.mkPolicyConfig 3 0 0 [502; 503; 504] EmptyString true) n.

Definition getRequest : http_Request := mkRequest "GET" None ∅ None None 0.

(** A GET request for https://api.example.com/items. *)
Definition itemsRequest : http_Request :=
  mkRequest "GET" (Some (mkURL "https" "api.example.com" "/items" ∅)) ∅ None None 0.

(** A stand-in for the rest of [url.Parse], enough for URLs made of a
    scheme, a host and a path, and for [URL.String]. *)
Fixpoint splitAtSlash (s : string) : string * string :=
  match s with
  | EmptyString => (EmptyString, EmptyString)
  | String c s' =>
      if Ascii.eqb c "/" then (EmptyString, s)
      else let '(host, path) := splitAtSlash s' in (String c host, path)
  end.

Definition parseRest (scheme rest : string)
    : error + (string * string * gmap string (list string)) :=
  match rest with
  | String "/" (String "/" authority) =>
      let '(host, path) := splitAtSlash authority in inr (host, path, ∅)
  | _ => inr (EmptyString, rest, ∅)
  end.

Definition url_String (u : url_URL) : string :=
  (Scheme u ++ "://" ++ Host u ++ Path u)%string.

Definition status (code : Z) : http_Response := mkResponse code ∅ None.

(** The JSON text of an object with the one member name = demo. *)
Definition demoPayload : list Byte.byte :=
  [Byte.x7b; Byte.x22; Byte.x6e; Byte.x61; Byte.x6d; Byte.x65; Byte.x22; Byte.x3a;
   Byte.x22; Byte.x64; Byte.x65; Byte.x6d; Byte.x6f; Byte.x22; Byte.x7d].

Definition itemsURL : string := "https://api.example.com/items".

(** The number of requests that reached the server, from a call's result. *)
Definition attempts {A B} (res : option (A * B * nat)) : option nat :=
  match res with
  | Some (_, _, n) => Some n
  | None => None
  end.

(** The client's call of the scenario: POST of the demo payload. *)
Definition postDemo (opts : list (Httpc.Option nat)) (reqOpts : list (Httpc.ReqOption nat))
    (fuel : nat) :=
  Httpc.execute parseRest url_String (Httpc.New opts 0%nat) (always (status 503))
    background fuel "POST" itemsURL [Httpc.WithJSON (inr demoPayload)] reqOpts 0%nat.

(** A manager whose breaker for api.example.com is open since time 100. *)
Definition trippedManager : Breaker.manager :=
  let cfg := Breaker.mkConfig EmptyString 0 0 None in
  Breaker.mkManager cfg
    {[ "api.example.com"%string :=
         Breaker.mkCircuitBreaker (Breaker.settingsFor cfg "api.example.com")
           Breaker.StateOpen (Breaker.mkCounts 0) 100 ]}.

End Examples.

(** * Properties *)

(** ** Retry policy *)

Section RetryFacts.

Context {R : Type} `{Retry.RandSource R}.

Lemma NewPolicy_positive (cfg : Retry.PolicyConfig) (rnd : R) :
  let p := Retry.NewPolicy cfg rnd in
  0 < Retry.maxAttempts p /\ 0 < Retry.baseBackoff p /\ 0 < Retry.maxBackoff p.
Proof.
  cbn. unfold Millisecond, Second.
  destruct (Z.leb_spec (Retry.MaxAttempts cfg) 0);
  destruct (Z.leb_spec (Retry.BaseBackoff cfg) 0);
  destruct (Z.leb_spec (Retry.MaxBackoff cfg) 0); repeat split; lia.
Qed.

(** C10: [NewPolicy] replaces a non-positive attempt budget by 3, a
    non-positive base backoff by 200 ms and a non-positive backoff cap by
    2 s, and keeps positive values; the policy it builds has a strictly
    positive budget and strictly positive backoff bounds. *)
Theorem NewPolicy_normalizes (cfg : Retry.PolicyConfig) (rnd : R) :
  let p := Retry.NewPolicy cfg rnd in
  (Retry.MaxAttempts cfg <= 0 -> Retry.maxAttempts p = 3) /\
  (0 < Retry.MaxAttempts cfg -> Retry.maxAttempts p = Retry.MaxAttempts cfg) /\
  (Retry.BaseBackoff cfg <= 0 -> Retry.baseBackoff p = 200 * Millisecond) /\
  (0 < Retry.BaseBackoff cfg -> Retry.baseBackoff p = Retry.BaseBackoff cfg) /\
  (Retry.MaxBackoff cfg <= 0 -> Retry.maxBackoff p = 2 * Second) /\
  (0 < Retry.MaxBackoff cfg -> Retry.maxBackoff p = Retry.MaxBackoff cfg) /\
  0 < Retry.maxAttempts p /\ 0 < Retry.baseBackoff p /\ 0 < Retry.maxBackoff p.
Proof.
  intros p. subst p. unfold Retry.NewPolicy.
  cbn [Retry.maxAttempts Retry.baseBackoff Retry.maxBackoff].
  unfold Millisecond, Second.
  destruct (Z.leb_spec (Retry.MaxAttempts cfg) 0) as [Ha | Ha];
    destruct (Z.leb_spec (Retry.BaseBackoff cfg) 0) as [Hb | Hb];
    destruct (Z.leb_spec (Retry.MaxBackoff cfg) 0) as [Hm | Hm].
  all: repeat split; intros; lia.
Qed.

Lemma isIdempotent_upper (method : string) :
  Retry.isIdempotent method = true <->
  Strings.ToUpper method ∈ RetrySpec.idempotentMethods.
Proof.
  unfold Retry.isIdempotent, RetrySpec.idempotentMethods.
  repeat case_decide; rewrite !elem_of_cons, elem_of_nil; split; intros Hm;
    try done; try tauto; intuition congruence.
Qed.

Lemma backoff_keeps (p : Retry.policy R) (attempt : Z) :
  let p' := snd (Retry.backoff p attempt) in
  Retry.maxAttempts p' = Retry.maxAttempts p /\
  Retry.baseBackoff p' = Retry.baseBackoff p /\
  Retry.maxBackoff p' = Retry.maxBackoff p /\
  Retry.statusCodes p' = Retry.statusCodes p /\
  Retry.idempotentOnly p' = Retry.idempotentOnly p.
Proof.
  unfold Retry.backoff. destruct (Retry.Float64 (Retry.rand p)); cbn. tauto.
Qed.

Lemma gate_upper (p : Retry.policy R) (method : string) (force : bool) :
  negb force && Retry.idempotentOnly p && negb (Retry.isIdempotent method) = false <->
  (Retry.idempotentOnly p = true -> force = false ->
   Strings.ToUpper method ∈ RetrySpec.idempotentMethods).
Proof.
  rewrite <- isIdempotent_upper.
  destruct force, (Retry.idempotentOnly p), (Retry.isIdempotent method); cbn;
    intuition congruence.
Qed.

Lemma cancellation_bool (e : error) :
  errors_Is e context_Canceled || errors_Is e context_DeadlineExceeded = false <->
  ~ RetrySpec.cancellation e.
Proof.
  unfold RetrySpec.cancellation.
  destruct (errors_Is e context_Canceled), (errors_Is e context_DeadlineExceeded); cbn;
    intuition congruence.
Qed.

(** C3 (as amended): for every method, outcome, attempt index and force
    flag, [ShouldRetry] decides to retry exactly when the attempt count is
    below the maximum, the method, compared in upper case, is in the fixed
    idempotent set unless the policy is unrestricted or the retry is
    forced, and the outcome is either a transport error that is no
    cancellation or deadline error and is classified as timeout-like or
    transient, or a response whose status code is in the retryable set. *)
Theorem ShouldRetry_follows_rule (p : Retry.policy R) (req : http_Request)
    (resp : option http_Response) (err : option error) (attempt : Z) (force : bool) :
  snd (fst (Retry.policy_ShouldRetry p req resp err attempt force)) = true <->
  RetrySpec.retries p (Method req) resp err attempt force.
Proof.
  unfold Retry.policy_ShouldRetry, RetrySpec.retries.
  rewrite <- gate_upper.
  destruct (Z.geb_spec attempt (Retry.maxAttempts p)) as [Hge | Hlt].
  { cbn. split; [done | lia]. }
  destruct (negb force && Retry.idempotentOnly p && negb (Retry.isIdempotent (Method req))).
  { cbn. split; [done | intros (_ & ? & _); done]. }
  destruct err as [e |].
  - rewrite <- cancellation_bool.
    destruct (errors_Is e context_Canceled || errors_Is e context_DeadlineExceeded).
    { cbn. split; [done | intros (_ & _ & ? & _); done]. }
    destruct (Retry.isNetErrorRetryable e).
    + destruct (Retry.backoff p attempt). cbn. split; [intros _ | done].
      repeat split; first [lia | done].
    + cbn. split; [done | intros (_ & _ & _ & ?); done].
  - destruct resp as [r |]; [| cbn; split; [done | tauto]].
    case_bool_decide.
    + destruct (Retry.backoff p attempt). cbn. split; [intros _ | done].
      repeat split; first [lia | done].
    + cbn. split; [done | tauto].
Qed.

(** A response with a retryable status, on an attempt below the maximum
    of a request that passes the idempotency gate, is retried. *)
Lemma ShouldRetry_retryable_status (p : Retry.policy R) (req : http_Request)
    (resp : http_Response) (attempt : Z) (force : bool) :
  attempt < Retry.maxAttempts p ->
  (Retry.idempotentOnly p = true -> force = false ->
   Strings.ToUpper (Method req) ∈ RetrySpec.idempotentMethods) ->
  StatusCode resp ∈ Retry.statusCodes p ->
  snd (fst (Retry.policy_ShouldRetry p req (Some resp) None attempt force)) = true.
Proof.
  intros Hlt Hgate Hcode. unfold Retry.policy_ShouldRetry.
  destruct (Z.geb_spec attempt (Retry.maxAttempts p)); [lia |].
  apply gate_upper in Hgate. rewrite Hgate.
  rewrite bool_decide_eq_true_2 by done.
  destruct (Retry.backoff p attempt). done.
Qed.

Lemma Duration_of_float_Z (z : Z) :
  MinInt64 <= z <= MaxInt64 -> Retry.Duration_of_float (inject_Z z) = z.
Proof.
  intros [Hlo Hhi]. unfold Retry.Duration_of_float.
  assert (Hz : (if Qle_bool 0 (inject_Z z) then Qfloor (inject_Z z)
                else Qceiling (inject_Z z)) = z).
  { destruct (Qle_bool 0 (inject_Z z)); [apply Qfloor_Z | apply Qceiling_Z]. }
  rewrite Hz. destruct (Z.leb_spec MinInt64 z); [| lia].
  destruct (Z.leb_spec z MaxInt64); [done | lia].
Qed.

(** A value beyond the largest [int64] converts to the smallest. *)
Lemma Duration_of_float_beyond (z : Z) :
  MaxInt64 < z -> Retry.Duration_of_float (inject_Z z) = MinInt64.
Proof.
  intros Hz. unfold Retry.Duration_of_float.
  assert (Hpos : Qle_bool 0 (inject_Z z) = true).
  { apply Qle_bool_iff. unfold Qle. cbn. unfold MaxInt64 in Hz. lia. }
  rewrite Hpos, Qfloor_Z.
  destruct (Z.leb_spec z MaxInt64); [lia |]. rewrite andb_false_r. done.
Qed.

Lemma Duration_of_float_comp (x y : Q) :
  x == y -> Retry.Duration_of_float x = Retry.Duration_of_float y.
Proof.
  intros Hxy. unfold Retry.Duration_of_float.
  rewrite (Qleb_comp 0%Q 0%Q (Qeq_refl 0%Q) x y Hxy).
  destruct (Qle_bool 0 y).
  - rewrite (Qfloor_comp x y Hxy). done.
  - rewrite (Qceiling_comp x y Hxy). done.
Qed.

(** The exponential part: for an attempt index of at least 1 the product
    with the power of two is an integer. *)
Lemma backoff_exponential (base k : Z) :
  1 <= k ->
  Retry.Duration_of_float (inject_Z base * Qpower 2 (k - 1))
  = Retry.Duration_of_float (inject_Z (base * 2 ^ (k - 1))).
Proof.
  intros Hk. apply Duration_of_float_comp.
  rewrite inject_Z_mult. apply Qmult_comp; [reflexivity |].
  symmetry. apply (Zpower_Qpower 2). lia.
Qed.

(** The whole part of a draw in [[0,1)] scaled by a fifth of a positive
    number is between zero and a fifth of the number. *)
Lemma fifth_range (r : Q) (d : Z) :
  (0 <= r)%Q -> (r < 1)%Q -> 0 < d ->
  let part := Qfloor (r * inject_Z d * (2 # 10)) in
  0 <= part /\ 5 * part <= d.
Proof.
  intros Hr0 Hr1 Hd. cbn zeta.
  destruct r as [a b]. unfold Qle, Qlt in Hr0, Hr1. cbn in Hr0, Hr1.
  unfold Qfloor. cbn.
  assert (Hpos : 0 < Z.pos (b * 1 * 10)) by lia.
  replace (Z.pos (b * 1 * 10)) with (Z.pos b * 10) in * by lia.
  split.
  - apply Z.div_pos; nia.
  - assert (Hle : Z.div (a * d * 2) (Z.pos b * 10) <= Z.div d 5).
    { replace (Z.div d 5) with (Z.div (d * (Z.pos b * 2)) (5 * (Z.pos b * 2))).
      - replace (5 * (Z.pos b * 2)) with (Z.pos b * 10) by lia.
        apply Z.div_le_mono; nia.
      - rewrite Z.div_mul_cancel_r; lia. }
    pose proof (Z.mul_div_le d 5). lia.
Qed.

(** The jitter of a positive delay: between zero and a fifth of it. *)
Lemma jitter_range (r : Q) (d : Z) :
  (0 <= r)%Q -> (r < 1)%Q -> 0 < d <= MaxInt64 ->
  let jitter := Retry.Duration_of_float (r * inject_Z d * (2 # 10)) in
  0 <= jitter /\ 5 * jitter <= d.
Proof.
  intros Hr0 Hr1 [Hd Hmax]. cbn zeta.
  assert (Hnn : (0 <= r * inject_Z d * (2 # 10))%Q).
  { apply Qmult_le_0_compat; [apply Qmult_le_0_compat |]; try done.
    unfold Qle; cbn; lia. }
  unfold Retry.Duration_of_float.
  apply Qle_bool_iff in Hnn as Hb. rewrite Hb.
  destruct (fifth_range r d Hr0 Hr1 Hd) as [Hj0 Hj5].
  unfold MinInt64, MaxInt64 in *.
  destruct (Z.leb_spec (- 2 ^ 63) (Qfloor (r * inject_Z d * (2 # 10)))); [| lia].
  destruct (Z.leb_spec (Qfloor (r * inject_Z d * (2 # 10))) (2 ^ 63 - 1)); [| lia].
  cbn [andb]. lia.
Qed.

(** The jitter of the smallest [int64]: the negated whole part of the
    draw scaled by a fifth of 2^63. *)
Lemma jitter_of_MinInt64 (r : Q) :
  (0 <= r)%Q -> (r < 1)%Q ->
  Retry.Duration_of_float (r * inject_Z MinInt64 * (2 # 10))
  = - Qfloor (r * inject_Z (2 ^ 63) * (2 # 10)).
Proof.
  intros Hr0 Hr1.
  assert (H63 : 0 < 2 ^ 63) by lia.
  destruct (fifth_range r (2 ^ 63) Hr0 Hr1 H63) as [Hj0 Hj5].
  set (part := Qfloor (r * inject_Z (2 ^ 63) * (2 # 10))) in *.
  assert (Hneg : r * inject_Z MinInt64 * (2 # 10) == - (r * inject_Z (2 ^ 63) * (2 # 10))).
  { unfold MinInt64. rewrite inject_Z_opp. ring. }
  rewrite (Duration_of_float_comp _ _ Hneg).
  unfold Retry.Duration_of_float.
  assert (Hval : (if Qle_bool 0 (- (r * inject_Z (2 ^ 63) * (2 # 10)))
                  then Qfloor (- (r * inject_Z (2 ^ 63) * (2 # 10)))
                  else Qceiling (- (r * inject_Z (2 ^ 63) * (2 # 10)))) = - part).
  { destruct (Qle_bool 0 (- (r * inject_Z (2 ^ 63) * (2 # 10)))) eqn:Hb.
    - apply Qle_bool_iff in Hb.
      assert (Hzero : r * inject_Z (2 ^ 63) * (2 # 10) == 0).
      { apply Qle_antisym.
        - apply Qopp_le_compat in Hb. rewrite Qopp_opp in Hb. exact Hb.
        - apply Qmult_le_0_compat; [apply Qmult_le_0_compat |];
            first [done | unfold Qle; cbn; lia]. }
      assert (Hzero' : - (r * inject_Z (2 ^ 63) * (2 # 10)) == 0).
      { rewrite Hzero; reflexivity. }
      subst part. rewrite (Qfloor_comp _ _ Hzero), (Qfloor_comp _ _ Hzero'). done.
    - unfold Qceiling. rewrite Qopp_opp. done. }
  rewrite Hval. unfold MinInt64, MaxInt64.
  destruct (Z.leb_spec (- 2 ^ 63) (- part)); [| lia].
  destruct (Z.leb_spec (- part) (2 ^ 63 - 1)); [done | lia].
Qed.

Lemma ShouldRetry_delay (p : Retry.policy R) (req : http_Request)
    (resp : option http_Response) (err : option error) (attempt : Z) (force : bool) :
  snd (fst (Retry.policy_ShouldRetry p req resp err attempt force)) = true ->
  Retry.policy_ShouldRetry p req resp err attempt force =
  ((fst (Retry.backoff p attempt), true), snd (Retry.backoff p attempt)).
Proof.
  unfold Retry.policy_ShouldRetry.
  repeat match goal with
         | |- context [if ?b then _ else _] => destruct b
         | |- context [match ?x with Some _ => _ | None => _ end] => destruct x
         end; cbn; try done;
    destruct (Retry.backoff p attempt); done.
Qed.

(** The delay while the exponential part is an [int64] and the cap is
    positive and small enough for the sum not to wrap around. *)
Lemma backoff_value (p : Retry.policy R) (k : Z) :
  1 <= k ->
  0 <= Retry.baseBackoff p * 2 ^ (k - 1) <= MaxInt64 ->
  0 < 6 * Retry.maxBackoff p <= 5 * MaxInt64 ->
  let d := Z.min (Retry.baseBackoff p * 2 ^ (k - 1)) (Retry.maxBackoff p) in
  fst (Retry.backoff p k) =
  d + Retry.Duration_of_float (fst (Retry.Float64 (Retry.rand p)) * inject_Z d * (2 # 10)).
Proof.
  intros Hk Hexp Hmax. unfold Retry.backoff.
  rewrite backoff_exponential by done.
  rewrite Duration_of_float_Z by (unfold MinInt64, MaxInt64 in *; lia).
  destruct (Retry.Float64_range (Retry.rand p)) as [Hr0 Hr1].
  destruct (Retry.Float64 (Retry.rand p)) as [r rnd']. cbn [fst] in *.
  set (d := Z.min _ _).
  assert (Hd : (if Retry.baseBackoff p * 2 ^ (k - 1) >? Retry.maxBackoff p
                then Retry.maxBackoff p else Retry.baseBackoff p * 2 ^ (k - 1)) = d).
  { subst d. destruct (Z.gtb_spec (Retry.baseBackoff p * 2 ^ (k - 1)) (Retry.maxBackoff p)).
    - rewrite Z.min_r by lia. done.
    - rewrite Z.min_l by lia. done. }
  rewrite Hd.
  assert (Hdr : 0 <= d /\ 6 * d <= 5 * MaxInt64) by (subst d; lia).
  assert (Hj : 0 <= Retry.Duration_of_float (r * inject_Z d * (2 # 10)) /\
               5 * Retry.Duration_of_float (r * inject_Z d * (2 # 10)) <= d).
  { destruct (decide (d = 0)) as [-> | Hne].
    - assert (Hzero : r * inject_Z 0 * (2 # 10) == inject_Z 0) by (unfold inject_Z; ring).
      rewrite (Duration_of_float_comp _ _ Hzero).
      rewrite Duration_of_float_Z by (unfold MinInt64, MaxInt64; lia). lia.
    - apply jitter_range; try done. unfold MaxInt64 in *. lia. }
  unfold wrap64, MinInt64, MaxInt64 in *.
  rewrite Z.mod_small by lia. lia.
Qed.

(** Within the range of [int64]: on an attempt index k >= 1 on which the
    policy decides to retry, while baseBackoff * 2^(k-1) is an [int64]
    and the cap is at most 2^52 ns, the delay lies between d and
    1.2 * d, where d is the minimum of baseBackoff * 2^(k-1) and
    maxBackoff, and never exceeds 1.2 * maxBackoff. *)
Lemma backoff_delay_bounds (cfg : Retry.PolicyConfig) (rnd : R) (req : http_Request)
    (resp : option http_Response) (err : option error) (force : bool)
    (k delay : Z) (p' : Retry.policy R) :
  1 <= k ->
  Retry.policy_ShouldRetry (Retry.NewPolicy cfg rnd) req resp err k force
    = ((delay, true), p') ->
  let p := Retry.NewPolicy cfg rnd in
  Retry.baseBackoff p * 2 ^ (k - 1) <= MaxInt64 ->
  Retry.maxBackoff p <= 2 ^ 52 ->
  let d := Z.min (Retry.baseBackoff p * 2 ^ (k - 1)) (Retry.maxBackoff p) in
  0 < d /\ d <= delay /\ 5 * delay <= 6 * d /\ 5 * delay <= 6 * Retry.maxBackoff p.
Proof.
  intros Hk Hsr p Hexp Hcap d.
  pose proof (ShouldRetry_delay p req resp err k force) as Hd.
  fold p in Hsr. rewrite Hsr in Hd. specialize (Hd eq_refl).
  injection Hd as Hdelay _.
  destruct (NewPolicy_positive cfg rnd) as (_ & Hb & Hm).
  fold p in Hb, Hm.
  assert (Hpow : 0 < Retry.baseBackoff p * 2 ^ (k - 1)).
  { apply Z.mul_pos_pos; [done |]. apply Z.pow_pos_nonneg; lia. }
  unfold MaxInt64 in Hexp.
  pose proof (backoff_value p k Hk) as Hv. cbn zeta in Hv. fold d in Hv.
  rewrite Hv in Hdelay by (unfold MaxInt64; lia).
  assert (Hdpos : 0 < d) by (subst d; lia).
  destruct (Retry.Float64_range (Retry.rand p)) as [Hr0 Hr1].
  destruct (jitter_range (fst (Retry.Float64 (Retry.rand p))) d Hr0 Hr1) as [Hj0 Hj5].
  { unfold MaxInt64. subst d. lia. }
  assert (Hdm : d <= Retry.maxBackoff p) by (subst d; apply Z.le_min_r).
  repeat split; try done; lia.
Qed.

(** C4: the exponential part is converted to a duration before it is
    capped.  On an attempt index k >= 1 on which the policy decides to
    retry and for which baseBackoff * 2^(k-1) is beyond the largest
    [int64], the conversion gives the smallest [int64], which the cap
    lets through; the delay returned is that value plus its jitter,
    wrapped around: the smallest [int64] itself, or a value above
    0.75 * 2^63 ns.  With a cap below 2^62 ns the delay is therefore
    negative or exceeds 1.2 * maxBackoff, and it is not between d and
    1.2 * d for d the minimum of baseBackoff * 2^(k-1) and maxBackoff. *)
Theorem backoff_overflow_skips_cap (cfg : Retry.PolicyConfig) (rnd : R) (req : http_Request)
    (resp : option http_Response) (err : option error) (force : bool)
    (k delay : Z) (p' : Retry.policy R) :
  1 <= k ->
  Retry.policy_ShouldRetry (Retry.NewPolicy cfg rnd) req resp err k force
    = ((delay, true), p') ->
  let p := Retry.NewPolicy cfg rnd in
  MaxInt64 < Retry.baseBackoff p * 2 ^ (k - 1) ->
  Retry.maxBackoff p < 2 ^ 62 ->
  let d := Z.min (Retry.baseBackoff p * 2 ^ (k - 1)) (Retry.maxBackoff p) in
  (delay = MinInt64 \/ 3 * 2 ^ 61 < delay) /\
  (delay < 0 \/ 6 * Retry.maxBackoff p < 5 * delay) /\
  ~ (d <= delay /\ 5 * delay <= 6 * d).
Proof.
  intros Hk Hsr p Hexp Hcap d.
  pose proof (ShouldRetry_delay p req resp err k force) as Hd.
  fold p in Hsr. rewrite Hsr in Hd. specialize (Hd eq_refl).
  injection Hd as Hdelay _.
  destruct (NewPolicy_positive cfg rnd) as (_ & Hb & Hm).
  fold p in Hb, Hm.
  destruct (Retry.Float64_range rnd) as [Hr0 Hr1].
  assert (H63 : 0 < 2 ^ 63) by lia.
  destruct (fifth_range (fst (Retry.Float64 rnd)) (2 ^ 63) Hr0 Hr1 H63) as [Hj0 Hj5].
  set (part := Qfloor (fst (Retry.Float64 rnd) * inject_Z (2 ^ 63) * (2 # 10))) in *.
  assert (Hvalue : delay = (if part =? 0 then MinInt64 else 2 ^ 63 - part)).
  { rewrite Hdelay. unfold Retry.backoff.
    rewrite backoff_exponential by done.
    rewrite Duration_of_float_beyond by done.
    change (Retry.rand p) with rnd. subst part.
    destruct (Retry.Float64 rnd) as [r rnd'] eqn:Hdraw. cbn [fst] in *.
    destruct (Z.gtb_spec MinInt64 (Retry.maxBackoff p)) as [Hgt | _];
      [unfold MinInt64 in Hgt; lia |].
    rewrite jitter_of_MinInt64 by done. cbn [fst].
    set (part := Qfloor (r * inject_Z (2 ^ 63) * (2 # 10))) in *.
    unfold wrap64, MinInt64.
    destruct (Z.eqb_spec part 0) as [-> | Hne].
    - rewrite Z.add_0_r, Z.sub_diag. done.
    - replace (- 2 ^ 63 + - part - - 2 ^ 63) with (- part) by lia.
      replace (- part) with (2 ^ 64 - part + (-1) * 2 ^ 64) by lia.
      rewrite Z.mod_add by lia. rewrite Z.mod_small by lia. lia. }
  assert (Hd : d = Retry.maxBackoff p).
  { subst d. unfold MaxInt64 in Hexp. lia. }
  assert (Hshape : delay = MinInt64 \/ 3 * 2 ^ 61 < delay).
  { rewrite Hvalue. destruct (Z.eqb_spec part 0); [left; done | right; lia]. }
  split; [exact Hshape |]. unfold MinInt64 in Hshape.
  split; [lia |]. rewrite Hd. lia.
Qed.

End RetryFacts.

(** ** Retry middleware *)

Lemma errors_Is_refl (e : error) : errors_Is e e = true.
Proof. destruct e; cbn; rewrite bool_decide_eq_true_2; done. Qed.

Section LoopFacts.

Context {P : Type} `{Retry.Policy P} {T : Type}.
Variable next : RoundTripper T.
Variable done : Z -> option error.
Variable force : bool.
Variable orig : http_Request.

Lemma retryLoop_more_fuel (fuel : nat) :
  forall (pol : P) (attempt : Z) (t : T) res,
  Retry.retryLoop next done force orig fuel pol attempt t = Some res ->
  forall fuel', (fuel <= fuel')%nat ->
  Retry.retryLoop next done force orig fuel' pol attempt t = Some res.
Proof.
  induction fuel as [| fuel IH]; intros pol attempt t res Hrun fuel' Hle; [done |].
  destruct fuel' as [| fuel']; [lia |].
  cbn [Retry.retryLoop] in *.
  destruct (Retry.prepareAttemptRequest orig attempt) as [e | cur]; [done |].
  destruct (next t cur) as [[resp err] t1].
  destruct (Retry.ShouldRetry pol cur resp err attempt force) as [[delay retryable] pol1].
  destruct (negb retryable); [done |].
  destruct (Retry.waitWithContext (done attempt) delay); [done |].
  destruct (URL orig); [| done].
  apply (IH _ _ _ _ Hrun). lia.
Qed.

Lemma retryLoop_reaches (a a' : Z) (pol pol' : P) (t t' : T) :
  Retry.reaches next done force orig a pol t a' pol' t' ->
  forall fuel' res,
  Retry.retryLoop next done force orig fuel' pol' a' t' = Some res ->
  exists fuel, Retry.retryLoop next done force orig fuel pol a t = Some res.
Proof.
  induction 1 as [a pol t | a pol t cur resp err t1 delay pol1 a' pol' t'
                              Hprep Hnext Hsr Hwait Hurl _ IH]; intros fuel' res Hrun.
  - eauto.
  - destruct (IH _ _ Hrun) as [fuel Hfuel]. exists (S fuel).
    cbn [Retry.retryLoop]. rewrite Hprep, Hnext, Hsr. cbn [negb].
    rewrite Hwait. destruct (URL orig); [exact Hfuel | done].
Qed.

(** C5: whenever the loop has come to an attempt whose outcome the
    policy wants retried after a positive delay, and the request's
    context is cancelled or reaches its deadline during that wait, the
    whole call returns no response and an error that wraps the context's
    error, and the transport is left as that attempt left it: no further
    attempt is made. *)
Theorem wait_interrupted_by_context (pol polk pol1 : P) (t tk t1 : T) (k delay : Z)
    (cur : http_Request) (resp : option http_Response) (err : option error) (e : error) :
  Retry.reaches next done force orig 1 pol t k polk tk ->
  Retry.prepareAttemptRequest orig k = inr cur ->
  next tk cur = ((resp, err), t1) ->
  Retry.ShouldRetry polk cur resp err k force = ((delay, true), pol1) ->
  0 < delay ->
  done k = Some e ->
  exists fuel0 wrapped,
    errors_Is wrapped e = true /\
    forall fuel, (fuel0 <= fuel)%nat ->
      Retry.retryLoop next done force orig fuel pol 1 t = Some ((None, Some wrapped), pol1, t1).
Proof.
  intros Hreach Hprep Hnext Hsr Hdelay Hdone.
  assert (Hlast : Retry.retryLoop next done force orig 1 polk k tk
                  = Some ((None, Some (fmt_Errorf "retry interrupted" e)), pol1, t1)).
  { cbn [Retry.retryLoop]. rewrite Hprep, Hnext, Hsr. cbn [negb].
    unfold Retry.waitWithContext. rewrite Hdone.
    destruct (Z.leb_spec delay 0); [lia | done]. }
  destruct (retryLoop_reaches _ _ _ _ _ _ Hreach _ _ Hlast) as [fuel0 Hrun].
  exists fuel0, (fmt_Errorf "retry interrupted" e). split.
  - cbn [errors_Is]. rewrite errors_Is_refl. apply orb_true_r.
  - intros fuel Hle. exact (retryLoop_more_fuel _ _ _ _ _ Hrun _ Hle).
Qed.

End LoopFacts.

(** ** The package's policy in the middleware *)

Section BuiltinPolicyFacts.

Context {R : Type} `{Retry.RandSource R}.

Lemma sameSettings_trans (p q r : Retry.policy R) :
  RetrySpec.sameSettings p q -> RetrySpec.sameSettings q r -> RetrySpec.sameSettings p r.
Proof. unfold RetrySpec.sameSettings. intros (-> & -> & ->) (-> & -> & ->). done. Qed.

Lemma ShouldRetry_sameSettings (p : Retry.policy R) (req : http_Request)
    (resp : option http_Response) (err : option error) (attempt : Z) (force : bool) :
  RetrySpec.sameSettings (snd (Retry.policy_ShouldRetry p req resp err attempt force)) p.
Proof.
  destruct (snd (fst (Retry.policy_ShouldRetry p req resp err attempt force))) eqn:Hd.
  - rewrite (ShouldRetry_delay _ _ _ _ _ _ Hd). cbn [snd].
    pose proof (backoff_keeps p attempt) as Hk. cbn zeta in Hk.
    unfold RetrySpec.sameSettings. tauto.
  - revert Hd. unfold Retry.policy_ShouldRetry.
    repeat match goal with
           | |- context [if ?b then _ else _] => destruct b
           | |- context [match ?x with Some _ => _ | None => _ end] => destruct x
           end; cbn; try done;
      destruct (Retry.backoff p attempt); done.
Qed.

Lemma prepareAttemptRequest_ok (orig : http_Request) (attempt : Z) :
  (forall e, GetBody orig <> Some (inl e)) ->
  exists cur, Retry.prepareAttemptRequest orig attempt = inr cur /\
              Method cur = Method orig.
Proof.
  intros Hbody. unfold Retry.prepareAttemptRequest, Retry.Clone.
  destruct (attempt =? 1); [eauto |].
  destruct (GetBody orig) as [[e | b] |] eqn:Hg; [| eauto ..].
  exfalso. exact (Hbody e eq_refl).
Qed.

(** Against a server that answers every attempt with a response whose
    status is retryable, for a request that passes the idempotency gate
    and while the context is not done, the loop uses up the attempt
    budget: started at attempt [a] it makes [maxAttempts - a + 1]
    attempts and returns the last response with no error. *)
Lemma retryLoop_exhausts_budget (resp : http_Response) (p0 : Retry.policy R)
    (orig : http_Request) (force : bool) :
  StatusCode resp ∈ Retry.statusCodes p0 ->
  (Retry.idempotentOnly p0 = true -> force = false ->
   Strings.ToUpper (Method orig) ∈ RetrySpec.idempotentMethods) ->
  (forall e, GetBody orig <> Some (inl e)) ->
  URL orig <> None ->
  forall (n : nat) (p : Retry.policy R) (a : Z) (t : nat),
  RetrySpec.sameSettings p p0 -> Retry.maxAttempts p0 - a = Z.of_nat n ->
  exists p', RetrySpec.sameSettings p' p0 /\
    forall fuel, (n < fuel)%nat ->
    Retry.retryLoop (Examples.always resp) Examples.background force orig fuel
      (Httpc.builtinPolicy p) a t
    = Some ((Some resp, None), Httpc.builtinPolicy p', (t + n + 1)%nat).
Proof.
  intros Hcode Hgate Hbody Hurl. induction n as [| n IH]; intros p a t Hsame Hn.
  - exists (snd (Retry.policy_ShouldRetry p orig (Some resp) None a force)).
    split; [eapply sameSettings_trans; [apply ShouldRetry_sameSettings | done] |].
    intros [| fuel] Hf; [lia |]. cbn [Retry.retryLoop].
    destruct (prepareAttemptRequest_ok orig a Hbody) as (cur & -> & Hm).
    cbn [Examples.always]. unfold Retry.ShouldRetry, Httpc.PolicyValue_Policy.
    assert (Hstop : Retry.policy_ShouldRetry p cur (Some resp) None a force = ((0, false), p)).
    { unfold Retry.policy_ShouldRetry. destruct Hsame as (-> & _).
      destruct (Z.geb_spec a (Retry.maxAttempts p0)); [done | lia]. }
    rewrite Hstop. cbn [negb]. repeat f_equal; [| lia].
    unfold Retry.policy_ShouldRetry. destruct Hsame as (-> & _).
    destruct (Z.geb_spec a (Retry.maxAttempts p0)); [done | lia].
  - destruct (prepareAttemptRequest_ok orig a Hbody) as (cur & Hprep & Hm).
    assert (Hretry : snd (fst (Retry.policy_ShouldRetry p cur (Some resp) None a force)) = true).
    { destruct Hsame as (Hmax & Hcodes & Honly).
      apply ShouldRetry_retryable_status; [lia | rewrite Honly, Hm; done | rewrite Hcodes; done]. }
    apply ShouldRetry_delay in Hretry as Hsr.
    pose proof (ShouldRetry_sameSettings p cur (Some resp) None a force) as Hs1.
    rewrite Hsr in Hs1. cbn [snd] in Hs1.
    destruct (IH (snd (Retry.backoff p a)) (a + 1) (S t)) as (p' & Hs' & Hrun).
    { eapply sameSettings_trans; done. }
    { lia. }
    exists p'. split; [done |].
    intros [| fuel] Hf; [lia |]. cbn [Retry.retryLoop].
    rewrite Hprep. cbn [Examples.always].
    unfold Retry.ShouldRetry, Httpc.PolicyValue_Policy. rewrite Hsr. cbn [negb].
    unfold Retry.waitWithContext, Examples.background.
    replace (if fst (Retry.backoff p a) <=? 0 then None else None) with (@None error)
      by (destruct (fst (Retry.backoff p a) <=? 0); done).
    destruct (URL orig); [| done].
    rewrite Hrun by lia. replace (S t + n + 1)%nat with (t + S n + 1)%nat by lia. done.
Qed.

End BuiltinPolicyFacts.

(** ** The client against a server that always answers 503 *)

Section ClientFacts.

Context {R : Type} `{Retry.RandSource R}.
Variable parseRest : string -> string -> error + (string * string * gmap string (list string)).
Variable url_String : url_URL -> string.

Lemma buildHTTPRequest_plain (r : Httpc.Request R) (u : url_URL) (userAgent : string) :
  Httpc.queries r = ∅ ->
  Httpc.validMethod (Httpc.method r) = true ->
  Httpc.url_Parse parseRest (Httpc.url r) = inr u ->
  (forall e, Httpc.bodyFactory r <> Some (inl e)) ->
  exists httpReq,
    Httpc.buildHTTPRequest parseRest url_String r EmptyString userAgent = inr httpReq /\
    Method httpReq = Httpc.method r /\
    (forall e, GetBody httpReq <> Some (inl e)) /\
    URL httpReq = Some u.
Proof.
  intros Hq Hm Hu Hb. unfold Httpc.buildHTTPRequest.
  unfold Httpc.resolveTarget, Httpc.mergeQuery. rewrite Hq, map_size_empty.
  rewrite (bool_decide_eq_true_2 (EmptyString = EmptyString)) by done.
  cbn [negb andb Nat.ltb Nat.leb]. unfold mbind at 1, error_bind at 1.
  unfold Httpc.http_NewRequestWithContext.
  assert (Hne : Httpc.method r <> EmptyString).
  { intros Heq. rewrite Heq in Hm. done. }
  rewrite (decide_False (P := Httpc.method r = EmptyString)) by done.
  rewrite Hm, Hu. cbn [negb].
  destruct (Httpc.bodyFactory r) as [[e | [[rc cl] ct]] |] eqn:Hbf.
  - exfalso. exact (Hb e eq_refl).
  - cbn. eexists. split; [reflexivity |]. cbn. split; [done |]. split; [| done].
    intros e. done.
  - cbn. eexists. split; [reflexivity |]. cbn. split; [done |]. split; [| done].
    intros e. done.
Qed.

(** The policy [New] builds for [WithRetry(true, 3)]. *)
Lemma New_retry_enabled (rnd : R) :
  Httpc.New [Httpc.WithRetry true 3] rnd =
  Httpc.mkClient
    (Httpc.mkConfig EmptyString EmptyString (10 * Second) true 3 (200 * Millisecond)
       (2 * Second) [502; 503; 504] false None None None Httpc.defaultUserAgent)
    (Some (Httpc.builtinPolicy (Retry.NewPolicy
       (Retry.mkPolicyConfig 3 (200 * Millisecond) (2 * Second) [502; 503; 504]
          EmptyString true) rnd)))
    None.
Proof. reflexivity. Qed.

Lemma New_retry_disabled (rnd : R) :
  Httpc.New [Httpc.WithRetry false 0] rnd =
  Httpc.mkClient
    (Httpc.mkConfig EmptyString EmptyString (10 * Second) false 3 (200 * Millisecond)
       (2 * Second) [502; 503; 504] false None None None Httpc.defaultUserAgent)
    None None.
Proof. reflexivity. Qed.

(** C1 (as amended): a POST with a JSON body to a server that always
    answers 503.  With retries disabled the call makes exactly one
    attempt and returns the 503 response, no error.  With retries enabled
    and at most 3 attempts, the call without the forced-retry flag still
    makes exactly one attempt, the client's policy being restricted to
    idempotent methods, and the call with the forced-retry flag makes
    exactly 3 attempts; both return the 503 response, no error. *)
Theorem post_503_attempts (rnd : R) (target : string) (u : url_URL)
    (payload : list Byte.byte) (resp : http_Response) :
  StatusCode resp = 503 ->
  Httpc.url_Parse parseRest target = inr u ->
  let post opts reqOpts fuel :=
    Httpc.execute parseRest url_String (Httpc.New opts rnd) (Examples.always resp)
      Examples.background fuel "POST" target [Httpc.WithJSON (inr payload)] reqOpts 0%nat in
  (forall fuel,
     post [Httpc.WithRetry false 0] [] fuel
     = Some (inr (Httpc.newResponse (Some resp)), None, 1%nat)) /\
  (forall fuel, (1 <= fuel)%nat ->
     exists pol, post [Httpc.WithRetry true 3] [] fuel
     = Some (inr (Httpc.newResponse (Some resp)), Some pol, 1%nat)) /\
  (forall fuel, (3 <= fuel)%nat ->
     exists pol, post [Httpc.WithRetry true 3] [Httpc.WithRequestRetryForce] fuel
     = Some (inr (Httpc.newResponse (Some resp)), Some pol, 3%nat)).
Proof.
  intros Hcode Hu post. subst post. cbn beta.
  split; [| split].
  - intros fuel. rewrite New_retry_disabled.
    unfold Httpc.execute, Httpc.Do, Httpc.clone.
    cbn [Httpc.cfg Httpc.BaseURL Httpc.UserAgent].
    edestruct (buildHTTPRequest_plain
      (Httpc.newRequest "POST" target ([Httpc.WithJSON (inr payload)] ++ []))
      u Httpc.defaultUserAgent) as (httpReq & -> & _); [done | done | done | done |].
    done.
  - intros fuel Hfuel. rewrite New_retry_enabled.
    unfold Httpc.execute, Httpc.Do, Httpc.clone.
    cbn [Httpc.cfg Httpc.BaseURL Httpc.UserAgent].
    edestruct (buildHTTPRequest_plain
      (Httpc.newRequest "POST" target ([Httpc.WithJSON (inr payload)] ++ []))
      u Httpc.defaultUserAgent) as (httpReq & -> & Hm & _); [done | done | done | done |].
    destruct fuel as [| fuel]; [lia |].
    cbn -[Retry.policy_ShouldRetry Retry.NewPolicy].
    assert (Hstop : forall p : Retry.policy R,
              Retry.maxAttempts p = 3 -> Retry.idempotentOnly p = true ->
              Retry.policy_ShouldRetry p httpReq (Some resp) None 1 false = ((0, false), p)).
    { intros p Hmax Hidem. unfold Retry.policy_ShouldRetry. rewrite Hmax, Hidem, Hm. done. }
    rewrite Hstop by done. eauto.
  - intros fuel Hfuel. rewrite New_retry_enabled.
    unfold Httpc.execute, Httpc.Do, Httpc.clone.
    cbn [Httpc.cfg Httpc.BaseURL Httpc.UserAgent].
    edestruct (buildHTTPRequest_plain
      (Httpc.newRequest "POST" target
         ([Httpc.WithJSON (inr payload)] ++ [Httpc.WithRequestRetryForce]))
      u Httpc.defaultUserAgent) as (httpReq & -> & Hm & Hbody & Hurl);
      [done | done | done | done |].
    set (p0 := Retry.NewPolicy _ rnd).
    destruct (retryLoop_exhausts_budget resp p0 httpReq true) with (n := 2%nat)
      (p := p0) (a := 1) (t := 0%nat) as (p' & _ & Hrun); try done.
    { rewrite Hcode. subst p0. cbn. set_solver. }
    { rewrite Hurl. done. }
    cbn -[Retry.retryLoop p0]. rewrite Hrun by lia. eauto.
Qed.

End ClientFacts.

(** C1, counterexample: with retries enabled and at most 3 attempts, the
    POST without the forced-retry flag reaches the server once, not 3
    times. *)
Lemma post_503_unforced_single_attempt :
  Examples.attempts (Examples.postDemo [Httpc.WithRetry true 3] [] 5) = Some 1%nat /\
  Examples.attempts (Examples.postDemo [Httpc.WithRetry true 3] [] 5) <> Some 3%nat.
Proof. split; [vm_compute; reflexivity | vm_compute; discriminate]. Qed.

Lemma post_503_attempts_witness :
  StatusCode (Examples.status 503) = 503 /\
  Httpc.url_Parse Examples.parseRest Examples.itemsURL
    = inr (mkURL "https" "api.example.com" "/items" ∅) /\
  (forall fuel,
     Examples.postDemo [Httpc.WithRetry false 0] [] fuel
     = Some (inr (Httpc.newResponse (Some (Examples.status 503))), None, 1%nat)) /\
  (forall fuel, (1 <= fuel)%nat ->
     exists pol, Examples.postDemo [Httpc.WithRetry true 3] [] fuel
     = Some (inr (Httpc.newResponse (Some (Examples.status 503))), Some pol, 1%nat)) /\
  (forall fuel, (3 <= fuel)%nat ->
     exists pol, Examples.postDemo [Httpc.WithRetry true 3] [Httpc.WithRequestRetryForce] fuel
     = Some (inr (Httpc.newResponse (Some (Examples.status 503))), Some pol, 3%nat)).
Proof.
  split; [reflexivity |]. split; [reflexivity |].
  apply (post_503_attempts Examples.parseRest Examples.url_String 0%nat Examples.itemsURL
           (mkURL "https" "api.example.com" "/items" ∅)
           Examples.demoPayload (Examples.status 503)); reflexivity.
Defined.

(** C3, counterexample: the method [get], written in lower case, is not
    one of GET, HEAD, OPTIONS, PUT, DELETE, the policy is restricted to
    idempotent methods and the retry is not forced, and yet the first
    attempt's 503 is retried. *)
Lemma ShouldRetry_lower_case_method :
  let p := Retry.NewPolicy (Retry.mkPolicyConfig 3 0 0 [502; 503; 504] EmptyString true) 0%nat in
  let req := mkRequest "get" None ∅ None None 0 in
  ~ RetrySpec.gateAsWorded p (Method req) false /\
  snd (fst (Retry.policy_ShouldRetry p req (Some (Examples.status 503)) None 1 false)) = true.
Proof.
  split; [| vm_compute; reflexivity].
  intros Hgate. specialize (Hgate eq_refl eq_refl). cbn in Hgate.
  unfold RetrySpec.idempotentMethods in Hgate.
  rewrite !elem_of_cons, elem_of_nil in Hgate. intuition discriminate.
Qed.

Lemma backoff_overflow_skips_cap_witness :
  let cfg := Retry.mkPolicyConfig 100 0 0 [503] EmptyString true in
  let p := Retry.NewPolicy cfg 0%nat in
  let req := Examples.itemsRequest in
  1 <= 37 /\
  Retry.policy_ShouldRetry p req (Some (Examples.status 503)) None 37 false
    = ((MinInt64, true),
       Retry.mkPolicy 100 200000000 2000000000 (Retry.statusCodes p) true 1%nat) /\
  MaxInt64 < Retry.baseBackoff p * 2 ^ (37 - 1) /\
  Retry.maxBackoff p < 2 ^ 62 /\
  MinInt64 = -9223372036854775808 /\
  ~ (Z.min (Retry.baseBackoff p * 2 ^ (37 - 1)) (Retry.maxBackoff p) <= MinInt64 /\
     5 * MinInt64
     <= 6 * Z.min (Retry.baseBackoff p * 2 ^ (37 - 1)) (Retry.maxBackoff p)).
Proof.
  intros cfg p req. split; [lia |]. split; [vm_compute; reflexivity |].
  split; [vm_compute; reflexivity |]. split; [vm_compute; reflexivity |].
  split; [reflexivity |].
  apply (backoff_overflow_skips_cap cfg 0%nat req (Some (Examples.status 503)) None false 37
           MinInt64
           (Retry.mkPolicy 100 200000000 2000000000 (Retry.statusCodes p) true 1%nat)).
  - lia.
  - vm_compute; reflexivity.
  - vm_compute; reflexivity.
  - vm_compute; reflexivity.
Defined.

(** The second attempt under the default bounds: 400 ms plus a jitter of
    0.7 * 20%, within the bounds. *)
Example backoff_second_attempt :
  let cfg := Retry.mkPolicyConfig 3 0 0 [502; 503; 504] EmptyString true in
  let p := Retry.NewPolicy cfg 7%nat in
  Retry.policy_ShouldRetry p Examples.itemsRequest (Some (Examples.status 503)) None 2 false
    = ((456000000, true),
       Retry.mkPolicy 3 200000000 2000000000 (Retry.statusCodes p) true 8%nat) /\
  400000000 <= 456000000 /\ 5 * 456000000 <= 6 * 400000000.
Proof.
  intros cfg p. split; [vm_compute; reflexivity |].
  destruct (backoff_delay_bounds cfg 7%nat Examples.itemsRequest (Some (Examples.status 503))
              None false 2 456000000
              (Retry.mkPolicy 3 200000000 2000000000 (Retry.statusCodes p) true 8%nat))
    as (_ & Hlo & Hhi & _).
  - lia.
  - vm_compute; reflexivity.
  - vm_compute. discriminate.
  - vm_compute. discriminate.
  - lia.
Qed.

Lemma wait_interrupted_by_context_witness :
  let next := Examples.always (Examples.status 503) in
  let done := Examples.deadlineInSecondWait in
  let orig := Examples.itemsRequest in
  Retry.reaches next done false orig 1 (Examples.defaultPolicy 3) 0%nat
                2 (Examples.defaultPolicy 4) 1%nat /\
  Retry.prepareAttemptRequest orig 2 = inr orig /\
  next 1%nat orig = ((Some (Examples.status 503), None), 2%nat) /\
  Retry.ShouldRetry (Examples.defaultPolicy 4) orig (Some (Examples.status 503)) None 2 false
    = ((432000000, true), Examples.defaultPolicy 5) /\
  0 < 432000000 /\
  done 2 = Some context_DeadlineExceeded /\
  exists fuel0 wrapped,
    errors_Is wrapped context_DeadlineExceeded = true /\
    forall fuel, (fuel0 <= fuel)%nat ->
      Retry.retryLoop next done false orig fuel (Examples.defaultPolicy 3) 1 0%nat
      = Some ((None, Some wrapped), Examples.defaultPolicy 5, 2%nat).
Proof.
  intros next done orig.
  assert (Hreach : Retry.reaches next done false orig 1 (Examples.defaultPolicy 3) 0%nat
                     2 (Examples.defaultPolicy 4) 1%nat).
  { eapply (Retry.reaches_retry next done false orig 1 (Examples.defaultPolicy 3) 0%nat
              orig (Some (Examples.status 503)) None 1%nat 212000000
              (Examples.defaultPolicy 4)).
    - reflexivity.
    - reflexivity.
    - vm_compute; reflexivity.
    - reflexivity.
    - discriminate.
    - apply Retry.reaches_here. }
  split; [exact Hreach |].
  split; [reflexivity |]. split; [reflexivity |].
  split; [vm_compute; reflexivity |]. split; [lia |]. split; [reflexivity |].
  apply (wait_interrupted_by_context next done false orig
           (Examples.defaultPolicy 3) (Examples.defaultPolicy 4) (Examples.defaultPolicy 5)
           0%nat 1%nat 2%nat 2 432000000 orig (Some (Examples.status 503)) None
           context_DeadlineExceeded).
  - exact Hreach.
  - reflexivity.
  - reflexivity.
  - vm_compute; reflexivity.
  - lia.
  - reflexivity.
Defined.

(** ** Circuit breaker manager *)

Section BreakerFacts.

Context {T : Type}.
Implicit Types (m : Breaker.manager) (host : string) (now : Z).
Implicit Types fn : T -> (option http_Response * option error) * T.





(** A call to an open breaker before the cool-down has elapsed is
    rejected; the wrapped call does not run and nothing changes. *)
Lemma Do_open m host now fn (t : T) (t0 : Z) :
  BreakerSpec.wellFormed m ->
  host <> EmptyString ->
  BreakerSpec.openSince m host t0 ->
  now - t0 < Breaker.defaultDuration (Breaker.Timeout (Breaker.config m)) (30 * Second) ->
  Breaker.Do m now host fn t = ((None, Some Breaker.ErrOpenState), m, t).
Proof.
  intros Hwf Hhost (cb & Hl & Hst & Hsince) Hnow.
  unfold Breaker.Do. rewrite decide_False by done.
  unfold Breaker.get. rewrite Hl.
  unfold Breaker.Execute, Breaker.currentState. rewrite Hst, (Hwf _ _ Hl), Hsince.
  cbn [Breaker.settingsFor Breaker.sTimeout].
  destruct (Z.leb_spec
    (Breaker.defaultDuration (Breaker.Timeout (Breaker.config m)) (30 * Second)) (now - t0));
    [lia |].
  rewrite Hst. rewrite insert_id by done. destruct m; done.
Qed.



End BreakerFacts.



(** The scenario of section 8 run on the definitions: five refused
    connections to one host at times 1 to 5 open its breaker; a sixth
    call one second later is rejected and the transport still counts five
    requests, while a call to another host goes through; a call to the
    first host after the default cool-down of 30 s goes through as well. *)
Example breaker_opens_after_five_failures :
  let m := Breaker.NewManager (Breaker.mkConfig EmptyString 0 0 None) in
  let refused := fun t : nat =>
    Examples.failing (net_Error false false "connection refused") t Examples.getRequest in
  let served := fun t : nat => Examples.always (Examples.status 500) t Examples.getRequest in
  let '(m5, t5) := BreakerSpec.DoAll m "h1" [(1, refused); (2, refused); (3, refused);
                                             (4, refused); (5, refused)] 0%nat in
  t5 = 5%nat /\
  fst (fst (Breaker.Do m5 (5 + Second) "h1" served t5)) = (None, Some Breaker.ErrOpenState) /\
  snd (Breaker.Do m5 (5 + Second) "h1" served t5) = 5%nat /\
  fst (fst (Breaker.Do m5 (5 + Second) "h2" served t5)) = (Some (Examples.status 500), None) /\
  snd (Breaker.Do m5 (5 + Second) "h2" served t5) = 6%nat /\
  snd (Breaker.Do m5 (5 + 30 * Second) "h1" served t5) = 6%nat.
Proof. vm_compute. repeat split. Qed.

(** ** API-key provider *)

Lemma newAPIKey_location (opts : Auth.APIKeyOptions) :
  Auth.location (Auth.newAPIKey opts) <> EmptyString.
Proof.
  unfold Auth.newAPIKey. cbn [Auth.location]. case_decide as Hl; [done | exact Hl].
Qed.

(** C8 (as amended): [Apply] of an API-key provider fails exactly when
    the secret is empty, or the location (trimmed, in lower case, header
    when empty) is neither header nor query, or the location is query and
    the request has no URL.  For query placement on a request with a URL
    it succeeds with the named query parameter set to the secret, the
    other parameters and the headers as they were; for header placement
    it succeeds with the named header set to the secret and the URL as it
    was. *)
Theorem apiKey_Apply_outcome (opts : Auth.APIKeyOptions) (req : http_Request) :
  let p := Auth.newAPIKey opts in
  ((exists e, Auth.apiKey_Apply p req = inl e) <->
   (Auth.Key opts = EmptyString \/
    (Auth.location p <> "header"%string /\ Auth.location p <> "query"%string) \/
    (Auth.location p = "query"%string /\ URL req = None))) /\
  (forall u, Auth.Key opts <> EmptyString -> Auth.location p = "query"%string ->
     URL req = Some u ->
     exists req' u',
       Auth.apiKey_Apply p req = inr req' /\ URL req' = Some u' /\
       Values_Get (Query u') (Auth.name p) = Auth.Key opts /\
       (forall k, k <> Auth.name p -> Query u' !! k = Query u !! k) /\
       ReqHeader req' = ReqHeader req) /\
  (Auth.Key opts <> EmptyString -> Auth.location p = "header"%string ->
     exists req',
       Auth.apiKey_Apply p req = inr req' /\
       Header_Get (ReqHeader req') (Auth.name p) = Auth.Key opts /\
       URL req' = URL req).
Proof.
  intros p. pose proof (newAPIKey_location opts) as Hloc. fold p in Hloc.
  assert (Hkey : Auth.key p = Auth.Key opts) by reflexivity.
  unfold Auth.apiKey_Apply. rewrite Hkey.
  split; [| split].
  - destruct (decide (Auth.Key opts = EmptyString)) as [Hk | Hk].
    { split; [auto | eauto]. }
    destruct (decide (Auth.location p = "query"%string)) as [Hq | Hq].
    { destruct (URL req) as [u |].
      - split; [intros [e He]; done |]. intros [? | [[_ ?] | [_ ?]]]; done.
      - split; [auto | eauto]. }
    destruct (decide (Auth.location p = "header"%string \/ Auth.location p = EmptyString))
      as [Hh | Hh].
    { split; [intros [e He]; done |]. intros [? | [[? _] | [? _]]]; try done.
      destruct Hh; done. }
    split; [| eauto]. intros _. right. left. split; [| done]. intros Heq. apply Hh. auto.
  - intros u Hk Hq Hu. rewrite decide_False by done. rewrite decide_True by done.
    rewrite Hu. eexists _, _. split; [reflexivity |]. cbn [URL Query ReqHeader].
    split; [reflexivity |]. cbn [Query]. unfold Values_Get, Values_Set.
    split; [rewrite lookup_insert_eq; done |]. split; [| done].
    intros k Hne. rewrite lookup_insert_ne; done.
  - intros Hk Hh. rewrite decide_False by done.
    rewrite decide_False by (rewrite Hh; done). rewrite decide_True by auto.
    eexists. split; [reflexivity |]. cbn [URL ReqHeader].
    split; [| done]. unfold Header_Get, Header_Set. rewrite lookup_insert_eq. done.
Qed.

(** C8, counterexample: the secret is not empty and the location is
    query, and still [Apply] fails, on a request that has no URL. *)
Lemma apiKey_Apply_fails_without_URL :
  let p := Auth.newAPIKey (Auth.mkAPIKeyOptions "sekret" "query" "api_key") in
  Auth.key p <> EmptyString /\ Auth.location p = "query"%string /\
  Auth.apiKey_Apply p (mkRequest "GET" None ∅ None None 0)
    = inl (errors_New "request URL is nil").
Proof. repeat split. discriminate. Qed.

(** The scenario of section 8: the provider for query placement with
    name api_key and secret sekret, applied to GET /x. *)
Example apiKey_query_scenario :
  let provider := Auth.NewAPIKey (Auth.mkAPIKeyOptions "sekret" "query" "api_key") in
  let req := mkRequest "GET" (Some (mkURL "" "" "/x" ∅)) ∅ None None 0 in
  exists req' u', Auth.Apply provider req = inr req' /\ URL req' = Some u' /\
                  Query u' !! "api_key"%string = Some ["sekret"%string].
Proof. eexists _, _. vm_compute. repeat split. Qed.

(** ** Response wrapper *)

Lemma ensureBody_settled (r : Httpc.Response) :
  Httpc.loaded r = true \/ Httpc.err r <> None ->
  Httpc.ensureBody r = (Httpc.err r, r).
Proof.
  intros Hs. unfold Httpc.ensureBody.
  destruct (Httpc.loaded r); [done |]. destruct Hs as [? | Hs]; [done |].
  rewrite bool_decide_eq_true_2; done.
Qed.

Lemma ensureBody_settles (r : Httpc.Response) :
  let r1 := snd (Httpc.ensureBody r) in
  Httpc.err r1 = fst (Httpc.ensureBody r) /\
  (Httpc.loaded r1 = true \/ Httpc.err r1 <> None).
Proof.
  unfold Httpc.ensureBody.
  destruct (Httpc.loaded r) eqn:Hl; [cbn; rewrite Hl; auto |].
  case_bool_decide as He; cbn [orb].
  { cbn. auto. }
  assert (He' : Httpc.err r = None) by (destruct (Httpc.err r); done).
  destruct (Httpc.raw r) as [rw |]; [| cbn; auto].
  destruct (RespBody rw) as [b |]; [| cbn; auto].
  unfold io_ReadAll. destruct (readErr b); cbn; auto.
Qed.

Lemma BytesTimes_settled (n : nat) (r : Httpc.Response) :
  Httpc.loaded r = true \/ Httpc.err r <> None ->
  Httpc.BytesTimes n r = (repeat (fst (Httpc.Bytes r)) n, r).
Proof.
  intros Hs. induction n as [| n IH]; [done |].
  cbn [Httpc.BytesTimes repeat]. unfold Httpc.Bytes in *.
  rewrite ensureBody_settled in * by done. destruct (Httpc.err r); cbn in *; rewrite IH; done.
Qed.

Lemma accessors_materialize_alike (r : Httpc.Response) :
  snd (Httpc.Bytes r) = snd (Httpc.ensureBody r) /\
  snd (Httpc.String_ r) = snd (Httpc.ensureBody r) /\
  (forall V (unmarshal : list Byte.byte -> error + V),
     snd (Httpc.DecodeJSON unmarshal r) = snd (Httpc.ensureBody r)).
Proof.
  unfold Httpc.String_, Httpc.Bytes, Httpc.DecodeJSON.
  destruct (Httpc.ensureBody r) as [[e |] r1]; cbn; repeat split; try done.
  intros V unmarshal. destruct (length (Httpc.body r1) =? 0)%nat; done.
Qed.

(** C9: on a fresh response the first call of [Bytes] (or of [String] or
    [DecodeJSON], which leave the response in the same state) reads the
    underlying body once and closes it; every later call of [Bytes]
    returns what the first returned, [String] returns the same bytes as a
    string, and none of the later calls changes the response, so the
    underlying body is not read again. *)
Theorem body_read_at_most_once (resp : option http_Response) :
  let r0 := Httpc.newResponse resp in
  let first := fst (Httpc.Bytes r0) in
  let r1 := snd (Httpc.Bytes r0) in
  (forall n, Httpc.BytesTimes n r1 = (repeat first n, r1)) /\
  Httpc.String_ r1 = (match first with
                      | inl e => inl e
                      | inr b => inr (string_of_list_byte b)
                      end, r1) /\
  (forall V (unmarshal : list Byte.byte -> error + V),
     snd (Httpc.DecodeJSON unmarshal r1) = r1) /\
  snd (Httpc.String_ r0) = r1 /\
  (forall V (unmarshal : list Byte.byte -> error + V),
     snd (Httpc.DecodeJSON unmarshal r0) = r1) /\
  (forall rw b, resp = Some rw -> RespBody rw = Some b ->
     first = match readErr b with
             | Some e => inl e
             | None => inr (pending b)
             end /\
     exists rw', Httpc.raw r1 = Some rw' /\
       RespBody rw' = Some (mkReadCloser [] (readErr b) (S (reads b)) (S (closes b)))).
Proof.
  intros r0 first r1.
  destruct (accessors_materialize_alike r0) as (Hb & Hs & Hd).
  fold r1 in Hb.
  assert (Hset : Httpc.loaded r1 = true \/ Httpc.err r1 <> None).
  { rewrite Hb. apply ensureBody_settles. }
  assert (Hfix : Httpc.Bytes r1 = (first, r1)).
  { subst first r1. unfold Httpc.Bytes in *.
    destruct (ensureBody_settles r0) as [Herr _].
    destruct (Httpc.ensureBody r0) as [eo r'].
    assert (Hr' : (let '(e, r'0) := (eo, r') in
                   match e with
                   | Some e0 => (inl e0, r'0)
                   | None => (inr (Httpc.body r'0), r'0)
                   end).2 = r') by (destruct eo; done).
    rewrite Hr' in *. cbn [fst snd] in Herr.
    rewrite (ensureBody_settled r' Hset), Herr. destruct eo; done. }
  assert (Hagain : fst (Httpc.Bytes r1) = first) by (rewrite Hfix; done).
  assert (Hsame : snd (Httpc.Bytes r1) = r1) by (rewrite Hfix; done).
  split; [| split; [| split; [| split; [| split]]]].
  - intros n. rewrite (BytesTimes_settled n r1 Hset), Hagain. done.
  - unfold Httpc.String_. rewrite (surjective_pairing (Httpc.Bytes r1)), Hagain, Hsame.
    destruct first; done.
  - intros V unmarshal. destruct (accessors_materialize_alike r1) as (_ & _ & Hd1).
    rewrite Hd1, (ensureBody_settled r1 Hset). done.
  - rewrite Hs, <- Hb. done.
  - intros V unmarshal. rewrite Hd, <- Hb. done.
  - intros rw b -> Hbody. subst first r1 r0.
    unfold Httpc.Bytes, Httpc.ensureBody, Httpc.newResponse. cbn. rewrite Hbody.
    unfold io_ReadAll, Close. destruct (readErr b); cbn; eauto.
Qed.

(** The wrapper on a concrete body: three bytes, read by [Bytes], then by
    [String] and [Bytes] again. *)
Example body_read_once_example :
  let source := newBody [Byte.x01; Byte.x02; Byte.x03] in
  let r0 := Httpc.newResponse (Some (mkResponse 200 ∅ (Some source))) in
  let '(b1, r1) := Httpc.Bytes r0 in
  let '(s2, r2) := Httpc.String_ r1 in
  let '(b3, r3) := Httpc.Bytes r2 in
  b1 = inr [Byte.x01; Byte.x02; Byte.x03] /\ b3 = b1 /\ r3 = r1 /\
  (RespBody <$> Httpc.raw r3) = Some (Some (mkReadCloser [] None 1 1)).
Proof. vm_compute. repeat split. Qed.

(** ** Request builder *)

Section BuilderFacts.

Context {R : Type}.
Variable parseRest : string -> string -> error + (string * string * gmap string (list string)).
Variable url_String : url_URL -> string.

Lemma HasPrefix_slash (s : string) :
  Strings.HasPrefix s "/" = true -> exists s', s = String "/" s'.
Proof.
  destruct s as [| c s']; [done |]. unfold Strings.HasPrefix.
  cbn [String.prefix]. destruct (ascii_dec "/" c) as [<- | ?]; [eauto | done].
Qed.

(** A target that begins with a slash has no scheme. *)
Lemma isAbsoluteURL_leading_slash (target : string) :
  Strings.HasPrefix target "/" = true -> Httpc.isAbsoluteURL parseRest target = false.
Proof.
  intros [s' ->]%HasPrefix_slash. unfold Httpc.isAbsoluteURL, Httpc.url_Parse.
  change (Httpc.getScheme (String "/" s')) with (@inr error _ (EmptyString, String "/" s')).
  cbn [mbind error_bind].
  destruct (parseRest "" (String "/" s')) as [e | [[host path] query]]; done.
Qed.

(** C7, the behaviour of the code where the claim fails: with a base URL
    configured, a target that begins with a slash is joined to the base
    URL, its trailing slashes trimmed, with the leading slashes of the
    target trimmed and no separator in between, which is not the URL the
    claim describes (the same with one slash as separator). *)
Theorem resolveTarget_drops_separator (r : Httpc.Request R) (baseURL : string) :
  baseURL <> EmptyString ->
  Strings.HasPrefix (Httpc.url r) "/" = true ->
  Httpc.resolveTarget parseRest r baseURL
    = (Strings.TrimRight baseURL "/" ++ Strings.TrimLeft (Httpc.url r) "/")%string /\
  Httpc.resolveTarget parseRest r baseURL
    <> (Strings.TrimRight baseURL "/" ++ "/" ++ Strings.TrimLeft (Httpc.url r) "/")%string.
Proof.
  intros Hbase Hslash.
  assert (Heq : Httpc.resolveTarget parseRest r baseURL
    = (Strings.TrimRight baseURL "/" ++ Strings.TrimLeft (Httpc.url r) "/")%string).
  { unfold Httpc.resolveTarget.
    rewrite bool_decide_eq_false_2 by done.
    rewrite isAbsoluteURL_leading_slash by done. rewrite Hslash. done. }
  split; [exact Heq |]. rewrite Heq. intros Habs.
  apply (String.app_inj (Strings.TrimRight baseURL "/")) in Habs.
  apply (f_equal String.length) in Habs.
  change (String.length (Strings.TrimLeft (Httpc.url r) "/")
          = S (String.length (Strings.TrimLeft (Httpc.url r) "/"))) in Habs.
  lia.
Qed.

Lemma foldl_Header_Add_other (vv : list string) (h : gmap string (list string))
    (k K : string) :
  CanonicalMIMEHeaderKey k <> K ->
  foldl (fun h v => Header_Add h k v) h vv !! K = h !! K.
Proof.
  intros Hne. revert h. induction vv as [| v vv IH]; intros h; [done |].
  cbn [foldl]. rewrite IH. unfold Header_Add. rewrite lookup_insert_ne; done.
Qed.

(** Copying headers none of which is [K] in canonical form leaves [K] as
    it was. *)
Lemma copyHeaders_other (h hs : gmap string (list string)) (K : string) :
  (forall k vv, hs !! k = Some vv -> CanonicalMIMEHeaderKey k <> K) ->
  Httpc.copyHeaders h hs !! K = h !! K.
Proof.
  unfold Httpc.copyHeaders.
  apply (map_fold_weak_ind
    (fun (res : gmap string (list string)) (m : gmap string (list string)) =>
       (forall k vv, m !! k = Some vv -> CanonicalMIMEHeaderKey k <> K) -> res !! K = h !! K)).
  - done.
  - intros k vv m res Hfresh IH Hall.
    rewrite foldl_Header_Add_other.
    + apply IH. intros k' vv' Hl. apply (Hall k' vv').
      rewrite lookup_insert_ne; [done |]. intros ->. congruence.
    + apply (Hall k vv). apply lookup_insert_eq.
Qed.

(** C2, the behaviour of the code where the claim fails: when the body
    factory returns a non-empty content type and the caller has set no
    Content-Type header, the wire request carries the factory's content
    type, whatever content type the caller has set on the request. *)
Theorem factory_content_type_wins (r : Httpc.Request R) (baseURL userAgent : string)
    (rc : ReadCloser) (cl : Z) (ctype : string) (httpReq : http_Request) :
  Httpc.bodyFactory r = Some (inr (rc, cl, ctype)) ->
  ctype <> EmptyString ->
  (forall k vv, Httpc.headers r !! k = Some vv ->
                CanonicalMIMEHeaderKey k <> "Content-Type"%string) ->
  Httpc.buildHTTPRequest parseRest url_String r baseURL userAgent = inr httpReq ->
  Header_Get (ReqHeader httpReq) "Content-Type" = ctype.
Proof.
  intros Hbf Hct Hhdr. unfold Httpc.buildHTTPRequest.
  destruct (Httpc.mergeQuery parseRest url_String r (Httpc.resolveTarget parseRest r baseURL))
    as [e | target]; [done |].
  cbn [mbind error_bind]. rewrite Hbf. cbn [mbind error_bind].
  rewrite (bool_decide_eq_false_2 (ctype = EmptyString)) by done. cbn [negb].
  unfold Httpc.http_NewRequestWithContext.
  destruct (negb (Httpc.validMethod _)); [done |].
  destruct (Httpc.url_Parse parseRest target) as [e | u]; [done |].
  cbn [mbind error_bind ReqHeader Method URL Body]. intros [= <-]. cbn [ReqHeader].
  change (CanonicalMIMEHeaderKey "Content-Type") with "Content-Type"%string in *.
  set (h0 := Httpc.copyHeaders ∅ (Httpc.headers r)).
  assert (H0 : h0 !! "Content-Type"%string = None).
  { subst h0. rewrite copyHeaders_other by done. apply lookup_empty. }
  set (h1 := if _ : bool then Header_Set h0 "User-Agent" userAgent else h0).
  assert (H1 : h1 !! "Content-Type"%string = None).
  { subst h1. destruct (_ && _); [| done].
    unfold Header_Set. rewrite lookup_insert_ne; [done |]. vm_compute. discriminate. }
  assert (Hget : Header_Get h1 "Content-Type" = EmptyString).
  { unfold Header_Get.
    change (CanonicalMIMEHeaderKey "Content-Type") with "Content-Type"%string.
    rewrite H1. done. }
  rewrite Hget. rewrite (bool_decide_eq_true_2 (EmptyString = EmptyString)) by done.
  rewrite (bool_decide_eq_false_2 (ctype = EmptyString)) by done.
  cbn [negb andb].
  set (h2 := Header_Set h1 "Content-Type" ctype).
  assert (H2 : Header_Get h2 "Content-Type" = ctype).
  { subst h2. unfold Header_Get, Header_Set.
    change (CanonicalMIMEHeaderKey "Content-Type") with "Content-Type"%string.
    rewrite lookup_insert_eq. done. }
  destruct (negb (bool_decide (Httpc.accept r = EmptyString)) && _); [| done].
  unfold Header_Get in *. unfold Header_Set at 1.
  change (CanonicalMIMEHeaderKey "Content-Type") with "Content-Type"%string in *.
  rewrite lookup_insert_ne; [done |]. vm_compute. discriminate.
Qed.

(** The parts of URL resolution on which code and claim agree: an
    absolute target, or any target when no base URL is configured, is
    used as it is; a relative target without a leading slash is joined to
    the trimmed base URL with one slash. *)
Lemma resolveTarget_verbatim (r : Httpc.Request R) (baseURL : string) :
  baseURL = EmptyString \/ Httpc.isAbsoluteURL parseRest (Httpc.url r) = true ->
  Httpc.resolveTarget parseRest r baseURL = Httpc.url r.
Proof.
  intros Hcase. unfold Httpc.resolveTarget. destruct Hcase as [-> | ->].
  - rewrite bool_decide_eq_true_2; done.
  - rewrite andb_false_r. done.
Qed.

Lemma TrimLeft_no_prefix (s : string) :
  Strings.HasPrefix s "/" = false -> Strings.TrimLeft s "/" = s.
Proof.
  destruct s as [| c s']; [done |]. unfold Strings.HasPrefix.
  cbn [String.prefix Strings.TrimLeft Strings.containsByte].
  destruct (ascii_dec "/" c) as [<- | Hne]; [destruct s'; done |].
  intros _. destruct (Ascii.eqb_spec c "/"); [congruence | done].
Qed.

Lemma resolveTarget_relative (r : Httpc.Request R) (baseURL : string) :
  baseURL <> EmptyString ->
  Httpc.isAbsoluteURL parseRest (Httpc.url r) = false ->
  Strings.HasPrefix (Httpc.url r) "/" = false ->
  Httpc.resolveTarget parseRest r baseURL
    = (Strings.TrimRight baseURL "/" ++ "/" ++ Strings.TrimLeft (Httpc.url r) "/")%string /\
  Strings.TrimLeft (Httpc.url r) "/" = Httpc.url r.
Proof.
  intros Hbase Habs Hslash. split; [| apply TrimLeft_no_prefix; done].
  unfold Httpc.resolveTarget. rewrite bool_decide_eq_false_2 by done.
  rewrite Habs, Hslash. cbn [negb andb].
  generalize (Strings.TrimRight baseURL "/") (Strings.TrimLeft (Httpc.url r) "/").
  intros s1 s2. induction s1 as [| c s1 IH]; [done |].
  change (String c s1 +:+ "/" +:+ s2) with (String c (s1 +:+ "/" +:+ s2)).
  change ((String c s1 +:+ "/") +:+ s2) with (String c ((s1 +:+ "/") +:+ s2)).
  rewrite IH. done.
Qed.

Lemma foldl_Values_Add (vv : list string) (q : gmap string (list string)) (k k' : string) :
  foldl (fun q v => Values_Add q k v) q vv !! k' =
  if decide (k = k') then
    match vv with
    | [] => q !! k'
    | _ => Some (default [] (q !! k') ++ vv)
    end
  else q !! k'.
Proof.
  revert q. induction vv as [| v vv IH]; intros q; [case_decide; done |].
  cbn [foldl]. rewrite IH. unfold Values_Add. case_decide as Hk.
  - subst k'. rewrite lookup_insert_eq.
    destruct vv; [done |]. cbn. rewrite <- app_assoc. done.
  - rewrite lookup_insert_ne; done.
Qed.

(** Query merge: the values a request adds under a key come after the
    values the target's query string already has under that key; keys the
    request does not mention keep their values. *)
Lemma addQueries_appends (q queries : gmap string (list string)) (k : string) :
  Httpc.addQueries q queries !! k =
  match queries !! k with
  | Some (v :: vv) => Some (default [] (q !! k) ++ v :: vv)
  | _ => q !! k
  end.
Proof.
  unfold Httpc.addQueries. revert k.
  apply (map_fold_weak_ind
    (fun (res : gmap string (list string)) (m : gmap string (list string)) =>
       forall k, res !! k = match m !! k with
                            | Some (v :: vv) => Some (default [] (q !! k) ++ v :: vv)
                            | _ => q !! k
                            end)).
  - intros k. rewrite lookup_empty. done.
  - intros i x m res Hfresh IH k. rewrite foldl_Values_Add. case_decide as Hk.
    + subst i. rewrite lookup_insert_eq. rewrite IH, Hfresh. destruct x; done.
    + rewrite lookup_insert_ne by done. apply IH.
Qed.

Lemma foldl_Header_Add_same (vv : list string) (h : gmap string (list string)) (k : string) :
  foldl (fun h v => Header_Add h k v) h vv !! CanonicalMIMEHeaderKey k =
  match vv with
  | [] => h !! CanonicalMIMEHeaderKey k
  | _ => Some (default [] (h !! CanonicalMIMEHeaderKey k) ++ vv)
  end.
Proof.
  revert h. induction vv as [| v vv IH]; intros h; [done |].
  cbn [foldl]. rewrite IH. unfold Header_Add. rewrite lookup_insert_eq.
  destruct vv; [done |]. cbn. rewrite <- app_assoc. done.
Qed.

(** Header precedence, the part on which code and claim agree: a header
    the caller has set to a non-empty value is what [Header.Get] finds
    after the copy, so no computed default replaces it. *)
Lemma copyHeaders_keeps (hs : gmap string (list string)) (K v : string) (vv : list string) :
  CanonicalMIMEHeaderKey K = K ->
  hs !! K = Some (v :: vv) ->
  (forall k xs, hs !! k = Some xs -> k <> K -> CanonicalMIMEHeaderKey k <> K) ->
  Header_Get (Httpc.copyHeaders ∅ hs) K = v.
Proof.
  intros HK Hl Hothers. unfold Header_Get. rewrite HK.
  assert (Hcopy : Httpc.copyHeaders ∅ hs !! K =
                  match hs !! K with
                  | Some (x :: xs) => Some (x :: xs)
                  | _ => None
                  end); [| rewrite Hcopy, Hl; done].
  clear Hl. revert Hothers. unfold Httpc.copyHeaders.
  apply (map_fold_weak_ind
    (fun (res : gmap string (list string)) (m : gmap string (list string)) =>
       (forall k xs, m !! k = Some xs -> k <> K -> CanonicalMIMEHeaderKey k <> K) ->
       res !! K = match m !! K with
                  | Some (x :: xs) => Some (x :: xs)
                  | _ => None
                  end)).
  - intros _. rewrite !lookup_empty. done.
  - intros i x m res Hfresh IH Hall.
    assert (Hres : res !! K = match m !! K with
                              | Some (y :: ys) => Some (y :: ys)
                              | _ => None
                              end).
    { apply IH. intros k xs Hk Hne. apply (Hall k xs); [| done].
      rewrite lookup_insert_ne; [done |]. intros ->. congruence. }
    destruct (decide (i = K)) as [-> | Hne].
    + rewrite lookup_insert_eq. rewrite <- HK at 1.
      rewrite foldl_Header_Add_same, HK, Hres, Hfresh. destruct x; done.
    + rewrite lookup_insert_ne by done. rewrite foldl_Header_Add_other; [done |].
      apply (Hall i x); [apply lookup_insert_eq | done].
Qed.


End BuilderFacts.

Lemma resolveTarget_drops_separator_witness :
  let r : Httpc.Request nat := Httpc.newRequest "GET" "/api/users" [] in
  "https://api.example.com"%string <> EmptyString /\
  Strings.HasPrefix (Httpc.url r) "/" = true /\
  Httpc.resolveTarget Examples.parseRest r "https://api.example.com"
    = "https://api.example.comapi/users"%string /\
  Httpc.resolveTarget Examples.parseRest r "https://api.example.com"
    <> "https://api.example.com/api/users"%string.
Proof.
  intros r. split; [discriminate |]. split; [reflexivity |].
  apply (resolveTarget_drops_separator Examples.parseRest r "https://api.example.com");
    [discriminate | reflexivity].
Defined.

Lemma factory_content_type_wins_witness :
  let r : Httpc.Request nat :=
    Httpc.newRequest "POST" "https://api.example.com/test"
      [Httpc.WithJSON (inr Examples.demoPayload); Httpc.WithContentType "text/plain"] in
  Httpc.contentType r = "text/plain"%string /\
  Httpc.bodyFactory r
    = Some (inr (newBody Examples.demoPayload, 15, "application/json"%string)) /\
  "application/json"%string <> EmptyString /\
  (forall k vv, Httpc.headers r !! k = Some vv ->
                CanonicalMIMEHeaderKey k <> "Content-Type"%string) /\
  exists httpReq,
    Httpc.buildHTTPRequest Examples.parseRest Examples.url_String r
      EmptyString Httpc.defaultUserAgent = inr httpReq /\
    Header_Get (ReqHeader httpReq) "Content-Type" = "application/json"%string.
Proof.
  intros r.
  assert (Hhdr : forall k vv, Httpc.headers r !! k = Some vv ->
                              CanonicalMIMEHeaderKey k <> "Content-Type"%string).
  { intros k vv Hl. cbn in Hl. rewrite lookup_empty in Hl. discriminate. }
  split; [reflexivity |]. split; [reflexivity |]. split; [discriminate |].
  split; [exact Hhdr |].
  eexists. split; [vm_compute; reflexivity |].
  apply (factory_content_type_wins Examples.parseRest Examples.url_String r
           EmptyString Httpc.defaultUserAgent (newBody Examples.demoPayload) 15
           "application/json").
  - reflexivity.
  - discriminate.
  - exact Hhdr.
  - vm_compute; reflexivity.
Defined.

(** * Further properties of the code *)

(** ** Retry policy and middleware *)

Section RetryMore.

Context {R : Type} `{Retry.RandSource R} {T : Type}.

(** The loop of the middleware under the package's policy, for a
    request that has a URL, counting attempts: started at attempt [a]
    with [c] requests counted, it ends within [k + 1] iterations when
    [maxAttempts - a <= k], having sent at most that many further
    requests, and at least one if the request for attempt [a] could be
    prepared. *)
Lemma retryLoop_bounded (next : RoundTripper T) (done : Z -> option error)
    (force : bool) (orig : http_Request) (k : nat) :
  URL orig <> None ->
  forall (p : Retry.policy R) (a : Z) (t : T) (c : nat) (extra : nat),
  Retry.maxAttempts p - a <= Z.of_nat k ->
  exists res p' t' n,
    Retry.retryLoop (RetrySpec.counted next) done force orig (S k + extra) p a (t, c)
      = Some (res, p', (t', n)) /\
    (c <= n <= c + S k)%nat /\
    (forall cur, Retry.prepareAttemptRequest orig a = inr cur -> (c < n)%nat) /\
    RetrySpec.sameSettings p' p.
Proof.
  intros Hurl. induction k as [| k IH]; intros p a t c extra Hk.
  - cbn [Retry.retryLoop Nat.add].
    destruct (Retry.prepareAttemptRequest orig a) as [e | cur].
    { eexists _, _, _, _. split; [reflexivity |]. repeat split; [lia | lia | done ..]. }
    cbn [RetrySpec.counted]. destruct (next t cur) as [[resp err] t1].
    unfold Retry.ShouldRetry, Retry.policy_Policy.
    assert (Hstop : Retry.policy_ShouldRetry p cur resp err a force = ((0, false), p)).
    { unfold Retry.policy_ShouldRetry.
      destruct (Z.geb_spec a (Retry.maxAttempts p)); [done | lia]. }
    rewrite Hstop. cbn [negb].
    eexists _, _, _, _. split; [reflexivity |]. repeat split; [lia | lia | lia | done ..].
  - change (S (S k) + extra)%nat with (S (S k + extra)). cbn [Retry.retryLoop].
    destruct (Retry.prepareAttemptRequest orig a) as [e | cur].
    { eexists _, _, _, _. split; [reflexivity |]. repeat split; [lia | lia | done ..]. }
    cbn [RetrySpec.counted]. destruct (next t cur) as [[resp err] t1].
    unfold Retry.ShouldRetry, Retry.policy_Policy.
    pose proof (ShouldRetry_sameSettings p cur resp err a force) as Hsame.
    destruct (Retry.policy_ShouldRetry p cur resp err a force)
      as [[delay retryable] p1] eqn:Hsr.
    cbn [snd] in Hsame. destruct retryable; cbn [negb].
    + destruct (Retry.waitWithContext (done a) delay) as [e |].
      { eexists _, _, _, _. split; [reflexivity |]. repeat split; [lia | lia | lia | apply Hsame ..]. }
      destruct (IH p1 (a + 1) t1 (S c) extra) as (res & p' & t' & n & Hrun & Hn & _ & Hs).
      { destruct Hsame as (-> & _). lia. }
      exists res, p', t', n. split; [destruct (URL orig); [exact Hrun | done] |].
      split; [lia |]. split; [intros; lia |].
      eapply sameSettings_trans; done.
    + eexists _, _, _, _. split; [reflexivity |]. repeat split; [lia | lia | lia | apply Hsame ..].
Qed.

(** X1: under the package's policy, for a request that has a URL, the
    middleware always returns, and a call sends at least one and at most
    [max 1 maxAttempts] requests to the transport, whatever the
    transport answers and whatever becomes of the context.  (Without a
    URL the log line after a wait that ran to its end panics.) *)
Theorem retry_sends_at_most_maxAttempts (next : RoundTripper T)
    (done : Z -> option error) (force : bool) (orig : http_Request)
    (p : Retry.policy R) (t : T) (extra : nat) :
  URL orig <> None ->
  let budget := Z.to_nat (Z.max 1 (Retry.maxAttempts p)) in
  exists res p' t' n,
    Retry.retryLoop (RetrySpec.counted next) done force orig (budget + extra) p 1 (t, 0%nat)
      = Some (res, p', (t', n)) /\
    (1 <= n <= budget)%nat /\ RetrySpec.sameSettings p' p.
Proof.
  intros Hurl budget.
  assert (Hb : exists k, budget = S k /\ Retry.maxAttempts p - 1 <= Z.of_nat k).
  { exists (Nat.pred budget). subst budget. split; lia. }
  destruct Hb as (k & -> & Hk).
  destruct (retryLoop_bounded next done force orig k Hurl p 1 t 0%nat extra Hk)
    as (res & p' & t' & n & Hrun & Hn & Hpos & Hs).
  exists res, p', t', n. split; [exact Hrun |]. split; [| done].
  specialize (Hpos orig eq_refl). lia.
Qed.

(** X2: when [ShouldRetry] decides not to retry it returns a zero delay
    and leaves the policy as it was, without a draw from the generator;
    when it decides to retry it makes exactly one draw and changes
    nothing else of the policy; and its decision does not depend on the
    state of the generator or on the backoff bounds. *)
Theorem ShouldRetry_effects (p : Retry.policy R) (req : http_Request)
    (resp : option http_Response) (err : option error) (attempt : Z) (force : bool) :
  let out := Retry.policy_ShouldRetry p req resp err attempt force in
  (snd (fst out) = false -> out = ((0, false), p)) /\
  (snd (fst out) = true ->
     snd out = Retry.mkPolicy (Retry.maxAttempts p) (Retry.baseBackoff p)
                 (Retry.maxBackoff p) (Retry.statusCodes p) (Retry.idempotentOnly p)
                 (snd (Retry.Float64 (Retry.rand p)))) /\
  (forall q, RetrySpec.sameSettings q p ->
     snd (fst (Retry.policy_ShouldRetry q req resp err attempt force)) = snd (fst out)).
Proof.
  intros out. subst out. split; [| split].
  - unfold Retry.policy_ShouldRetry.
    repeat match goal with
           | |- context [if ?b then _ else _] => destruct b
           | |- context [match ?x with Some _ => _ | None => _ end] => destruct x
           end; cbn; try done;
      destruct (Retry.backoff p attempt); done.
  - intros Hretry. rewrite (ShouldRetry_delay _ _ _ _ _ _ Hretry). cbn [snd].
    unfold Retry.backoff. destruct (Retry.Float64 (Retry.rand p)); done.
  - intros q (Hm & Hc & Hi). unfold Retry.policy_ShouldRetry. rewrite Hm, Hc, Hi.
    repeat match goal with
           | |- context [if ?b then _ else _] => destruct b
           | |- context [match ?x with Some _ => _ | None => _ end] => destruct x
           end; cbn; try done;
      destruct (Retry.backoff p attempt), (Retry.backoff q attempt); done.
Qed.

(** X3: the request for attempt 1 is the original request and [GetBody]
    is not called for it; for a later attempt preparation fails exactly
    when [GetBody] fails, with an error that wraps the one of [GetBody],
    and otherwise yields a request with the method, URL, headers,
    [GetBody] and content length of the original, whose body is the fresh
    one [GetBody] returned (the original's when there is no [GetBody]). *)
Theorem prepareAttemptRequest_outcome (req : http_Request) (attempt : Z) :
  Retry.prepareAttemptRequest req 1 = inr req /\
  (forall e', Retry.prepareAttemptRequest req attempt = inl e' <->
     attempt <> 1 /\
     exists e, GetBody req = Some (inl e) /\ e' = fmt_Errorf "reset body" e) /\
  (forall cur, Retry.prepareAttemptRequest req attempt = inr cur ->
     Method cur = Method req /\ URL cur = URL req /\ ReqHeader cur = ReqHeader req /\
     GetBody cur = GetBody req /\ ContentLength cur = ContentLength req /\
     Body cur = (if attempt =? 1 then Body req
                 else match GetBody req with
                      | Some (inr fresh) => Some fresh
                      | _ => Body req
                      end)).
Proof.
  unfold Retry.prepareAttemptRequest, Retry.Clone. split; [done |]. split.
  - intros e'. destruct (Z.eqb_spec attempt 1) as [-> | Hne].
    + split; [done | intros [? _]; done].
    + destruct (GetBody req) as [[e | b] |].
      * split; [intros [= <-]; eauto | intros (_ & e0 & [= <-] & ->); done].
      * split; [done | intros (_ & e0 & ? & _); done].
      * split; [done | intros (_ & e0 & ? & _); done].
  - intros cur. destruct (attempt =? 1); [intros [= <-]; done |].
    destruct (GetBody req) as [[e | b] |] eqn:Hg; [done | |]; intros [= <-]; cbn;
      rewrite ?Hg; done.
Qed.

End RetryMore.

Section RetryCustom.

Context {R : Type} `{Retry.RandSource R} {T : Type}.

(** X4: the context is looked at only during a positive wait: under a
    policy of the caller whose delays are never positive, the result of
    the middleware's loop is the same whatever becomes of the context,
    even a context that is cancelled from the start. *)
Theorem nonpositive_delay_ignores_context
    (f : http_Request -> option http_Response -> option error -> Z -> bool -> Z * bool)
    (next : RoundTripper T) (force : bool) (orig : http_Request) :
  (forall req resp err attempt, fst (f req resp err attempt force) <= 0) ->
  forall (done1 done2 : Z -> option error) (fuel : nat) (attempt : Z) (t : T),
  Retry.retryLoop next done1 force orig fuel (Httpc.customPolicy (R := R) f) attempt t =
  Retry.retryLoop next done2 force orig fuel (Httpc.customPolicy f) attempt t.
Proof.
  intros Hdelay done1 done2 fuel. induction fuel as [| fuel IH]; intros attempt t; [done |].
  cbn [Retry.retryLoop].
  destruct (Retry.prepareAttemptRequest orig attempt) as [e | cur]; [done |].
  destruct (next t cur) as [[resp err] t1].
  unfold Retry.ShouldRetry, Httpc.PolicyValue_Policy.
  specialize (Hdelay cur resp err attempt).
  destruct (f cur resp err attempt force) as [delay retryable]. cbn [fst] in Hdelay.
  destruct retryable; cbn [negb]; [| done].
  unfold Retry.waitWithContext.
  destruct (Z.leb_spec delay 0); [| lia].
  destruct (URL orig); [apply IH | done].
Qed.


End RetryCustom.

Lemma nonpositive_delay_ignores_context_witness :
  (forall req resp err attempt, fst (Examples.retryAtOnce req resp err attempt false) <= 0) /\
  Retry.retryLoop (Examples.always (Examples.status 503)) Examples.background false
    Examples.itemsRequest 5 (Httpc.customPolicy (R := nat) Examples.retryAtOnce) 1 0%nat =
  Retry.retryLoop (Examples.always (Examples.status 503)) Examples.cancelled false
    Examples.itemsRequest 5 (Httpc.customPolicy Examples.retryAtOnce) 1 0%nat.
Proof.
  split; [intros; cbn; lia |].
  apply (nonpositive_delay_ignores_context (R := nat) Examples.retryAtOnce
           (Examples.always (Examples.status 503)) false Examples.itemsRequest).
  intros; cbn; lia.
Defined.


Lemma retry_sends_at_most_maxAttempts_witness :
  URL Examples.itemsRequest <> None /\
  exists res p' t' n,
    Retry.retryLoop (RetrySpec.counted (Examples.always (Examples.status 503)))
      Examples.background false Examples.itemsRequest (3 + 0)
      (Examples.defaultPolicy 0) 1 (0%nat, 0%nat)
      = Some (res, p', (t', n)) /\
    (1 <= n <= 3)%nat /\ RetrySpec.sameSettings p' (Examples.defaultPolicy 0).
Proof.
  split; [discriminate |].
  apply (retry_sends_at_most_maxAttempts (R := nat) (T := nat)
           (Examples.always (Examples.status 503)) Examples.background false
           Examples.itemsRequest (Examples.defaultPolicy 0) 0%nat 0%nat).
  discriminate.
Defined.

(** ** Breaker manager *)

Section BreakerMore.

Context {T : Type}.

(** X6: a call through the manager touches the breaker of its own host
    only: the configuration and the breakers of all other hosts are as
    before, a call with an empty host changes nothing at all, and after a
    call with a non-empty host that host has a breaker. *)
Theorem Do_touches_only_its_host (m : Breaker.manager) (now : Z) (host : string)
    (fn : T -> (option http_Response * option error) * T) (t : T) :
  let m' := snd (fst (Breaker.Do m now host fn t)) in
  Breaker.config m' = Breaker.config m /\
  (forall other, other <> host ->
     Breaker.breakers m' !! other = Breaker.breakers m !! other) /\
  (host = EmptyString -> m' = m) /\
  (host <> EmptyString -> is_Some (Breaker.breakers m' !! host)).
Proof.
  unfold Breaker.Do. destruct (decide (host = EmptyString)) as [-> | Hne].
  - destruct (fn t) as [res t1]. cbn. repeat split; done.
  - assert (Hget : exists cb m1, Breaker.get m host now = (cb, m1) /\
        Breaker.config m1 = Breaker.config m /\
        forall other, other <> host ->
          Breaker.breakers m1 !! other = Breaker.breakers m !! other).
    { unfold Breaker.get. destruct (Breaker.breakers m !! host) as [cb |].
      - eexists _, _. repeat split; done.
      - eexists _, _. split; [reflexivity |]. split; [done |].
        intros other Ho. cbn. rewrite lookup_insert_ne; done. }
    destruct Hget as (cb & m1 & -> & Hcfg & Hother).
    destruct (Breaker.Execute cb now fn t) as [[[result err] cb'] t1].
    set (m2 := Breaker.mkManager (Breaker.config m1) (<[host := cb']> (Breaker.breakers m1))).
    assert (Hm2 : Breaker.config m2 = Breaker.config m /\
      (forall other, other <> host ->
         Breaker.breakers m2 !! other = Breaker.breakers m !! other) /\
      (host = EmptyString -> m2 = m) /\
      (host <> EmptyString -> is_Some (Breaker.breakers m2 !! host))).
    { subst m2. cbn. split; [done |]. split; [| split; [done |]].
      - intros other Ho. rewrite lookup_insert_ne; auto.
      - intros _. rewrite lookup_insert_eq. eauto. }
    destruct err; exact Hm2.
Qed.

(** X7: for a non-empty host the manager never hands back a response
    together with an error (a response that came with an error is
    dropped), and a response it hands back without error is the one the
    wrapped call returned in this very call. *)
Theorem Do_response_or_error (m : Breaker.manager) (now : Z) (host : string)
    (fn : T -> (option http_Response * option error) * T) (t : T) :
  match fst (fst (Breaker.Do m now host fn t)) with
  | (Some _, Some _) => host = EmptyString
  | (Some resp, None) => fst (fn t) = (Some resp, None)
  | _ => True
  end.
Proof.
  unfold Breaker.Do. destruct (decide (host = EmptyString)) as [-> | Hne].
  - destruct (fn t) as [[[resp |] [e |]] t1]; done.
  - destruct (Breaker.get m host now) as [cb m1].
    unfold Breaker.Execute.
    destruct (Breaker.state (Breaker.currentState cb now)); try done;
      destruct (fn t) as [[[resp |] [e |]] t1]; done.
Qed.

(** X8: the per-request override decides whether the breaker takes part:
    while the breaker of the request's host is open and its cool-down
    has not elapsed, a request for which the breaker is enabled (no
    override, or an override to true) is rejected without reaching the
    next transport, and a request with the override set to false goes to
    the next transport and leaves the manager as it is. *)
Theorem override_decides_participation (next : RoundTripper T) (m : Breaker.manager)
    (now t0 : Z) (req : http_Request) (u : url_URL) (t : T) :
  BreakerSpec.wellFormed m ->
  URL req = Some u -> Host u <> EmptyString ->
  BreakerSpec.openSince m (Host u) t0 ->
  now - t0 < Breaker.defaultDuration (Breaker.Timeout (Breaker.config m)) (30 * Second) ->
  (forall ctx : Context unit, overrideValue ctx <> Some false ->
     Breaker.NewMiddleware next m now ctx req t = ((None, Some Breaker.ErrOpenState), m, t)) /\
  (forall ctx : Context unit, overrideValue ctx = Some false ->
     Breaker.NewMiddleware next m now ctx req t = (fst (next t req), m, snd (next t req))).
Proof.
  intros Hwf Hu Hhost Hopen Hnow. split; intros ctx Hctx; unfold Breaker.NewMiddleware, Breaker.Enabled.
  - destruct (overrideValue ctx) as [[] |]; [| done |]; cbn [negb]; rewrite Hu;
      apply (Do_open m (Host u) now _ t t0); done.
  - rewrite Hctx. cbn [negb]. destruct (next t req); done.
Qed.

End BreakerMore.

Lemma override_decides_participation_witness :
  let m := Examples.trippedManager in
  let u := mkURL "https" "api.example.com" "/items" ∅ in
  let req := mkRequest "GET" (Some u) ∅ None None 0 in
  let next := Examples.always (Examples.status 200) in
  BreakerSpec.wellFormed m /\
  URL req = Some u /\ Host u <> EmptyString /\
  BreakerSpec.openSince m (Host u) 100 /\
  (forall ctx : Context unit, overrideValue ctx <> Some false ->
     Breaker.NewMiddleware next m (100 + 29 * Second) ctx req 0%nat
     = ((None, Some Breaker.ErrOpenState), m, 0%nat)) /\
  (forall ctx : Context unit, overrideValue ctx = Some false ->
     Breaker.NewMiddleware next m (100 + 29 * Second) ctx req 0%nat
     = ((Some (Examples.status 200), None), m, 1%nat)).
Proof.
  intros m u req next.
  assert (Hwf : BreakerSpec.wellFormed m).
  { intros h cb Hl. cbn in Hl. apply lookup_singleton_Some in Hl as [<- <-]. reflexivity. }
  assert (Hopen : BreakerSpec.openSince m (Host u) 100).
  { eexists. split; [apply lookup_singleton_eq |]. split; reflexivity. }
  split; [exact Hwf |]. split; [reflexivity |]. split; [discriminate |].
  split; [exact Hopen |].
  apply (override_decides_participation (T := nat) next m (100 + 29 * Second) 100 req u 0%nat);
    [exact Hwf | reflexivity | discriminate | exact Hopen | vm_compute; reflexivity].
Defined.

(** ** Client construction and [Do] *)

Section ClientMore.

Context {R : Type} `{Retry.RandSource R}.

(** X9: whatever options are given, the client [New] builds has no zero
    left in the defaulted fields of its configuration (timeout, attempt
    budget, backoff bounds, retryable statuses) and a non-empty
    User-Agent; a feature that is enabled has its collaborator (retry
    policy, breaker manager), so neither of the two errors of [New] for
    a missing collaborator can arise; and the policy [New] builds itself
    has an attempt budget of at least 1 and is restricted to idempotent
    methods. *)
Theorem New_settles_configuration (opts : list (Httpc.Option R)) (rnd : R) :
  let c := Httpc.New opts rnd in
  Httpc.Timeout (Httpc.cfg c) <> 0 /\
  Httpc.RetryMaxAttempts (Httpc.cfg c) <> 0 /\
  Httpc.RetryBaseBackoff (Httpc.cfg c) <> 0 /\
  Httpc.RetryMaxBackoff (Httpc.cfg c) <> 0 /\
  Httpc.RetryOnStatuses (Httpc.cfg c) <> [] /\
  Httpc.UserAgent (Httpc.cfg c) <> EmptyString /\
  (Httpc.RetryEnabled (Httpc.cfg c) = true -> Httpc.clientRetryPolicy c <> None) /\
  (Httpc.BreakerEnabled (Httpc.cfg c) = true -> Httpc.breakerMgr c <> None) /\
  (Httpc.RetryEnabled (Httpc.cfg c) = true -> Httpc.RetryPolicy (Httpc.cfg c) = None ->
   exists p, Httpc.clientRetryPolicy c = Some (Httpc.builtinPolicy p) /\
             1 <= Retry.maxAttempts p /\ Retry.idempotentOnly p = true).
Proof.
  unfold Httpc.New.
  set (c0 := foldl _ _ opts). clearbody c0.
  assert (Hd : let c1 := Httpc.applyDefaults c0 in
    Httpc.Timeout c1 <> 0 /\ Httpc.RetryMaxAttempts c1 <> 0 /\
    Httpc.RetryBaseBackoff c1 <> 0 /\ Httpc.RetryMaxBackoff c1 <> 0 /\
    Httpc.RetryOnStatuses c1 <> []).
  { cbn. unfold Second, Millisecond.
    destruct (Z.eqb_spec (Httpc.Timeout c0) 0);
    destruct (Z.eqb_spec (Httpc.RetryMaxAttempts c0) 0);
    destruct (Z.eqb_spec (Httpc.RetryBaseBackoff c0) 0);
    destruct (Z.eqb_spec (Httpc.RetryMaxBackoff c0) 0);
    destruct (Httpc.RetryOnStatuses c0); cbn; repeat split; done. }
  set (c1 := Httpc.applyDefaults c0) in *. clearbody c1.
  destruct Hd as (Ht & Ha & Hb & Hm & Hs).
  set (c2 := if decide (Httpc.UserAgent c1 = EmptyString) then _ else c1).
  assert (Hc2 : Httpc.Timeout c2 = Httpc.Timeout c1 /\
    Httpc.RetryMaxAttempts c2 = Httpc.RetryMaxAttempts c1 /\
    Httpc.RetryBaseBackoff c2 = Httpc.RetryBaseBackoff c1 /\
    Httpc.RetryMaxBackoff c2 = Httpc.RetryMaxBackoff c1 /\
    Httpc.RetryOnStatuses c2 = Httpc.RetryOnStatuses c1 /\
    Httpc.UserAgent c2 <> EmptyString).
  { subst c2. case_decide; cbn; repeat split; done. }
  clearbody c2. destruct Hc2 as (E1 & E2 & E3 & E4 & E5 & Hua).
  cbn. repeat (split; [congruence |]). split; [| split].
  - intros He. destruct (Httpc.RetryPolicy c2); [done | rewrite He; done].
  - intros He. destruct (Httpc.Breaker c2); [done | rewrite He; done].
  - intros He Hp. rewrite Hp, He. eexists. split; [reflexivity |].
    split; [| reflexivity]. cbn.
    destruct (Z.leb_spec (Httpc.RetryMaxAttempts c2) 0); lia.
Qed.

(** X10: applying the configuration defaults twice is the same as
    applying them once. *)
Theorem applyDefaults_idempotent (c : Httpc.Config R) :
  Httpc.applyDefaults (Httpc.applyDefaults c) = Httpc.applyDefaults c.
Proof.
  unfold Httpc.applyDefaults. cbn. unfold Second, Millisecond.
  destruct (Z.eqb_spec (Httpc.Timeout c) 0);
  destruct (Z.eqb_spec (Httpc.RetryMaxAttempts c) 0);
  destruct (Z.eqb_spec (Httpc.RetryBaseBackoff c) 0);
  destruct (Z.eqb_spec (Httpc.RetryMaxBackoff c) 0);
  destruct (Httpc.RetryOnStatuses c) eqn:Hs; cbn;
  repeat match goal with
         | |- context [?x =? 0] => destruct (Z.eqb_spec x 0); [lia |]
         end; reflexivity.
Qed.

(** X11: client options are applied in order, and [WithConfig] replaces
    the whole configuration: the options given before it have no effect
    on the client that [New] builds. *)
Theorem WithConfig_discards_earlier_options (before after : list (Httpc.Option R))
    (cfg : Httpc.Config R) (rnd : R) :
  Httpc.New (before ++ Httpc.WithConfig cfg :: after) rnd
  = Httpc.New (Httpc.WithConfig cfg :: after) rnd.
Proof.
  unfold Httpc.New. rewrite foldl_app. reflexivity.
Qed.

Variable parseRest : string -> string -> error + (string * string * gmap string (list string)).
Variable url_String : url_URL -> string.

Context {T : Type}.

(** X12: with retries disabled in the client's configuration, and over
    a transport that never answers with a status for which the HTTP
    client follows a redirect (301, 302, 303, 307, 308), [Do] hands the
    request to the transport at most once, whatever policy or forced
    retry the request or the client carries; when the transport is not
    reached at all, [Do] returns an error and the transport is as
    before. *)
Theorem retry_disabled_single_call (c : Httpc.client R) (below : RoundTripper T)
    (done : Z -> option error) (fuel : nat) (req : Httpc.Request R) (t : T) :
  Httpc.RetryEnabled (Httpc.cfg c) = false ->
  ClientSpec.neverRedirects below ->
  exists out t' n,
    Httpc.Do parseRest url_String c (RetrySpec.counted below) done fuel req (t, 0%nat)
      = Some (out, None, (t', n)) /\
    (n <= 1)%nat /\
    (n = 0%nat -> t' = t /\ exists e, out = inl e).
Proof.
  intros Hoff _. unfold Httpc.Do, Httpc.transport. rewrite Hoff.
  destruct (Httpc.buildHTTPRequest _ _ _ _ _) as [e | httpReq].
  { eexists _, _, _. split; [reflexivity |]. split; [lia |]. eauto. }
  destruct (match match Httpc.authProvider (Httpc.clone req) with
                  | Some a => Some a
                  | None => Httpc.DefaultAuth (Httpc.cfg c)
                  end with
            | Some a => Auth.Apply a httpReq
            | None => inr httpReq
            end) as [e | httpReq'].
  { eexists _, _, _. split; [reflexivity |]. split; [lia |]. eauto. }
  cbn [RetrySpec.counted].
  destruct (below t httpReq') as [[[resp |] [e |]] t1];
    (eexists _, _, _; split; [reflexivity |]; split; [lia | intros; lia]).
Qed.

(** X13: the auth provider of the request takes the place of the
    client's default provider, which is then not consulted; and when the
    provider in effect fails on the request that was built, [Do] returns
    that error wrapped as an apply-auth error and the transport is not
    reached. *)
Theorem request_auth_overrides_default (c : Httpc.client R) (below : RoundTripper T)
    (done : Z -> option error) (fuel : nat) (req : Httpc.Request R) (t : T)
    (a : Auth.AuthProvider) :
  Httpc.authProvider req = Some a ->
  (forall other : option Auth.AuthProvider,
     let cfg := Httpc.cfg c in
     let c' := Httpc.mkClient
       (Httpc.mkConfig (Httpc.Env cfg) (Httpc.BaseURL cfg) (Httpc.Timeout cfg)
          (Httpc.RetryEnabled cfg) (Httpc.RetryMaxAttempts cfg)
          (Httpc.RetryBaseBackoff cfg) (Httpc.RetryMaxBackoff cfg)
          (Httpc.RetryOnStatuses cfg) (Httpc.BreakerEnabled cfg) other
          (Httpc.RetryPolicy cfg) (Httpc.Breaker cfg) (Httpc.UserAgent cfg))
       (Httpc.clientRetryPolicy c) (Httpc.breakerMgr c) in
     Httpc.Do parseRest url_String c' below done fuel req t
     = Httpc.Do parseRest url_String c below done fuel req t) /\
  (forall httpReq e,
     Httpc.buildHTTPRequest parseRest url_String req
       (Httpc.BaseURL (Httpc.cfg c)) (Httpc.UserAgent (Httpc.cfg c)) = inr httpReq ->
     Auth.Apply a httpReq = inl e ->
     Httpc.Do parseRest url_String c below done fuel req t
     = Some (inl (fmt_Errorf "apply auth" e), None, t)).
Proof.
  intros Ha. split.
  - intros other cfg c'. unfold Httpc.Do, Httpc.clone, Httpc.transport. subst c' cfg.
    cbn [Httpc.cfg Httpc.BaseURL Httpc.UserAgent Httpc.DefaultAuth Httpc.RetryEnabled
         Httpc.clientRetryPolicy].
    rewrite Ha. reflexivity.
  - intros httpReq e Hb Hfail. unfold Httpc.Do, Httpc.clone. rewrite Hb, Ha, Hfail.
    reflexivity.
Qed.

End ClientMore.

Lemma retry_disabled_single_call_witness :
  let c := Httpc.New [Httpc.WithRetryPolicy (Httpc.customPolicy Examples.retryAtOnce)] 0%nat in
  let req := Httpc.newRequest "GET" Examples.itemsURL [Httpc.WithRequestRetryForce] in
  Httpc.RetryEnabled (Httpc.cfg c) = false /\
  ClientSpec.neverRedirects (Examples.always (Examples.status 503)) /\
  exists out t' n,
    Httpc.Do Examples.parseRest Examples.url_String c
      (RetrySpec.counted (Examples.always (Examples.status 503))) Examples.background 0 req
      (0%nat, 0%nat)
      = Some (out, None, (t', n)) /\
    (n <= 1)%nat /\
    (n = 0%nat -> t' = 0%nat /\ exists e, out = inl e).
Proof.
  intros c req.
  assert (Hno : ClientSpec.neverRedirects (Examples.always (Examples.status 503))).
  { intros t r resp [= <-]. unfold ClientSpec.redirectStatuses. cbn.
    rewrite !elem_of_cons, elem_of_nil. intuition discriminate. }
  split; [reflexivity |]. split; [exact Hno |].
  apply (retry_disabled_single_call (R := nat) (T := nat)
           Examples.parseRest Examples.url_String c
           (Examples.always (Examples.status 503)) Examples.background 0 req 0%nat).
  - reflexivity.
  - exact Hno.
Defined.

Lemma request_auth_overrides_default_witness :
  let a := Auth.NewAPIKey (Auth.mkAPIKeyOptions EmptyString "header" "X-API-Key") in
  let c := Httpc.New [] 0%nat in
  let req : Httpc.Request nat :=
    Httpc.newRequest "GET" Examples.itemsURL [Httpc.WithRequestAuth (Some a)] in
  Httpc.authProvider req = Some a /\
  Httpc.Do Examples.parseRest Examples.url_String c
    (Examples.always (Examples.status 200)) Examples.background 1 req 0%nat
  = Some (inl (fmt_Errorf "apply auth" (errors_New "api key is empty")), None, 0%nat).
Proof.
  intros a c req. split; [reflexivity |].
  eapply (proj2 (request_auth_overrides_default (R := nat) (T := nat)
           Examples.parseRest Examples.url_String c
           (Examples.always (Examples.status 200)) Examples.background 1 req 0%nat a
           eq_refl)).
  - vm_compute. reflexivity.
  - reflexivity.
Defined.

(** ** Request builder and request options *)

Lemma toUpperByte_facts (c : ascii) :
  Strings.toUpperByte (Strings.toUpperByte c) = Strings.toUpperByte c /\
  Strings.toLowerByte (Strings.toUpperByte c) = Strings.toLowerByte c /\
  Ascii.eqb (Strings.toUpperByte c) "-" = Ascii.eqb c "-" /\
  (validHeaderFieldByte c = true -> validHeaderFieldByte (Strings.toUpperByte c) = true).
Proof.
  destruct c as [[] [] [] [] [] [] [] []]; vm_compute; repeat split; done.
Qed.

Lemma toLowerByte_facts (c : ascii) :
  Strings.toLowerByte (Strings.toLowerByte c) = Strings.toLowerByte c /\
  Strings.toUpperByte (Strings.toLowerByte c) = Strings.toUpperByte c /\
  Ascii.eqb (Strings.toLowerByte c) "-" = Ascii.eqb c "-" /\
  (validHeaderFieldByte c = true -> validHeaderFieldByte (Strings.toLowerByte c) = true).
Proof.
  destruct c as [[] [] [] [] [] [] [] []]; vm_compute; repeat split; done.
Qed.

Lemma canonicalize_idempotent (s : string) (upper : bool) :
  allBytes validHeaderFieldByte s = true ->
  allBytes validHeaderFieldByte (canonicalize upper s) = true /\
  canonicalize upper (canonicalize upper s) = canonicalize upper s.
Proof.
  revert upper. induction s as [| c s IH]; intros upper Hv; [done |].
  cbn in Hv. apply andb_prop in Hv as [Hc Hs].
  destruct (toUpperByte_facts c) as (Huu & Hlu & Heu & Hvu).
  destruct (toLowerByte_facts c) as (Hll & Hul & Hel & Hvl).
  cbn [canonicalize allBytes].
  destruct upper.
  - rewrite Heu, Huu, Hvu by done. destruct (IH (Ascii.eqb c "-") Hs) as [-> ->]. done.
  - rewrite Hel, Hll, Hvl by done. destruct (IH (Ascii.eqb c "-") Hs) as [-> ->]. done.
Qed.

(** A canonical key is its own canonical form. *)
Lemma CanonicalMIMEHeaderKey_idempotent (k : string) :
  CanonicalMIMEHeaderKey (CanonicalMIMEHeaderKey k) = CanonicalMIMEHeaderKey k.
Proof.
  unfold CanonicalMIMEHeaderKey.
  destruct (allBytes validHeaderFieldByte k) eqn:Hv.
  - destruct (canonicalize_idempotent k true Hv) as [-> ->]. done.
  - rewrite Hv. done.
Qed.

Lemma canonicalKeys_Header_Set (h : gmap string (list string)) (key value : string) :
  RequestSpec.canonicalKeys h -> RequestSpec.canonicalKeys (Header_Set h key value).
Proof.
  intros Hh k vv. unfold Header_Set. rewrite lookup_insert. case_decide.
  - intros _. subst k. apply CanonicalMIMEHeaderKey_idempotent.
  - apply Hh.
Qed.

(** A header with a non-empty first value is not touched by
    [fillHeader], whatever header that fills. *)
Lemma fillHeader_keeps (h : gmap string (list string)) (name v key : string) :
  Header_Get h key <> EmptyString ->
  Header_Get (RequestSpec.fillHeader h name v) key = Header_Get h key.
Proof.
  intros Hne. unfold RequestSpec.fillHeader.
  destruct (negb (bool_decide (v = EmptyString))); [| done]. cbn [andb].
  case_bool_decide as Hempty; [| done].
  unfold Header_Get, Header_Set in *.
  destruct (decide (CanonicalMIMEHeaderKey name = CanonicalMIMEHeaderKey key)) as [Heq | Hdiff].
  - rewrite Heq in Hempty. done.
  - rewrite lookup_insert_ne by done. done.
Qed.

Lemma fillHeader_other (h : gmap string (list string)) (name v K : string) :
  CanonicalMIMEHeaderKey name <> K ->
  RequestSpec.fillHeader h name v !! K = h !! K.
Proof.
  intros Hne. unfold RequestSpec.fillHeader. destruct (_ && _); [| done].
  unfold Header_Set. rewrite lookup_insert_ne; done.
Qed.

Lemma fillHeader_Get (h : gmap string (list string)) (name v : string) :
  Header_Get (RequestSpec.fillHeader h name v) name = Httpc.choose (Header_Get h name) v.
Proof.
  unfold RequestSpec.fillHeader, Httpc.choose.
  destruct (decide (Header_Get h name = EmptyString)) as [Hh | Hh];
    destruct (decide (v = EmptyString)) as [Hv | Hv].
  - rewrite (bool_decide_eq_true_2 _ Hh), (bool_decide_eq_true_2 _ Hv). cbn [negb andb].
    congruence.
  - rewrite (bool_decide_eq_true_2 _ Hh), (bool_decide_eq_false_2 _ Hv). cbn [negb andb].
    unfold Header_Get, Header_Set. rewrite lookup_insert_eq. done.
  - rewrite (bool_decide_eq_false_2 _ Hh), (bool_decide_eq_true_2 _ Hv). done.
  - rewrite (bool_decide_eq_false_2 _ Hh), (bool_decide_eq_false_2 _ Hv). done.
Qed.

Section BuilderMore.

Context {R : Type}.
Variable parseRest : string -> string -> error + (string * string * gmap string (list string)).
Variable url_String : url_URL -> string.

(** What a request that [buildHTTPRequest] returns is made of. *)
Lemma buildHTTPRequest_inv (r : Httpc.Request R) (baseURL userAgent : string)
    (httpReq : http_Request) :
  Httpc.buildHTTPRequest parseRest url_String r baseURL userAgent = inr httpReq ->
  (forall e, Httpc.bodyFactory r <> Some (inl e)) /\
  Body httpReq = match Httpc.bodyFactory r with
                 | Some (inr (rc, _, _)) => Some rc
                 | _ => None
                 end /\
  GetBody httpReq = match Httpc.bodyFactory r with
                    | Some (inr (rc, _, _)) => Some (inr rc)
                    | _ => None
                    end /\
  ContentLength httpReq = match Httpc.bodyFactory r with
                          | Some (inr (_, cl, _)) => if 0 <=? cl then cl else 0
                          | _ => 0
                          end /\
  ReqHeader httpReq =
    RequestSpec.fillHeader
      (RequestSpec.fillHeader
         (RequestSpec.fillHeader (Httpc.copyHeaders ∅ (Httpc.headers r))
            "User-Agent" userAgent)
         "Content-Type" (RequestSpec.effectiveContentType r))
      "Accept" (Httpc.accept r).
Proof.
  unfold Httpc.buildHTTPRequest, RequestSpec.effectiveContentType.
  destruct (Httpc.mergeQuery parseRest url_String r (Httpc.resolveTarget parseRest r baseURL))
    as [e | target]; [done |].
  cbn [mbind error_bind].
  destruct (Httpc.bodyFactory r) as [[e | [[rc cl] ctype]] |]; [done | |];
    cbn [mbind error_bind];
    unfold Httpc.http_NewRequestWithContext;
    (destruct (negb (Httpc.validMethod _)); [done |]);
    (destruct (Httpc.url_Parse parseRest target) as [e | u]; [done |]);
    cbn [mbind error_bind ReqHeader Method URL Body GetBody ContentLength];
    intros [= <-]; cbn [ReqHeader Body GetBody ContentLength];
    (split; [done |]); (split; [done |]); (split; [done |]); (split; [done |]);
    reflexivity.
Qed.

(** X14: whatever the caller's headers are, the three headers the
    builder computes only fill gaps: on the request that is built,
    User-Agent, Content-Type and Accept carry the caller's value when
    that is not empty, and else the client's user agent, the content
    type in effect and the request's accept value; every other header
    is as the caller's headers give it.  With a non-empty user agent in
    the configuration the request therefore always has a non-empty
    User-Agent. *)
Theorem computed_headers_fill_gaps (r : Httpc.Request R) (baseURL userAgent : string)
    (httpReq : http_Request) :
  Httpc.buildHTTPRequest parseRest url_String r baseURL userAgent = inr httpReq ->
  let given := Httpc.copyHeaders ∅ (Httpc.headers r) in
  Header_Get (ReqHeader httpReq) "User-Agent"
    = Httpc.choose (Header_Get given "User-Agent") userAgent /\
  Header_Get (ReqHeader httpReq) "Content-Type"
    = Httpc.choose (Header_Get given "Content-Type") (RequestSpec.effectiveContentType r) /\
  Header_Get (ReqHeader httpReq) "Accept"
    = Httpc.choose (Header_Get given "Accept") (Httpc.accept r) /\
  (forall K, K <> "User-Agent"%string -> K <> "Content-Type"%string ->
             K <> "Accept"%string -> ReqHeader httpReq !! K = given !! K) /\
  (userAgent <> EmptyString -> Header_Get (ReqHeader httpReq) "User-Agent" <> EmptyString).
Proof.
  intros Hb given. apply buildHTTPRequest_inv in Hb as (_ & _ & _ & _ & ->).
  fold given.
  set (h1 := RequestSpec.fillHeader given "User-Agent" userAgent).
  set (h2 := RequestSpec.fillHeader h1 "Content-Type" (RequestSpec.effectiveContentType r)).
  assert (Hother : forall (h : gmap string (list string)) name v key,
            CanonicalMIMEHeaderKey name <> CanonicalMIMEHeaderKey key ->
            Header_Get (RequestSpec.fillHeader h name v) key = Header_Get h key).
  { intros h name v key Hne. unfold Header_Get. rewrite fillHeader_other; done. }
  assert (Hua : Header_Get (RequestSpec.fillHeader h2 "Accept" (Httpc.accept r)) "User-Agent"
                = Httpc.choose (Header_Get given "User-Agent") userAgent).
  { rewrite Hother by (vm_compute; discriminate). subst h2.
    rewrite Hother by (vm_compute; discriminate). apply fillHeader_Get. }
  split; [exact Hua |]. split; [| split; [| split]].
  - rewrite Hother by (vm_compute; discriminate). subst h2. rewrite fillHeader_Get.
    subst h1. rewrite Hother by (vm_compute; discriminate). done.
  - rewrite fillHeader_Get. subst h2. rewrite Hother by (vm_compute; discriminate).
    subst h1. rewrite Hother by (vm_compute; discriminate). done.
  - intros K H1 H2 H3. subst h2 h1. rewrite !fillHeader_other; done.
  - intros Hne. rewrite Hua. unfold Httpc.choose. case_bool_decide; done.
Qed.

(** X15: a header set with [WithHeader] to a non-empty value reaches the
    request that is built, under every spelling of its name that has
    the same canonical form, and no computed default replaces it; the
    option keeps the keys of the request's headers canonical. *)
Theorem WithHeader_reaches_wire (r : Httpc.Request R) (key value baseURL userAgent : string)
    (httpReq : http_Request) :
  RequestSpec.canonicalKeys (Httpc.headers r) ->
  value <> EmptyString ->
  Httpc.buildHTTPRequest parseRest url_String (Httpc.WithHeader key value r)
    baseURL userAgent = inr httpReq ->
  RequestSpec.canonicalKeys (Httpc.headers (Httpc.WithHeader key value r)) /\
  forall key', CanonicalMIMEHeaderKey key' = CanonicalMIMEHeaderKey key ->
               Header_Get (ReqHeader httpReq) key' = value.
Proof.
  intros Hcan Hval Hb.
  assert (Hcan' : RequestSpec.canonicalKeys (Httpc.headers (Httpc.WithHeader key value r))).
  { cbn. apply canonicalKeys_Header_Set. done. }
  split; [exact Hcan' |]. intros key' Hkey.
  apply buildHTTPRequest_inv in Hb as (_ & _ & _ & _ & ->).
  assert (Hgiven : Header_Get (Httpc.copyHeaders ∅ (Httpc.headers (Httpc.WithHeader key value r)))
                     key' = value).
  { unfold Header_Get. rewrite Hkey.
    rewrite <- (CanonicalMIMEHeaderKey_idempotent key).
    change (Header_Get (Httpc.copyHeaders ∅ (Httpc.headers (Httpc.WithHeader key value r)))
              (CanonicalMIMEHeaderKey key) = value).
    apply (copyHeaders_keeps _ _ _ []).
    - apply CanonicalMIMEHeaderKey_idempotent.
    - cbn. unfold Header_Set. apply lookup_insert_eq.
    - intros k xs Hk Hne. rewrite (Hcan' k xs Hk). done. }
  assert (Hkeep : forall h name v, Header_Get h key' = value ->
            Header_Get (RequestSpec.fillHeader h name v) key' = value).
  { intros h name v Hh. rewrite fillHeader_keeps; congruence. }
  auto.
Qed.

(** X16: how the body argument of [Post], [Put] and [Patch] reaches the
    wire.  A byte slice or a string is sent as it is, with its length as
    content length and its content type, and every retry attempt gets
    the whole body again, unread; a reader that fails makes the build
    fail with the reader's error, whatever the method and the target
    are; with no body the request has no body, no way to replay one and
    content length 0. *)
Theorem normalizeBody_reaches_wire (method target baseURL userAgent : string) :
  (forall (body : Httpc.BodyArg R) data ctype httpReq,
     (body = Httpc.bodyBytes data /\ ctype = "application/octet-stream"%string) \/
     (exists s, body = Httpc.bodyString s /\ data = list_byte_of_string s /\
                ctype = "text/plain; charset=utf-8"%string) ->
     Httpc.buildHTTPRequest parseRest url_String
       (Httpc.newRequest method target (Httpc.normalizeBody body)) baseURL userAgent
       = inr httpReq ->
     Body httpReq = Some (newBody data) /\
     ContentLength httpReq = Z.of_nat (length data) /\
     Header_Get (ReqHeader httpReq) "Content-Type" = ctype /\
     forall attempt, exists cur,
       Retry.prepareAttemptRequest httpReq attempt = inr cur /\
       Body cur = Some (newBody data) /\
       ContentLength cur = Z.of_nat (length data)) /\
  (forall (rc : ReadCloser) e, readErr rc = Some e ->
     Httpc.buildHTTPRequest parseRest url_String
       (Httpc.newRequest (R := R) method target (Httpc.normalizeBody (Httpc.bodyReader rc)))
       baseURL userAgent = inl e) /\
  (forall httpReq,
     Httpc.buildHTTPRequest parseRest url_String
       (Httpc.newRequest (R := R) method target (Httpc.normalizeBody Httpc.bodyNil))
       baseURL userAgent = inr httpReq ->
     Body httpReq = None /\ GetBody httpReq = None /\ ContentLength httpReq = 0).
Proof.
  split; [| split].
  - intros body data ctype httpReq Hbody Hb.
    assert (Hr : exists r : Httpc.Request R,
               Httpc.newRequest method target (Httpc.normalizeBody body) = r /\
               Httpc.bodyFactory r = Some (inr (newBody data, Z.of_nat (length data), ctype)) /\
               Httpc.headers r = ∅ /\ Httpc.contentType r = EmptyString /\
               ctype <> EmptyString).
    { destruct Hbody as [[-> ->] | (s & -> & -> & ->)];
        (eexists; split; [reflexivity |]); cbn; repeat split; done. }
    destruct Hr as (r & Hreq & Hbf & Hh & Hct & Hne). rewrite Hreq in Hb.
    destruct (buildHTTPRequest_inv r baseURL userAgent httpReq Hb) as (_ & HB & HG & HL & HH).
    rewrite Hbf in HB, HG, HL.
    assert (Hlen : ContentLength httpReq = Z.of_nat (length data)).
    { rewrite HL. destruct (Z.leb_spec 0 (Z.of_nat (length data))); lia. }
    split; [exact HB |]. split; [exact Hlen |]. split.
    + rewrite HH. unfold Header_Get at 1. rewrite fillHeader_other by (vm_compute; discriminate).
      change (Header_Get
                (RequestSpec.fillHeader
                   (RequestSpec.fillHeader (Httpc.copyHeaders ∅ (Httpc.headers r))
                      "User-Agent" userAgent)
                   "Content-Type" (RequestSpec.effectiveContentType r)) "Content-Type" = ctype).
      rewrite fillHeader_Get. unfold Header_Get at 1.
      rewrite fillHeader_other by (vm_compute; discriminate).
      rewrite Hh. unfold Httpc.copyHeaders. rewrite map_fold_empty, lookup_empty.
      unfold RequestSpec.effectiveContentType. rewrite Hbf.
      unfold Httpc.choose.
      rewrite (bool_decide_eq_true_2 (EmptyString = EmptyString)) by done.
      rewrite (bool_decide_eq_false_2 (ctype = EmptyString)) by done. done.
    + intros attempt. unfold Retry.prepareAttemptRequest, Retry.Clone. rewrite HG.
      destruct (attempt =? 1); eexists; (split; [reflexivity |]); cbn; done.
  - intros rc e Hrc. unfold Httpc.normalizeBody, io_ReadAll. rewrite Hrc.
    cbn [fst]. unfold Httpc.buildHTTPRequest, Httpc.mergeQuery.
    cbn. reflexivity.
  - intros httpReq Hb. apply buildHTTPRequest_inv in Hb as (_ & HB & HG & HL & _).
    cbn in HB, HG, HL. done.
Qed.

(** X17: [WithQueryMap] appends one value for each entry of the map to
    the values the request already has under that name, and leaves the
    other names alone; nothing but the query parameters changes. *)
Theorem WithQueryMap_appends (values : gmap string string) (r : Httpc.Request R) (k : string) :
  Httpc.queries (Httpc.WithQueryMap values r) !! k =
    match values !! k with
    | Some v => Some (default [] (Httpc.queries r !! k) ++ [v])
    | None => Httpc.queries r !! k
    end /\
  Httpc.WithQueryMap ∅ r = r /\
  (forall v, Httpc.WithQueryMap {[k := v]} r = Httpc.WithQuery k v r).
Proof.
  split; [| split].
  - cbn. apply (map_fold_weak_ind
      (fun (res : gmap string (list string)) (m : gmap string string) =>
         res !! k = match m !! k with
                    | Some v => Some (default [] (Httpc.queries r !! k) ++ [v])
                    | None => Httpc.queries r !! k
                    end)).
    + rewrite lookup_empty. done.
    + intros i x m res Hfresh IH. unfold Values_Add.
      destruct (decide (i = k)) as [-> | Hne].
      * rewrite !lookup_insert_eq. rewrite IH, Hfresh. done.
      * rewrite !lookup_insert_ne by done. done.
  - unfold Httpc.WithQueryMap. rewrite map_fold_empty. destruct r; done.
  - intros v. unfold Httpc.WithQueryMap, Httpc.WithQuery.
    rewrite map_fold_singleton. done.
Qed.

End BuilderMore.

Lemma computed_headers_fill_gaps_witness :
  let r : Httpc.Request nat :=
    Httpc.newRequest "GET" Examples.itemsURL
      [Httpc.WithHeader "user-agent" "custom/1"; Httpc.WithAccept "application/xml"] in
  exists httpReq,
    Httpc.buildHTTPRequest Examples.parseRest Examples.url_String r
      EmptyString Httpc.defaultUserAgent = inr httpReq /\
    Header_Get (ReqHeader httpReq) "User-Agent" = "custom/1"%string /\
    Header_Get (ReqHeader httpReq) "Content-Type" = EmptyString /\
    Header_Get (ReqHeader httpReq) "Accept" = "application/xml"%string.
Proof.
  intros r. eexists. split; [vm_compute; reflexivity |].
  match goal with
  | |- Header_Get (ReqHeader ?h) _ = _ /\ _ =>
      destruct (computed_headers_fill_gaps Examples.parseRest Examples.url_String r
                  EmptyString Httpc.defaultUserAgent h) as (Hua & Hct & Hacc & _);
        [vm_compute; reflexivity |]
  end.
  rewrite Hua, Hct, Hacc. vm_compute. repeat split; reflexivity.
Defined.

Lemma WithHeader_reaches_wire_witness :
  let r : Httpc.Request nat := Httpc.newRequest "GET" Examples.itemsURL [] in
  RequestSpec.canonicalKeys (Httpc.headers r) /\
  exists httpReq,
    Httpc.buildHTTPRequest Examples.parseRest Examples.url_String
      (Httpc.WithHeader "x-request-id" "42" r) EmptyString Httpc.defaultUserAgent
      = inr httpReq /\
    Header_Get (ReqHeader httpReq) "X-Request-ID" = "42"%string.
Proof.
  intros r.
  assert (Hcan : RequestSpec.canonicalKeys (Httpc.headers r)).
  { intros k vv Hl. cbn in Hl. rewrite lookup_empty in Hl. discriminate. }
  split; [exact Hcan |]. eexists. split; [vm_compute; reflexivity |].
  apply (WithHeader_reaches_wire Examples.parseRest Examples.url_String r
           "x-request-id" "42" EmptyString Httpc.defaultUserAgent).
  - exact Hcan.
  - discriminate.
  - vm_compute; reflexivity.
  - reflexivity.
Defined.

Lemma normalizeBody_reaches_wire_witness :
  exists httpReq,
    Httpc.buildHTTPRequest Examples.parseRest Examples.url_String
      (Httpc.newRequest (R := nat) "POST" Examples.itemsURL
         (Httpc.normalizeBody (Httpc.bodyString "hi")))
      EmptyString Httpc.defaultUserAgent = inr httpReq /\
    Body httpReq = Some (newBody [Byte.x68; Byte.x69]) /\
    ContentLength httpReq = 2 /\
    Header_Get (ReqHeader httpReq) "Content-Type" = "text/plain; charset=utf-8"%string /\
    forall attempt, exists cur,
      Retry.prepareAttemptRequest httpReq attempt = inr cur /\
      Body cur = Some (newBody [Byte.x68; Byte.x69]) /\
      ContentLength cur = 2.
Proof.
  eexists. split; [vm_compute; reflexivity |].
  apply (proj1 (normalizeBody_reaches_wire (R := nat) Examples.parseRest Examples.url_String
                  "POST" Examples.itemsURL EmptyString Httpc.defaultUserAgent)
           (Httpc.bodyString "hi") [Byte.x68; Byte.x69] "text/plain; charset=utf-8").
  - right. exists "hi"%string. repeat split; reflexivity.
  - vm_compute; reflexivity.
Defined.

(** ** Responses *)

(** X18: [DecodeJSON] decodes what [Bytes] returns: a read error is
    returned as it is and an empty body gives [io.EOF], in both cases
    without running the decoder; any other body is handed to the decoder
    whole.  Decoding leaves the response as [Bytes] does, so the body
    can still be had from it afterwards. *)
Theorem DecodeJSON_follows_Bytes {V : Type} (unmarshal : list Byte.byte -> error + V)
    (r : Httpc.Response) :
  Httpc.DecodeJSON unmarshal r =
    (match fst (Httpc.Bytes r) with
     | inl e => inl e
     | inr [] => inl Httpc.io_EOF
     | inr (b :: bs) => unmarshal (b :: bs)
     end, snd (Httpc.Bytes r)) /\
  fst (Httpc.Bytes (snd (Httpc.DecodeJSON unmarshal r))) = fst (Httpc.Bytes r).
Proof.
  assert (Hfirst : Httpc.DecodeJSON unmarshal r =
    (match fst (Httpc.Bytes r) with
     | inl e => inl e
     | inr [] => inl Httpc.io_EOF
     | inr (b :: bs) => unmarshal (b :: bs)
     end, snd (Httpc.Bytes r))).
  { unfold Httpc.DecodeJSON, Httpc.Bytes.
    destruct (Httpc.ensureBody r) as [[e |] r']; [done |].
    cbn [fst snd]. destruct (Httpc.body r'); done. }
  split; [exact Hfirst |]. rewrite Hfirst. cbn [snd].
  destruct (accessors_materialize_alike r) as (-> & _).
  destruct (ensureBody_settles r) as [Herr Hset].
  unfold Httpc.Bytes at 1. rewrite (ensureBody_settled _ Hset), Herr.
  unfold Httpc.Bytes. destruct (Httpc.ensureBody r) as [[e |] r']; done.
Qed.

(** X19: [IntoWriter] writes what [Bytes] returns, in one call of the
    writer: after a read error and for an empty body the writer is not
    called at all (so an empty body succeeds even with a writer that
    would fail), and otherwise the error of the one [Write] is the
    result.  Into a buffer the call appends exactly the body. *)
Theorem IntoWriter_writes_body {W : Type} (write : W -> list Byte.byte -> option error * W)
    (w : W) (r : Httpc.Response) :
  Httpc.IntoWriter write w r =
    match fst (Httpc.Bytes r) with
    | inl e => (Some e, snd (Httpc.Bytes r), w)
    | inr [] => (None, snd (Httpc.Bytes r), w)
    | inr (b :: bs) =>
        (fst (write w (b :: bs)), snd (Httpc.Bytes r), snd (write w (b :: bs)))
    end /\
  forall (buf data : list Byte.byte),
    fst (Httpc.Bytes r) = inr data ->
    Httpc.IntoWriter ResponseSpec.bufferWrite buf r = (None, snd (Httpc.Bytes r), buf ++ data).
Proof.
  split.
  - unfold Httpc.IntoWriter, Httpc.Bytes.
    destruct (Httpc.ensureBody r) as [[e |] r']; [done |].
    cbn [fst snd]. destruct (Httpc.body r') as [| b bs]; [done |].
    cbn [length Nat.eqb]. destruct (write w (b :: bs)); done.
  - intros buf data. unfold Httpc.IntoWriter, Httpc.Bytes.
    destruct (Httpc.ensureBody r) as [[e |] r']; [done |].
    cbn [fst snd]. intros [= <-].
    destruct (Httpc.body r') as [| b bs]; cbn; [rewrite app_nil_r |]; done.
Qed.

(** ** Auth providers *)

(** X20: the basic-auth provider fails exactly when the user name is
    empty.  Otherwise it replaces the Authorization header by the one
    value Basic followed by the base64 encoding of user name, colon and
    password, and changes nothing else of the request. *)
Theorem basic_Apply_outcome (opts : Auth.BasicOptions) (req : http_Request) :
  let p := Auth.newBasic opts in
  ((exists e, Auth.basic_Apply p req = inl e) <-> Auth.Username opts = EmptyString) /\
  (Auth.Username opts <> EmptyString ->
   exists req',
     Auth.basic_Apply p req = inr req' /\
     ReqHeader req' !! "Authorization"%string
       = Some [("Basic " ++ Auth.base64_EncodeToString
                              (Auth.Username opts ++ ":" ++ Auth.Password opts))%string] /\
     (forall K, K <> "Authorization"%string -> ReqHeader req' !! K = ReqHeader req !! K) /\
     Method req' = Method req /\ URL req' = URL req /\ Body req' = Body req /\
     GetBody req' = GetBody req /\ ContentLength req' = ContentLength req).
Proof.
  intros p. subst p. unfold Auth.basic_Apply, Auth.newBasic. cbn [Auth.username Auth.password].
  split.
  - case_decide as Hu; split; try done.
    + eauto.
    + intros [e He]. done.
  - intros Hu. rewrite decide_False by done. eexists. split; [reflexivity |].
    cbn [ReqHeader Method URL Body GetBody ContentLength]. unfold Header_Set.
    change (CanonicalMIMEHeaderKey "Authorization") with "Authorization"%string.
    split; [apply lookup_insert_eq |]. split; [| done].
    intros K HK. rewrite lookup_insert_ne; done.
Qed.

(** X21: applying the API-key provider or the basic-auth provider to a
    request it has already been applied to changes nothing: the
    credentials are set, not added a second time. *)
Theorem providers_Apply_idempotent (req : http_Request) :
  (forall p : Auth.apiKeyProvider,
     match Auth.apiKey_Apply p req with
     | inr req' => Auth.apiKey_Apply p req' = inr req'
     | inl _ => True
     end) /\
  (forall p : Auth.basicProvider,
     match Auth.basic_Apply p req with
     | inr req' => Auth.basic_Apply p req' = inr req'
     | inl _ => True
     end).
Proof.
  split; intros p.
  - unfold Auth.apiKey_Apply.
    destruct (decide (Auth.key p = EmptyString)); [done |].
    destruct (decide (Auth.location p = "query"%string)).
    + destruct (URL req) as [u |]; [| done].
      cbn [URL Query Scheme Host Path Method ReqHeader Body GetBody ContentLength].
      unfold Values_Set. rewrite insert_insert_eq. done.
    + destruct (decide (_ \/ _)); [| done].
      cbn [URL Method ReqHeader Body GetBody ContentLength].
      unfold Header_Set. rewrite insert_insert_eq. done.
  - unfold Auth.basic_Apply.
    destruct (decide (Auth.username p = EmptyString)); [done |].
    cbn [URL Method ReqHeader Body GetBody ContentLength].
    unfold Header_Set. rewrite insert_insert_eq. done.
Qed.

Section JWTFacts.

Context {K : Type}.

(** The options of the package change the claims callbacks and the clock
    only. *)
Lemma packageOptions_keep (more : list (Auth.JWTOption K)) :
  Forall AuthSpec.packageOption more ->
  forall p : Auth.jwtProvider K,
  let p' := foldl (fun p (opt : Auth.JWTOption K) => opt p) p more in
  Auth.options p' = Auth.options p /\ Auth.alg p' = Auth.alg p /\
  Auth.ttl p' = Auth.ttl p /\ Auth.keyID p' = Auth.keyID p /\
  Auth.signingMethod p' = Auth.signingMethod p /\
  (Forall (fun opt => exists c, opt = Auth.WithClock c) more ->
   Auth.claimsMutators p' = Auth.claimsMutators p).
Proof.
  induction 1 as [| opt more Hopt _ IH]; intros p; [done |].
  cbn [foldl]. destruct (IH (opt p)) as (-> & -> & -> & -> & -> & Hm).
  assert (Hstep : Auth.options (opt p) = Auth.options p /\ Auth.alg (opt p) = Auth.alg p /\
            Auth.ttl (opt p) = Auth.ttl p /\ Auth.keyID (opt p) = Auth.keyID p /\
            Auth.signingMethod (opt p) = Auth.signingMethod p).
  { destruct Hopt as [[fn ->] | [[c |] ->]]; done. }
  destruct Hstep as (-> & -> & -> & -> & ->). repeat split.
  intros Hclock. apply Forall_cons in Hclock as [[c ->] Hrest].
  rewrite (Hm Hrest). destruct c; done.
Qed.

(** X22: [NewJWT] fails exactly when the algorithm it settles on (upper
    case, trimmed, RS256 by default) is HS256 without a secret, RS256
    without a private key, or neither of the two; the further options do
    not change that.  The provider it returns, under options of the
    package, signs with that algorithm and has a strictly positive time
    to live: the one given, or 60 seconds when that is not positive. *)
Theorem NewJWT_outcome (opts : Auth.JWTOptions K) (more : list (Auth.JWTOption K)) :
  let alg := AuthSpec.algorithm opts in
  ((exists e, Auth.NewJWT opts more = inl e) <->
   (alg = "HS256"%string /\ Auth.HMACSecret opts = []) \/
   (alg = "RS256"%string /\ Auth.PrivateKey opts = None) \/
   (alg <> "HS256"%string /\ alg <> "RS256"%string)) /\
  (forall p, Auth.NewJWT opts more = inr p -> Forall AuthSpec.packageOption more ->
     Auth.alg p = alg /\
     Auth.signingMethod p = Some (if decide (alg = "HS256"%string)
                                  then Auth.SigningMethodHS256
                                  else Auth.SigningMethodRS256) /\
     Auth.ttl p = (if Auth.TTL opts <=? 0 then 60 * Second else Auth.TTL opts) /\
     0 < Auth.ttl p /\
     Auth.keyID p = Auth.Kid opts /\
     Auth.HMACSecret (Auth.options p) = Auth.HMACSecret opts /\
     Auth.PrivateKey (Auth.options p) = Auth.PrivateKey opts /\
     Auth.jwt_Name p = ("jwt:" ++ alg)%string).
Proof.
  intros alg. unfold Auth.NewJWT. fold (AuthSpec.algorithm opts). fold alg.
  set (opts' := if Auth.TTL opts <=? 0 then _ else opts).
  assert (Hopts : Auth.HMACSecret opts' = Auth.HMACSecret opts /\
                  Auth.PrivateKey opts' = Auth.PrivateKey opts /\
                  Auth.Kid opts' = Auth.Kid opts /\
                  Auth.TTL opts' = (if Auth.TTL opts <=? 0 then 60 * Second else Auth.TTL opts) /\
                  0 < Auth.TTL opts').
  { subst opts'. unfold Second. destruct (Z.leb_spec (Auth.TTL opts) 0); cbn; repeat split; lia. }
  destruct Hopts as (Hs & Hk & Hkid & Httl & Hpos). rewrite Hs, Hk.
  set (p0 := Auth.mkJwtProvider opts' alg (Auth.TTL opts') None [] _ (Auth.Kid opts')).
  split.
  - destruct (decide (alg = "HS256"%string)) as [Hh | Hh].
    + destruct (Auth.HMACSecret opts) as [| b bs] eqn:Hsecret; cbn [length Nat.eqb].
      * split; [intros _; left; done | eauto].
      * split; [intros [e He]; done |].
        intros [[_ ?] | [[Hr _] | [? _]]]; try done. rewrite Hh in Hr. done.
    + destruct (decide (alg = "RS256"%string)) as [Hr | Hr].
      * destruct (Auth.PrivateKey opts) as [key |] eqn:Hkey.
        -- split; [intros [e He]; done |].
           intros [[? _] | [[_ ?] | [_ ?]]]; done.
        -- split; [intros _; right; left; done | eauto].
      * split; [intros _; right; right; done | eauto].
  - intros p Hp Hmore.
    destruct (packageOptions_keep more Hmore p0) as (Ho & Ha & Ht & Hi & _ & _).
    cbn zeta in Ho, Ha, Ht, Hi.
    assert (Hfields : forall sm,
              p = Auth.mkJwtProvider
                    (Auth.options (foldl (fun p (opt : Auth.JWTOption K) => opt p) p0 more))
                    (Auth.alg (foldl (fun p (opt : Auth.JWTOption K) => opt p) p0 more))
                    (Auth.ttl (foldl (fun p (opt : Auth.JWTOption K) => opt p) p0 more))
                    (Some sm)
                    (Auth.claimsMutators (foldl (fun p (opt : Auth.JWTOption K) => opt p) p0 more))
                    (Auth.clock (foldl (fun p (opt : Auth.JWTOption K) => opt p) p0 more))
                    (Auth.keyID (foldl (fun p (opt : Auth.JWTOption K) => opt p) p0 more)) ->
              Auth.alg p = alg /\ Auth.signingMethod p = Some sm /\
              Auth.ttl p = Auth.TTL opts' /\ Auth.keyID p = Auth.Kid opts' /\
              Auth.options p = opts').
    { intros sm ->. cbn. rewrite Ho, Ha, Ht, Hi. done. }
    destruct (decide (alg = "HS256"%string)) as [Hh | Hh].
    + destruct (length (Auth.HMACSecret opts) =? 0)%nat; [done |].
      injection Hp as <-.
      destruct (Hfields Auth.SigningMethodHS256 eq_refl) as (H1 & H2 & H3 & H4 & H5).
      unfold Auth.jwt_Name. rewrite H1, H2, H3, H4, H5, Hs, Hk, Hkid, <- Httl. done.
    + destruct (decide (alg = "RS256"%string)) as [Hr | Hr]; [| done].
      destruct (Auth.PrivateKey opts) as [key |] eqn:Hkey; [| done].
      injection Hp as <-.
      destruct (Hfields Auth.SigningMethodRS256 eq_refl) as (H1 & H2 & H3 & H4 & H5).
      unfold Auth.jwt_Name. rewrite H1, H2, H3, H4, H5, Hs, Hk, Hkid, <- Httl. done.
Qed.

Variable sign : option Auth.SigningMethod -> option string -> Auth.MapClaims ->
                Auth.SigningKey K -> error + string.

(** X23: a provider that [NewJWT] returned, under options of the
    package, never fails for an unsupported algorithm: [Apply] either
    returns the signer's error wrapped as a sign-jwt error, or replaces
    the Authorization header by Bearer and the signed token and changes
    nothing else of the request.  The signer is called with the method,
    the key and the key id that belong to the provider's algorithm. *)
Theorem jwt_Apply_outcome (opts : Auth.JWTOptions K) (more : list (Auth.JWTOption K))
    (p : Auth.jwtProvider K) (wall : Z) (randomJTI : string) (req : http_Request) :
  Auth.NewJWT opts more = inr p ->
  Forall AuthSpec.packageOption more ->
  let kid := if decide (Auth.Kid opts = EmptyString) then None else Some (Auth.Kid opts) in
  let signed :=
    if decide (AuthSpec.algorithm opts = "HS256"%string)
    then sign (Some Auth.SigningMethodHS256) kid (Auth.jwt_claims p wall randomJTI)
           (Auth.hmacKey (Auth.HMACSecret opts))
    else sign (Some Auth.SigningMethodRS256) kid (Auth.jwt_claims p wall randomJTI)
           (Auth.rsaKey (Auth.PrivateKey opts)) in
  Auth.jwt_Apply sign p wall randomJTI req =
    match signed with
    | inl e => inl (fmt_Errorf "sign jwt" e)
    | inr token =>
        inr (mkRequest (Method req) (URL req)
               (<["Authorization"%string := [("Bearer " ++ token)%string]]> (ReqHeader req))
               (Body req) (GetBody req) (ContentLength req))
    end.
Proof.
  intros Hp Hmore kid signed.
  pose proof (Hfacts := Hp). revert Hfacts.
  unfold Auth.NewJWT. fold (AuthSpec.algorithm opts).
  set (alg := AuthSpec.algorithm opts) in *.
  set (opts' := if Auth.TTL opts <=? 0 then _ else opts).
  assert (Hopts : Auth.HMACSecret opts' = Auth.HMACSecret opts /\
                  Auth.PrivateKey opts' = Auth.PrivateKey opts /\
                  Auth.Kid opts' = Auth.Kid opts).
  { subst opts'. destruct (Auth.TTL opts <=? 0); done. }
  destruct Hopts as (Hs & Hk & Hkid).
  set (p0 := Auth.mkJwtProvider opts' alg (Auth.TTL opts') None [] _ (Auth.Kid opts')).
  destruct (packageOptions_keep more Hmore p0) as (Ho & Ha & Ht & Hi & _ & _).
  cbn zeta in Ho, Ha, Ht, Hi. cbn [Auth.options Auth.alg Auth.keyID p0] in Ho, Ha, Hi.
  assert (Hp' : forall sm q,
            q = Auth.mkJwtProvider
                  (Auth.options (foldl (fun p (opt : Auth.JWTOption K) => opt p) p0 more))
                  (Auth.alg (foldl (fun p (opt : Auth.JWTOption K) => opt p) p0 more))
                  (Auth.ttl (foldl (fun p (opt : Auth.JWTOption K) => opt p) p0 more))
                  (Some sm)
                  (Auth.claimsMutators (foldl (fun p (opt : Auth.JWTOption K) => opt p) p0 more))
                  (Auth.clock (foldl (fun p (opt : Auth.JWTOption K) => opt p) p0 more))
                  (Auth.keyID (foldl (fun p (opt : Auth.JWTOption K) => opt p) p0 more)) ->
            Auth.alg q = alg /\ Auth.signingMethod q = Some sm /\
            Auth.keyID q = Auth.Kid opts /\
            Auth.HMACSecret (Auth.options q) = Auth.HMACSecret opts /\
            Auth.PrivateKey (Auth.options q) = Auth.PrivateKey opts).
  { intros sm q ->. cbn. rewrite Ho, Ha, Hi, Hs, Hk, Hkid. done. }
  unfold Auth.jwt_Apply. subst signed kid. unfold Header_Set.
  change (CanonicalMIMEHeaderKey "Authorization") with "Authorization"%string.
  destruct (decide (alg = "HS256"%string)) as [Hh | Hh].
  - destruct (length (Auth.HMACSecret opts') =? 0)%nat; [done |].
    intros [= Hq]. destruct (Hp' _ _ (eq_sym Hq)) as (H1 & H2 & H3 & H4 & H5).
    rewrite H1, H2, H3, H4. rewrite (decide_True (P := alg = "HS256"%string)) by done.
    destruct (sign _ _ _ _); done.
  - destruct (decide (alg = "RS256"%string)) as [Hr | Hr]; [| done].
    destruct (Auth.PrivateKey opts') as [key |] eqn:Hkey; [| done].
    intros [= Hq]. destruct (Hp' _ _ (eq_sym Hq)) as (H1 & H2 & H3 & H4 & H5).
    rewrite H1, H2, H3, H5. rewrite (decide_False (P := alg = "HS256"%string)) by done.
    rewrite (decide_True (P := alg = "RS256"%string)) by done.
    destruct (sign _ _ _ _); done.
Qed.

End JWTFacts.

Section JWTClaims.

Context {K : Type}.

(** The fields of a provider that [NewJWT] returned under options that
    set the clock only. *)
Lemma NewJWT_fields (opts : Auth.JWTOptions K) (more : list (Auth.JWTOption K))
    (p : Auth.jwtProvider K) :
  Auth.NewJWT opts more = inr p ->
  Forall (fun opt => exists c, opt = Auth.WithClock c) more ->
  Auth.claimsMutators p = [] /\
  Auth.Issuer (Auth.options p) = Auth.Issuer opts /\
  Auth.Audience (Auth.options p) = Auth.Audience opts /\
  0 < Auth.ttl p.
Proof.
  intros Hp Hclock.
  assert (Hmore : Forall AuthSpec.packageOption more).
  { eapply Forall_impl; [exact Hclock |]. intros opt Hc. right. exact Hc. }
  revert Hp. unfold Auth.NewJWT.
  set (alg := if decide (Strings.ToUpper _ = EmptyString) then _ else _).
  set (opts' := if Auth.TTL opts <=? 0 then _ else opts).
  assert (Hopts : Auth.Issuer opts' = Auth.Issuer opts /\
                  Auth.Audience opts' = Auth.Audience opts /\ 0 < Auth.TTL opts').
  { subst opts'. unfold Second. destruct (Z.leb_spec (Auth.TTL opts) 0); cbn; repeat split; lia. }
  destruct Hopts as (Hi & Ha & Hpos).
  set (p0 := Auth.mkJwtProvider opts' alg (Auth.TTL opts') None [] _ (Auth.Kid opts')).
  destruct (packageOptions_keep more Hmore p0) as (Ho & _ & Ht & _ & _ & Hm).
  cbn zeta in Ho, Ht, Hm. specialize (Hm Hclock).
  cbn [Auth.options Auth.ttl Auth.claimsMutators p0] in Ho, Ht, Hm.
  destruct (decide (alg = "HS256"%string)).
  - destruct (length _ =? 0)%nat; [done |]. intros [= <-]. cbn.
    rewrite Ho, Ht, Hm. done.
  - destruct (decide (alg = "RS256"%string)); [| done].
    destruct (Auth.PrivateKey opts'); [| done]. intros [= <-]. cbn.
    rewrite Ho, Ht, Hm. done.
Qed.

(** X24: the claims of a token from a provider that [NewJWT] returned
    with no claims callback: issued-at and not-before are the second of
    the provider's clock, the expiry is the second of that instant plus
    the time to live and never lies before issued-at; issuer and
    audience are present exactly when they are configured non-empty, and
    the token id is the random one, absent when none could be drawn. *)
Theorem jwt_claims_of_clock (opts : Auth.JWTOptions K) (more : list (Auth.JWTOption K))
    (p : Auth.jwtProvider K) (wall : Z) (randomJTI : string) :
  Auth.NewJWT opts more = inr p ->
  Forall (fun opt => exists c, opt = Auth.WithClock c) more ->
  let now := Auth.clock p wall in
  let claims := Auth.jwt_claims p wall randomJTI in
  claims !! "iat"%string = Some (Auth.claimInt (Auth.Unix now)) /\
  claims !! "nbf"%string = Some (Auth.claimInt (Auth.Unix now)) /\
  claims !! "exp"%string = Some (Auth.claimInt (Auth.Unix (now + Auth.ttl p))) /\
  Auth.Unix now <= Auth.Unix (now + Auth.ttl p) /\
  claims !! "iss"%string
    = (if decide (Auth.Issuer opts = EmptyString) then None
       else Some (Auth.claimString (Auth.Issuer opts))) /\
  claims !! "aud"%string
    = (if decide (Auth.Audience opts = EmptyString) then None
       else Some (Auth.claimString (Auth.Audience opts))) /\
  claims !! "jti"%string
    = (if decide (randomJTI = EmptyString) then None
       else Some (Auth.claimString randomJTI)).
Proof.
  intros Hp Hclock now claims.
  destruct (NewJWT_fields opts more p Hp Hclock) as (Hm & Hi & Ha & Hpos).
  assert (Hexp : Auth.Unix now <= Auth.Unix (now + Auth.ttl p)).
  { unfold Auth.Unix, Second. apply Z.div_le_mono; lia. }
  subst claims. unfold Auth.jwt_claims. fold now. rewrite Hm, Hi, Ha. cbn [foldl].
  destruct (decide (Auth.Issuer opts = EmptyString));
    destruct (decide (Auth.Audience opts = EmptyString));
    destruct (decide (randomJTI = EmptyString));
    simplify_map_eq; done.
Qed.

End JWTClaims.

Lemma jwt_Apply_outcome_witness :
  let opts : Auth.JWTOptions unit :=
    Auth.mkJWTOptions " hs256 " "svc" EmptyString "k1" 0 [Byte.x01] None in
  let sign : option Auth.SigningMethod -> option string -> Auth.MapClaims ->
             Auth.SigningKey unit -> error + string :=
    fun _ _ _ _ => inr "token"%string in
  exists p,
    Auth.NewJWT opts [] = inr p /\
    Auth.jwt_Apply sign p 1700000000000000000 "id" Examples.getRequest
    = inr (mkRequest "GET" None {[ "Authorization"%string := ["Bearer token"%string] ]}
             None None 0).
Proof.
  intros opts sign. eexists. split; [reflexivity |].
  apply (jwt_Apply_outcome (K := unit) sign opts [] _ 1700000000000000000 "id"
           Examples.getRequest eq_refl (List.Forall_nil _)).
Defined.

Lemma jwt_claims_of_clock_witness :
  let opts : Auth.JWTOptions unit :=
    Auth.mkJWTOptions "HS256" "svc" EmptyString EmptyString (90 * Second) [Byte.x01] None in
  exists p,
    Auth.NewJWT opts [Auth.WithClock (Some (fun _ => 5 * Second + 1))] = inr p /\
    let claims := Auth.jwt_claims p 0 "id" in
    claims !! "iat"%string = Some (Auth.claimInt 5) /\
    claims !! "exp"%string = Some (Auth.claimInt 95) /\
    claims !! "iss"%string = Some (Auth.claimString "svc") /\
    claims !! "aud"%string = None /\
    claims !! "jti"%string = Some (Auth.claimString "id").
Proof.
  intros opts. eexists. split; [reflexivity |].
  match goal with
  | |- let claims := Auth.jwt_claims ?p _ _ in _ =>
      destruct (jwt_claims_of_clock (K := unit) opts
                  [Auth.WithClock (Some (fun _ => 5 * Second + 1))] p 0 "id" eq_refl)
        as (Hiat & _ & Hexp & _ & Hiss & Haud & Hjti)
  end.
  { constructor; [eauto | constructor]. }
  cbn zeta. rewrite Hiat, Hexp, Hiss, Haud, Hjti. repeat split.
Defined.

(** ** Middleware chain *)

(** X25: [wrapTransport] composes the middlewares so that the first one
    is outermost: the request passes through them in the order given
    before it reaches the base transport.  Nil entries are skipped, and
    wrapping in two steps is wrapping once with the outer middlewares
    listed first. *)
Theorem wrapTransport_first_is_outermost {RT : Type} (dflt : RT) (base : option RT)
    (middlewares inner : list (option (Httpc.Middleware RT))) :
  Httpc.wrapTransport dflt base middlewares
    = foldr (fun mw rt => match mw with
                          | Some f => f rt
                          | None => rt
                          end) (default dflt base) middlewares /\
  Httpc.wrapTransport dflt base middlewares
    = Httpc.wrapTransport dflt base (filter is_Some middlewares) /\
  Httpc.wrapTransport dflt (Some (Httpc.wrapTransport dflt base inner)) middlewares
    = Httpc.wrapTransport dflt base (middlewares ++ inner).
Proof.
  assert (Hfold : forall (b : option RT) (mws : list (option (Httpc.Middleware RT))),
            Httpc.wrapTransport dflt b mws
            = foldr (fun mw rt => match mw with
                                  | Some f => f rt
                                  | None => rt
                                  end) (default dflt b) mws).
  { intros b mws. unfold Httpc.wrapTransport.
    induction mws as [| mw mws IH]; [done |].
    rewrite reverse_cons, foldl_app. cbn [foldl foldr]. rewrite IH. done. }
  split; [apply Hfold |]. split.
  - rewrite !Hfold. induction middlewares as [| [f |] mws IH].
    + done.
    + rewrite filter_cons_True by eauto. cbn [foldr]. rewrite IH. done.
    + rewrite filter_cons_False by (intros [? ?]; done). cbn [foldr]. exact IH.
  - rewrite !Hfold. cbn [default]. rewrite foldr_app. done.
Qed.
